(** * Citation dashboard: the client-side aggregation engine

    A shallow embedding of the data-join layer of the dashboard
    ([client/src/lib/dataLoader.ts], the [useVisualizationData] hook in its
    latest revision -- the one with the arXiv month fallback, the theory-name
    normalisation and the title-to-paperId map -- and the selection handlers
    of [client/src/pages/Dashboard.tsx]), followed by the properties the
    specification states about it.  The pure parts of the components that
    consume the views are embedded as well (the label splitting and the
    highlighting of the graph, the row merge of the line chart, the colour
    helpers and the two orders of the theory table, what the page derives
    from the selection), with the time series of the hook's earlier revision;
    their properties come last.

    Modelling conventions.
    - A JavaScript string is a [string]: one [ascii] per UTF-16 code unit, so
      the model covers strings whose code units are below 256.  On that range
      [toLowerCase], [trim] and the regular-expression classes [\s] and [\d]
      are written out exactly.
    - A JavaScript number is a [Z]: every number the engine computes is a
      counter, a difference of integers or the value of a run of digits
      (exact below 2^53, where [parseInt] and [String] are exact too).
    - A JSON object whose entries are enumerated ([Object.entries],
      [Object.keys], [Object.values], [for .. of]) is the list of its own
      entries in enumeration order; property access reads the first entry
      with that key (keys of an object are distinct, so it is the only one).
      Access is to own properties.  A read [o[k]] or a test [k in o] at a
      name that [o] lacks and every object inherits from [Object.prototype]
      ([JS.Object_prototype_names]) finds the inherited member in the
      program; such reads are outside the model, and a property whose truth
      depends on a failed lookup states that the name is not one of them
      ([JS.inherited]).
    - A [Set], a [Map] and the month-count record, which are only probed by
      key or sorted right after their keys are listed, are stdpp's [gset]
      and [gmap].
    - [forEach] loops that push to an array or bump a counter are left folds
      over the explicit accumulator. *)

From Stdlib Require Import ZArith Ascii DecimalString DecimalPos DecimalN.
From stdpp Require Import gmap strings list fin_maps sorting.

Open Scope Z_scope.

#[local] Set Warnings "-clear-no-such-hyp".

(** ** JavaScript built-ins used by the engine *)

Module JS.

Definition code (c : ascii) : N := N_of_ascii c.

(** [\d] *)
Definition is_digit (c : ascii) : bool :=
  ((48 <=? code c) && (code c <=? 57))%N.

(** [\s], and the characters [trim] strips: TAB, LF, VT, FF, CR, SP, NBSP. *)
Definition is_space (c : ascii) : bool :=
  ((9 <=? code c) && (code c <=? 13) || (code c =? 32) || (code c =? 160))%N.

(** [toLowerCase] on one code unit: A-Z, and the Latin-1 capitals
    U+00C0..U+00DE without the multiplication sign U+00D7. *)
Definition lower_char (c : ascii) : ascii :=
  let n := code c in
  if ((65 <=? n) && (n <=? 90) ||
      (192 <=? n) && (n <=? 222) && negb (n =? 215))%N
  then ascii_of_N (n + 32) else c.

Fixpoint toLowerCase (s : string) : string :=
  match s with
  | EmptyString => EmptyString
  | String c s' => String (lower_char c) (toLowerCase s')
  end.

(** Canonicalisation of a code unit for an [/i] match against a pattern
    made of ASCII letters: only the ASCII capitals fold. *)
Definition fold_char (c : ascii) : ascii :=
  let n := code c in
  if ((65 <=? n) && (n <=? 90))%N then ascii_of_N (n + 32) else c.

Fixpoint trimStart (s : string) : string :=
  match s with
  | EmptyString => EmptyString
  | String c s' => if is_space c then trimStart s' else s
  end.

Definition trimEnd (s : string) : string :=
  String.rev (trimStart (String.rev s)).

Definition trim (s : string) : string := trimEnd (trimStart s).

(** Truthiness of a string value. *)
Definition truthy (s : string) : bool := negb (String.eqb s "").

(** [a || b] on string-or-undefined operands. *)
Definition or_else (a : option string) (b : string) : string :=
  match a with
  | Some s => if truthy s then s else b
  | None => b
  end.

(** [s.substring(0, n)] *)
Definition substring0 (n : nat) (s : string) : string :=
  String.substring 0 n s.

(** [pat] is a literal pattern; [strip_prefix ci pat s] is the rest of [s]
    after a match of [pat] at its start, case-insensitively when [ci]. *)
Fixpoint strip_prefix (ci : bool) (pat s : string) : option string :=
  match pat, s with
  | EmptyString, _ => Some s
  | String _ _, EmptyString => None
  | String p pat', String c s' =>
      if Ascii.eqb (if ci then fold_char p else p)
                   (if ci then fold_char c else c)
      then strip_prefix ci pat' s' else None
  end.

(** The longest run of digits at the start of [s] (a greedy [\d+] or
    [\d*]). *)
Fixpoint take_digits (s : string) : string :=
  match s with
  | String c s' => if is_digit c then String c (take_digits s') else EmptyString
  | EmptyString => EmptyString
  end.

Definition digit_value (c : ascii) : Z := Z.of_N (code c) - 48.

(** [parseInt(ds, 10)] on a string of decimal digits: the number the digits
    denote, which is the program's value while it is below 2^53 (from there
    on the program rounds to a double). *)
Fixpoint parseInt_from (acc : Z) (ds : string) : Z :=
  match ds with
  | EmptyString => acc
  | String c ds' => parseInt_from (acc * 10 + digit_value c) ds'
  end.

Definition parseInt_digits (ds : string) : Z := parseInt_from 0 ds.

(** [String(n)] for a non-negative integer: its decimal digits, as the
    program prints an integer below 10^21. *)
Definition Number_toString (n : Z) : string :=
  NilEmpty.string_of_uint (N.to_uint (Z.to_N n)).

(** [s.padStart(2, '0')] *)
Definition padStart2 (s : string) : string :=
  match String.length s with
  | 0%nat => "00" +:+ s
  | 1%nat => "0" +:+ s
  | _ => s
  end.

(** The default comparison of [Array.prototype.sort] on strings: code-unit
    lexicographic order. *)
Definition compareStrings (a b : string) : Z :=
  match String.compare a b with
  | Lt => -1
  | Eq => 0
  | Gt => 1
  end.

(** [Array.prototype.sort] is stable; for a consistent comparator its result
    is the one stable sorted arrangement, which insertion from the right
    computes: an element moves past exactly the elements that the
    comparator puts strictly before it. *)
Section Sort.
Context {A : Type} (cmp : A -> A -> Z).

Fixpoint sort_insert (x : A) (l : list A) : list A :=
  match l with
  | [] => [x]
  | y :: l' =>
      if bool_decide (cmp x y <= 0) then x :: y :: l'
      else y :: sort_insert x l'
  end.

Definition Array_sort (l : list A) : list A := foldr sort_insert [] l.
End Sort.

(** The property names that every plain object inherits from
    [Object.prototype].  For a parsed JSON object [o] that has no entry [k],
    [o[k]] is [undefined] and [k in o] is false exactly when [k] is none of
    these. *)
Definition Object_prototype_names : list string :=
  ["constructor"; "__defineGetter__"; "__defineSetter__"; "hasOwnProperty";
   "__lookupGetter__"; "__lookupSetter__"; "isPrototypeOf";
   "propertyIsEnumerable"; "toString"; "valueOf"; "__proto__";
   "toLocaleString"].

Definition inherited (k : string) : bool :=
  bool_decide (k ∈ Object_prototype_names).

(** Own-property access [o[k]] and [k in o] on a JSON object: the value of
    the program's expression whenever [k] is a key of [o] or [inherited k]
    is false. *)
Fixpoint get {V : Type} (o : list (string * V)) (k : string) : option V :=
  match o with
  | [] => None
  | (k', v) :: o' => if String.eqb k' k then Some v else get o' k
  end.

Definition has_key {V : Type} (o : list (string * V)) (k : string) : bool :=
  match get o k with Some _ => true | None => false end.

End JS.

(** ** [client/src/lib/dataLoader.ts] *)

Module DataLoader.
Import JS.

Record Doc := mkDoc { doc_title : string; doc_paperId : string }.

(** [LLMCluster] and [PsychCluster] have the same shape. *)
Record Cluster := mkCluster {
  cluster_size : Z;
  topic : string;
  docs : list Doc
}.

Record TheoryData := mkTheoryData {
  citation : Z;
  theory_docs : list string
}.

(** [ClusterTheories]: theory name to theory data, in declaration order. *)
Abbreviation ClusterTheories := (list (string * TheoryData)).

Record SecondaryCluster := mkSecondaryCluster {
  sub_size : Z;
  sub_topic : string;
  theories : list string
}.

(** [s.replace(/theories$/i, 'theory')]: the pattern can only match the
    last eight code units. *)
Fixpoint replace_trailing_theories (s : string) : string :=
  match strip_prefix true "theories" s with
  | Some EmptyString => "theory"
  | _ =>
      match s with
      | EmptyString => EmptyString
      | String c s' => String c (replace_trailing_theories s')
      end
  end.

(** [s.replace(/^mental\s+/i, '')] *)
Definition replace_leading_mental (s : string) : string :=
  match strip_prefix true "mental" s with
  | Some (String c rest) => if is_space c then trimStart rest else s
  | _ => s
  end.

Definition normalizeTheoryName (name : string) : string :=
  trim (replace_leading_mental (replace_trailing_theories (toLowerCase name))).

(** [clusterName.match(/Cluster (\d+)/)]: the capture of the leftmost
    match, as a number. *)
Definition cluster_match_here (s : string) : option Z :=
  match strip_prefix false "Cluster " s with
  | Some rest =>
      let ds := take_digits rest in
      if truthy ds then Some (parseInt_digits ds) else None
  | None => None
  end.

Fixpoint cluster_match (s : string) : option Z :=
  match cluster_match_here s with
  | Some n => Some n
  | None =>
      match s with
      | EmptyString => None
      | String _ s' => cluster_match s'
      end
  end.

Definition getClusterNumber (clusterName : string) : Z :=
  match cluster_match clusterName with
  | Some n => n
  | None => 0
  end.

Record TopTheory := mkTopTheory { name : string; citations : Z }.

Definition getTopTheories (clusterTheories : ClusterTheories) (n : nat)
  : list TopTheory :=
  take n
    (Array_sort (fun a b => citations b - citations a)
       (map (fun '(nm, data) => mkTopTheory nm (citation data)) clusterTheories)).

End DataLoader.

(** ** The [useVisualizationData] hook *)

Module Hook.
Import JS DataLoader.

(** Entries of the loaded JSON documents, with the fields the engine reads.
    [references] is absent on some papers; a paper-info record may lack any
    of its fields. *)
Record Ref := mkRef { ref_paperId : string }.

Record Paper := mkPaper {
  paperId : string;
  references : option (list Ref)
}.

Record PaperInfo := mkPaperInfo {
  info_paperId : option string;
  publicationDate : option string;
  arxivUrl : option string
}.

Record RefInfo := mkRefInfo {
  refinfo_title : option string;
  refinfo_paperId : option string
}.

(** The hook's state once [loadData] has run (or failed: the initial
    values are the empty objects, [null] and the empty map). *)
Record State := mkState {
  llmClusters : list (string * Cluster);
  psychClusters : list (string * Cluster);
  theoryPool : list (string * ClusterTheories);
  secondaryClusters : list (string * list (string * SecondaryCluster));
  papersInfo : option (list PaperInfo);
  filteredPapers : option (list Paper);
  titleToPaperId : gmap string string
}.

(** Output records of the views. *)
Record BipartiteEdge := mkEdge {
  source : string;
  target : string;
  weight : Z
}.

Record CitationDataPoint := mkPoint {
  month : string;
  point_citations : Z
}.

Record Series := mkSeries {
  psychTopic : string;
  psychCluster : Z;
  data : list CitationDataPoint
}.

Record TheoryRow := mkRow {
  subtopic : string;
  theory : string;
  row_citations : Z;
  isTopThree : bool
}.

Record TheoryDistribution := mkDist {
  dist_topic : string;
  dist_citations : Z
}.

Inductive ClusterKind := llm | psych.

(** *** Month inference *)

(** [arxivUrl.match(/arxiv\.org\/abs\/(\d{4})\.\d{4,5}(v\d+)?/i)]: the
    first capture of the leftmost match.  The fifth digit and the version
    suffix are optional and do not change where the pattern matches. *)
Definition arxiv_match_here (s : string) : option string :=
  match strip_prefix true "arxiv.org/abs/" s with
  | Some (String y1 (String y2 (String m1 (String m2 (String dot
      (String n1 (String n2 (String n3 (String n4 _))))))))) =>
      if is_digit y1 && is_digit y2 && is_digit m1 && is_digit m2 &&
         Ascii.eqb dot "." &&
         is_digit n1 && is_digit n2 && is_digit n3 && is_digit n4
      then Some (String y1 (String y2 (String m1 (String m2 EmptyString))))
      else None
  | _ => None
  end.

Fixpoint arxiv_match (s : string) : option string :=
  match arxiv_match_here s with
  | Some yymm => Some yymm
  | None =>
      match s with
      | EmptyString => None
      | String _ s' => arxiv_match s'
      end
  end.

(** [Number.isFinite] holds of both numbers: each is parsed from two
    digits. *)
Definition inferMonthFromArxivUrl (arxivUrl : option string) : option string :=
  match arxivUrl with
  | None => None
  | Some url =>
      if negb (truthy url) then None else
      match arxiv_match url with
      | None => None
      | Some yymm =>
          let yy := parseInt_digits (String.substring 0 2 yymm) in
          let mm := parseInt_digits (String.substring 2 2 yymm) in
          if (mm <? 1) || (12 <? mm) then None else
          let year := 2000 + yy in
          let month := padStart2 (Number_toString mm) in
          Some (Number_toString year +:+ "-" +:+ month)
      end
  end.

(** [paper] is [None] when the caller found no record for the paper. *)
Definition inferMonth (paper : option PaperInfo) : option string :=
  let inferred :=
    match inferMonthFromArxivUrl (paper ≫= arxivUrl) with
    | Some m => if truthy m then Some m else None
    | None => None
    end in
  match paper ≫= publicationDate with
  | Some pub =>
      if bool_decide (7 <= String.length pub)%nat
      then Some (substring0 7 pub) else inferred
  | None => inferred
  end.

(** *** Shared pieces of the loops *)

(** [new Set(cluster.docs.map(d => d.paperId))] *)
Definition paperIdSet (c : Cluster) : gset string :=
  list_to_set (doc_paperId <$> docs c).

(** [refs.forEach(ref => { if (ids.has(ref.paperId)) count++ })] *)
Definition countRefs (ids : gset string) (refs : list Ref) (count : Z) : Z :=
  foldl (fun count ref =>
           if bool_decide (ref_paperId ref ∈ ids) then count + 1 else count)
        count refs.

(** The loop over [papers] that [getBipartiteEdges] and
    [getTheoryDistribution] both run for a source and a target set. *)
Definition countCitations (llmPaperIds targetIds : gset string)
    (papers : list Paper) : Z :=
  foldl (fun citationCount paper =>
           if bool_decide (paperId paper ∈ llmPaperIds) then
             match references paper with
             | Some refs => countRefs targetIds refs citationCount
             | None => citationCount
             end
           else citationCount)
        0 papers.

(** [monthCounts[month] = (monthCounts[month] || 0) + n] *)
Definition bump (monthCounts : gmap string Z) (month : string) (n : Z)
  : gmap string Z :=
  <[month := default 0 (monthCounts !! month) + n]> monthCounts.

(** [Object.keys(monthCounts)]; the caller sorts the keys at once, so the
    enumeration order is immaterial. *)
Definition Object_keys (monthCounts : gmap string Z) : list string :=
  (map_to_list monthCounts).*1.

(** [let cumulative = 0;
     sortedMonths.map(month => { cumulative += monthCounts[month];
                                 return { month, citations: cumulative } })] *)
Fixpoint runningTotals (monthCounts : gmap string Z) (cumulative : Z)
    (sortedMonths : list string) : list CitationDataPoint :=
  match sortedMonths with
  | [] => []
  | month :: rest =>
      let cumulative := cumulative + default 0 (monthCounts !! month) in
      mkPoint month cumulative :: runningTotals monthCounts cumulative rest
  end.

Definition cumulativeSeries (monthCounts : gmap string Z)
  : list CitationDataPoint :=
  let sortedMonths := Array_sort compareStrings (Object_keys monthCounts) in
  runningTotals monthCounts 0 sortedMonths.

(** *** [loadData]: the title index *)

Definition buildTitleMap (refsInfo : option (list RefInfo))
  : gmap string string :=
  foldl (fun titleMap ref =>
           match refinfo_title ref, refinfo_paperId ref with
           | Some title, Some pid =>
               if truthy title && truthy pid
               then <[trim (toLowerCase title) := pid]> titleMap
               else titleMap
           | _, _ => titleMap
           end)
        ∅ (default [] refsInfo).

Definition loadData
    (llm psych : list (string * Cluster))
    (theories : list (string * ClusterTheories))
    (secondary : list (string * list (string * SecondaryCluster)))
    (papers : option (list PaperInfo)) (filtPapers : option (list Paper))
    (refsInfo : option (list RefInfo)) : State :=
  mkState llm psych theories secondary papers filtPapers
          (buildTitleMap refsInfo).

(** *** The views *)

Definition getBipartiteEdges (st : State) : list BipartiteEdge :=
  match filteredPapers st with
  | None => []
  | Some papers =>
      foldl (fun edges '(llmKey, llmCluster) =>
               let llmPaperIds := paperIdSet llmCluster in
               foldl (fun edges '(psychKey, psychCluster) =>
                        let psychPaperIds := paperIdSet psychCluster in
                        let citationCount :=
                          countCitations llmPaperIds psychPaperIds papers in
                        if bool_decide (0 < citationCount) then
                          edges ++ [mkEdge ("LLM-" +:+ llmKey)
                                           ("Psych-" +:+ psychKey)
                                           citationCount]
                        else edges)
                     edges (psychClusters st))
            [] (llmClusters st)
  end.

(** The paper-ID set of the series: the given topic when the key names
    one, every LLM topic otherwise. *)
Definition seriesPaperIds (st : State) (llmClusterId : option string)
  : gset string :=
  let all : gset string :=
    list_to_set (flat_map (fun c => doc_paperId <$> docs c)
                          (llmClusters st).*2) in
  match llmClusterId with
  | Some id =>
      if truthy id then
        match get (llmClusters st) id with
        | Some c => paperIdSet c
        | None => all
        end
      else all
  | None => all
  end.

(** One step of the loop over the paper-info records. *)
Definition countPaper (paperIds : gset string)
    (monthCounts : gmap string Z) (paper : PaperInfo) : gmap string Z :=
  match info_paperId paper with
  | None => monthCounts
  | Some pid =>
      if negb (truthy pid) then monthCounts else
      if negb (bool_decide (pid ∈ paperIds)) then monthCounts else
      match inferMonth (Some paper) with
      | None => monthCounts
      | Some month =>
          if negb (truthy month) then monthCounts
          else bump monthCounts month 1
      end
  end.

Definition getCitationTimeSeries (st : State) (llmClusterId : option string)
  : list CitationDataPoint :=
  match papersInfo st with
  | None => []
  | Some papersInfoArray =>
      let paperIds := seriesPaperIds st llmClusterId in
      let monthCounts := foldl (countPaper paperIds) ∅ papersInfoArray in
      cumulativeSeries monthCounts
  end.

Definition buildPapersInfoMap (papersInfoArray : list PaperInfo)
  : gmap string PaperInfo :=
  foldl (fun m p =>
           match info_paperId p with
           | Some pid => if truthy pid then <[pid := p]> m else m
           | None => m
           end)
        ∅ papersInfoArray.

(** One step of the loop over the papers, for one Psychology topic. *)
Definition countPaperCitations (llmPaperIds psychPaperIds : gset string)
    (papersInfoMap : gmap string PaperInfo)
    (monthCounts : gmap string Z) (paper : Paper) : gmap string Z :=
  if negb (bool_decide (paperId paper ∈ llmPaperIds)) then monthCounts else
  match inferMonth (papersInfoMap !! paperId paper) with
  | None => monthCounts
  | Some month =>
      if negb (truthy month) then monthCounts else
      match references paper with
      | None => monthCounts
      | Some refs =>
          let monthCitations := countRefs psychPaperIds refs 0 in
          if bool_decide (0 < monthCitations)
          then bump monthCounts month monthCitations
          else monthCounts
      end
  end.

(** [for (const theories of Object.values(theoryPool))
       if (theoryName in theories) { theoryData = theories[theoryName]; break }] *)
Fixpoint findTheory (pools : list ClusterTheories) (theoryName : string)
  : option TheoryData :=
  match pools with
  | [] => None
  | theories :: rest =>
      if has_key theories theoryName then get theories theoryName
      else findTheory rest theoryName
  end.

(** The title-to-ID resolution of a theory's documents. *)
Definition resolveTitles (titleToPaperId : gmap string string)
    (docTitles : list string) : gset string :=
  foldl (fun theoryPaperIds docTitle =>
           let normalizedTitle := trim (toLowerCase docTitle) in
           match titleToPaperId !! normalizedTitle with
           | Some pid =>
               if truthy pid then theoryPaperIds ∪ {[pid]}
               else theoryPaperIds
           | None => theoryPaperIds
           end)
        ∅ docTitles.

Section Labels.
(** [getClusterLabel] lives in [lib/clusterLabels.ts]; the engine only
    copies its result into the output. *)
Variable getClusterLabel : string -> ClusterKind -> string.

Definition getMultiSeriesCitationData (st : State) (llmClusterId : string)
  : list Series :=
  match filteredPapers st, papersInfo st with
  | Some papers, Some papersInfoArray =>
      match get (llmClusters st) llmClusterId with
      | None => []
      | Some llmCluster =>
          let llmPaperIds := paperIdSet llmCluster in
          let papersInfoMap := buildPapersInfoMap papersInfoArray in
          foldl (fun series '(psychKey, psychCluster) =>
                   let psychPaperIds := paperIdSet psychCluster in
                   let monthCounts :=
                     foldl (countPaperCitations llmPaperIds psychPaperIds
                                                papersInfoMap)
                           ∅ papers in
                   let data := cumulativeSeries monthCounts in
                   if bool_decide (0 < length data)%nat then
                     series ++ [mkSeries (getClusterLabel psychKey psych)
                                         (getClusterNumber psychKey) data]
                   else series)
                [] (psychClusters st)
      end
  | _, _ => []
  end.

Definition getTheoryDistribution (st : State) (theoryName : string)
  : list TheoryDistribution :=
  match filteredPapers st with
  | None => []
  | Some papers =>
      if bool_decide (size (titleToPaperId st) = 0%nat) then [] else
      match findTheory (theoryPool st).*2 theoryName with
      | None => []
      | Some theoryData =>
          let theoryPaperIds :=
            resolveTitles (titleToPaperId st) (theory_docs theoryData) in
          let distribution :=
            foldl (fun distribution '(llmKey, llmCluster) =>
                     let llmPaperIds := paperIdSet llmCluster in
                     let citationCount :=
                       countCitations llmPaperIds theoryPaperIds papers in
                     distribution ++
                       [mkDist (getClusterLabel llmKey llm) citationCount])
                  [] (llmClusters st) in
          Array_sort (fun a b => dist_citations b - dist_citations a)
                     distribution
      end
  end.
End Labels.

(** [normalizedToCanonical]: a later theory with the same normalised name
    replaces an earlier one. *)
Definition buildNormalizedToCanonical (clusterTheories : ClusterTheories)
  : gmap string string :=
  foldl (fun m nm => <[normalizeTheoryName nm := nm]> m)
        ∅ clusterTheories.*1.

(** [subtopicOrder]: subtopic label to the index of its entry. *)
Definition buildSubtopicOrder
    (secondaryClusterData : list (string * SecondaryCluster))
  : gmap string Z :=
  foldl (fun m '(index, (_, subCluster)) =>
           <[sub_topic subCluster := Z.of_nat index]> m)
        ∅ (imap (fun index entry => (index, entry)) secondaryClusterData).

(** The body of the loop over a subtopic's theory names. *)
Definition pushTheoryRow (clusterTheories : ClusterTheories)
    (normalizedToCanonical : gmap string string)
    (topTheoryNames : gset string) (subCluster : SecondaryCluster)
    (rows : list TheoryRow) (theoryName : string) : list TheoryRow :=
  let '(canonicalName, theoryData) :=
    match get clusterTheories theoryName with
    | Some d => (theoryName, Some d)
    | None =>
        let normalizedName := normalizeTheoryName theoryName in
        let canonicalName :=
          or_else (normalizedToCanonical !! normalizedName) theoryName in
        (canonicalName, get clusterTheories canonicalName)
    end in
  match theoryData with
  | Some d =>
      rows ++ [mkRow (sub_topic subCluster) canonicalName (citation d)
                     (bool_decide (canonicalName ∈ topTheoryNames))]
  | None => rows
  end.

Definition compareRows (subtopicOrder : gmap string Z) (a b : TheoryRow) : Z :=
  let subtopicDiff :=
    default 0 (subtopicOrder !! subtopic a) -
    default 0 (subtopicOrder !! subtopic b) in
  if bool_decide (subtopicDiff <> 0) then subtopicDiff
  else row_citations b - row_citations a.

Definition getTheoryTableData (st : State) (psychClusterId : string)
  : list TheoryRow :=
  let clusterNum := getClusterNumber psychClusterId in
  let clusterKey := "Cluster " +:+ Number_toString clusterNum in
  match get (secondaryClusters st) clusterKey,
        get (theoryPool st) clusterKey with
  | Some secondaryClusterData, Some clusterTheories =>
      let topTheories := getTopTheories clusterTheories 3 in
      let topTheoryNames : gset string := list_to_set (name <$> topTheories) in
      let normalizedToCanonical := buildNormalizedToCanonical clusterTheories in
      let subtopicOrder := buildSubtopicOrder secondaryClusterData in
      let rows :=
        foldl (fun rows '(_, subCluster) =>
                 foldl (pushTheoryRow clusterTheories normalizedToCanonical
                                      topTheoryNames subCluster)
                       rows (theories subCluster))
              [] secondaryClusterData in
      Array_sort (compareRows subtopicOrder) rows
  | _, _ => []
  end.

End Hook.

(** ** Selection handlers of [client/src/pages/Dashboard.tsx] *)

Module Dashboard.

Record Selection := mkSelection {
  selectedLLMNode : option string;
  selectedPsychNode : option string;
  selectedTheory : option string
}.

(** The three [useState(null)] cells. *)
Definition initial : Selection := mkSelection None None None.

(** [current === id ? null : id] *)
Definition toggle (current : option string) (id : string) : option string :=
  if bool_decide (current = Some id) then None else Some id.

Definition onLLMNodeClick (id : string) (s : Selection) : Selection :=
  mkSelection (toggle (selectedLLMNode s) id)
              (selectedPsychNode s) (selectedTheory s).

Definition onPsychNodeClick (id : string) (s : Selection) : Selection :=
  mkSelection (selectedLLMNode s)
              (toggle (selectedPsychNode s) id) None.

Definition onTheoryClick (th : string) (s : Selection) : Selection :=
  mkSelection (selectedLLMNode s) (selectedPsychNode s)
              (toggle (selectedTheory s) th).

Definition handleResetLineChart (s : Selection) : Selection :=
  mkSelection None (selectedPsychNode s) (selectedTheory s).

Inductive Event :=
| LLMNodeClick (id : string)
| PsychNodeClick (id : string)
| TheoryClick (th : string)
| ResetLineChart.

Definition handle (e : Event) (s : Selection) : Selection :=
  match e with
  | LLMNodeClick id => onLLMNodeClick id s
  | PsychNodeClick id => onPsychNodeClick id s
  | TheoryClick th => onTheoryClick th s
  | ResetLineChart => handleResetLineChart s
  end.

(** The selections the event loop can produce from the initial one. *)
Inductive reachable : Selection -> Prop :=
| reachable_initial : reachable initial
| reachable_step e s : reachable s -> reachable (handle e s).

End Dashboard.

(** ** The node list of the hook *)

Module HookNodes.
Import JS DataLoader Hook.

(** [BipartiteNode], declared by the graph component. *)
Record BipartiteNode := mkNode {
  node_id : string;
  node_label : string;
  node_type : ClusterKind;
  node_cluster : Z;
  node_size : Z
}.

Section Labels.
Variable getClusterLabel : string -> ClusterKind -> string.

Definition getBipartiteNodes (st : State) : list BipartiteNode :=
  let llmNodes :=
    (fun '(key, cluster) =>
       mkNode ("LLM-" +:+ key) (getClusterLabel key llm) llm
              (getClusterNumber key) (cluster_size cluster))
    <$> llmClusters st in
  let psychNodes :=
    (fun '(key, cluster) =>
       mkNode ("Psych-" +:+ key) (getClusterLabel key psych) psych
              (getClusterNumber key) (cluster_size cluster))
    <$> psychClusters st in
  llmNodes ++ psychNodes.
End Labels.

End HookNodes.

(** ** The graph component: label splitting and highlighting *)

Module BipartiteGraph.
Import JS Hook HookNodes.

(** [text.split(' ')]: the pieces between the spaces, at least one. *)
Fixpoint split_spaces (text : string) : list string :=
  match text with
  | EmptyString => [EmptyString]
  | String c rest =>
      if Ascii.eqb c " " then EmptyString :: split_spaces rest
      else match split_spaces rest with
           | word :: words => String c word :: words
           | [] => [String c EmptyString]
           end
  end.

(** [words.join(' ')] *)
Fixpoint join_spaces (words : list string) : string :=
  match words with
  | [] => EmptyString
  | [word] => word
  | word :: rest => word +:+ " " +:+ join_spaces rest
  end.

(** [Math.ceil(words.length / 2)] is exact on these small integers. *)
Definition splitTextIntoTwoLines (text : string) : string * string :=
  let words := split_spaces text in
  if bool_decide (length words <= 2)%nat then
    match words with
    | [w0; w1] => (w0, w1)
    | _ => (text, EmptyString)
    end
  else
    let midPoint := ((length words + 1) / 2)%nat in
    (join_spaces (take midPoint words), join_spaces (drop midPoint words)).

(** [hoveredNode || selectedLLMNode || selectedPsychNode] *)
Fixpoint first_truthy (candidates : list (option string)) : option string :=
  match candidates with
  | [] => None
  | Some s :: rest => if truthy s then Some s else first_truthy rest
  | None :: rest => first_truthy rest
  end.

Definition activeNode (hoveredNode selectedLLMNode selectedPsychNode : option string)
  : option string :=
  first_truthy [hoveredNode; selectedLLMNode; selectedPsychNode].

(** The set of highlighted node ids: the active node and its neighbours. *)
Definition connectedNodes
    (edges : list BipartiteEdge)
    (hoveredNode selectedLLMNode selectedPsychNode : option string)
  : gset string :=
  match activeNode hoveredNode selectedLLMNode selectedPsychNode with
  | None => ∅
  | Some active =>
      let connected :=
        foldl (fun connected edge =>
                 let connected :=
                   if bool_decide (source edge = active)
                   then connected ∪ {[target edge]} else connected in
                 if bool_decide (target edge = active)
                 then connected ∪ {[source edge]} else connected)
              ∅ edges in
      connected ∪ {[active]}
  end.

End BipartiteGraph.

(** ** The line chart: merging the series into rows *)

Module CitationLineChart.
Import JS Hook.

Record SeriesData := mkSeriesData {
  series_name : string;
  series_color : string;
  series_data : list CitationDataPoint
}.

(** A value of a chart row: the month string or a count. *)
Inductive JsValue := Str (s : string) | Num (n : Z).

(** A chart row is an object: [month] and one property per series name. *)
Abbreviation ChartRow := (gmap string JsValue).

(** [series.data.find(d => d.month === month)] *)
Definition findPoint (data : list CitationDataPoint) (m : string)
  : option CitationDataPoint :=
  snd <$> list_find (fun d => month d = m) data.

(** The body of [multiSeriesData.forEach] for one month: the state is the
    record of last known values and the row under construction.  Every
    series name has a last known value from the start. *)
Definition fillSeries (m : string)
    (state : gmap string Z * ChartRow) (series : SeriesData)
  : gmap string Z * ChartRow :=
  let '(lastKnownValues, dataPoint) := state in
  let lastKnownValues :=
    match findPoint (series_data series) m with
    | Some point => <[series_name series := point_citations point]> lastKnownValues
    | None => lastKnownValues
    end in
  (lastKnownValues,
   <[series_name series := Num (default 0 (lastKnownValues !! series_name series))]>
     dataPoint).

(** [sortedMonths.map(month => ...)] with the last known values carried from
    one month to the next. *)
Fixpoint mergeRows (multiSeriesData : list SeriesData)
    (lastKnownValues : gmap string Z) (months : list string) : list ChartRow :=
  match months with
  | [] => []
  | m :: rest =>
      let '(lastKnownValues, dataPoint) :=
        foldl (fillSeries m) (lastKnownValues, {["month" := Str m]})
              multiSeriesData in
      dataPoint :: mergeRows multiSeriesData lastKnownValues rest
  end.

Definition pointRow (d : CitationDataPoint) : ChartRow :=
  <["citations" := Num (point_citations d)]> {["month" := Str (month d)]}.

Definition chartData (data : option (list CitationDataPoint))
    (multiSeriesData : option (list SeriesData)) : list ChartRow :=
  let isMultiSeries :=
    match multiSeriesData with
    | Some l => bool_decide (0 < length l)%nat
    | None => false
    end in
  if isMultiSeries then
    let series := default [] multiSeriesData in
    let allMonths : gset string :=
      foldl (fun allMonths s =>
               foldl (fun allMonths d => allMonths ∪ {[month d]})
                     allMonths (series_data s))
            ∅ series in
    let lastKnownValues : gmap string Z :=
      foldl (fun last s => <[series_name s := 0]> last) ∅ series in
    mergeRows series lastKnownValues
              (Array_sort compareStrings (elements allMonths))
  else
    match data with
    | Some points => pointRow <$> points
    | None => []
    end.

End CitationLineChart.

(** ** The theory table component *)

Module TheoryTable.
Import JS DataLoader.

(** [getClusterNumber] of the component: an absent or empty id gives 0. *)
Definition getClusterNumber (id : option string) : Z :=
  match id with
  | Some s => if truthy s then DataLoader.getClusterNumber s else 0
  | None => 0
  end.

(** [[a-f\d]] under the [i] flag. *)
Definition is_hex (c : ascii) : bool :=
  is_digit c ||
  ((97 <=? code (fold_char c)) && (code (fold_char c) <=? 102))%N.

Definition hex_value (c : ascii) : Z :=
  if is_digit c then digit_value c else Z.of_N (code (fold_char c)) - 87.

(** [parseInt(xy, 16)] on two hexadecimal digits. *)
Definition parseInt_hex2 (x y : ascii) : Z := hex_value x * 16 + hex_value y.

Record Rgb := mkRgb { red : Z; green : Z; blue : Z }.

(** [/^#?([a-f\d]{2})([a-f\d]{2})([a-f\d]{2})$/i.exec(hex)]: six hexadecimal
    digits, after an optional [#]. *)
Definition hex6 (s : string) : option Rgb :=
  match s with
  | String r1 (String r2 (String g1 (String g2 (String b1 (String b2 EmptyString))))) =>
      if is_hex r1 && is_hex r2 && is_hex g1 && is_hex g2 && is_hex b1 && is_hex b2
      then Some (mkRgb (parseInt_hex2 r1 r2) (parseInt_hex2 g1 g2)
                       (parseInt_hex2 b1 b2))
      else None
  | _ => None
  end.

Definition hexToRgb (hex : string) : Rgb :=
  let result :=
    match hex with
    | String c rest =>
        if Ascii.eqb c "#" then
          match hex6 rest with
          | Some rgb => Some rgb
          | None => hex6 hex
          end
        else hex6 hex
    | EmptyString => hex6 hex
    end in
  match result with
  | Some rgb => rgb
  | None => mkRgb 0 0 0
  end.

End TheoryTable.

(** ** What the dashboard page derives from the selection *)

Module DashboardViews.
Import JS DataLoader Hook HookNodes CitationLineChart Dashboard.

(** [s.replace(pat, rep)] with a string pattern: the first occurrence. *)
Fixpoint String_replace (pat rep s : string) : string :=
  match strip_prefix false pat s with
  | Some rest => rep +:+ rest
  | None =>
      match s with
      | EmptyString => EmptyString
      | String c s' => String c (String_replace pat rep s')
      end
  end.

Definition psychColors : list string :=
  ["#BD463D"; "#D38341"; "#DDB405"; "#739B5F"; "#6388B5"; "#865FA9"].

(** [colors[n]] for a number [n]. *)
Definition array_get (colors : list string) (n : Z) : option string :=
  if bool_decide (0 <= n) then colors !! Z.to_nat n else None.

(** [selectedPsychNode?.replace('Psych-', '')] *)
Definition psychKey (s : Selection) : option string :=
  String_replace "Psych-" "" <$> selectedPsychNode s.

Definition theoryTableData (st : State) (s : Selection) : list TheoryRow :=
  match psychKey s with
  | Some key => if truthy key then getTheoryTableData st key else []
  | None => []
  end.

Definition getLineChartData (st : State) (s : Selection)
  : list CitationDataPoint :=
  match selectedLLMNode s with
  | Some id => if truthy id then [] else getCitationTimeSeries st None
  | None => getCitationTimeSeries st None
  end.

Section Labels.
Variable getClusterLabel : string -> ClusterKind -> string.

Definition seriesLine (series : Series) : SeriesData :=
  mkSeriesData (psychTopic series)
               (or_else (array_get psychColors (psychCluster series))
                        (default "" (psychColors !! 0%nat)))
               (data series).

Definition getMultiSeriesLineData (st : State) (s : Selection)
  : option (list SeriesData) :=
  match selectedLLMNode s with
  | Some id =>
      if truthy id then
        let llmKey := String_replace "LLM-" "" id in
        Some (seriesLine <$> getMultiSeriesCitationData getClusterLabel st llmKey)
      else None
  | None => None
  end.


(** The rows the line chart draws. *)
Definition lineChartRows (st : State) (s : Selection) : list ChartRow :=
  match selectedLLMNode s with
  | Some id =>
      if truthy id then chartData None (getMultiSeriesLineData st s)
      else chartData (Some (getLineChartData st s)) None
  | None => chartData (Some (getLineChartData st s)) None
  end.

(** The events the rendered page offers.  A graph node passes its own id to
    the handler of its side; the theory table is rendered while a
    Psychology node is selected and only the button of a top-three row calls
    the handler; the reset button calls [handleResetLineChart]. *)
Inductive ui_step (st : State) : Selection -> Selection -> Prop :=
| ui_llm_click s node :
    node ∈ getBipartiteNodes getClusterLabel st ->
    node_type node = llm ->
    ui_step st s (onLLMNodeClick (node_id node) s)
| ui_psych_click s node :
    node ∈ getBipartiteNodes getClusterLabel st ->
    node_type node = psych ->
    ui_step st s (onPsychNodeClick (node_id node) s)
| ui_theory_click s id row :
    selectedPsychNode s = Some id ->
    truthy id = true ->
    row ∈ theoryTableData st s ->
    isTopThree row = true ->
    ui_step st s (onTheoryClick (theory row) s)
| ui_reset s :
    ui_step st s (handleResetLineChart s).

Inductive ui_reachable (st : State) : Selection -> Prop :=
| ui_reachable_initial : ui_reachable st initial
| ui_reachable_step s s' :
    ui_reachable st s -> ui_step st s s' -> ui_reachable st s'.
End Labels.

End DashboardViews.

(** ** The hook before the arXiv fallback

    [client/src/hooks/useVisualizationData.ts] holds the earlier revision of
    the time series: a paper counts when its ID is in the set and its
    publication date is not empty, under the first seven code units of the
    date. *)

Module HookV1.
Import JS DataLoader Hook.

(** One step of the loop over the paper-info records. *)
Definition countPaper (paperIds : gset string)
    (monthCounts : gmap string Z) (paper : PaperInfo) : gmap string Z :=
  let has_id :=
    match info_paperId paper with
    | Some pid => bool_decide (pid ∈ paperIds)
    | None => false
    end in
  match publicationDate paper with
  | Some pub =>
      if has_id && truthy pub
      then bump monthCounts (substring0 7 pub) 1
      else monthCounts
  | None => monthCounts
  end.

Definition getCitationTimeSeries (st : State) (llmClusterId : option string)
  : list CitationDataPoint :=
  match papersInfo st with
  | None => []
  | Some papersInfoArray =>
      let paperIds := seriesPaperIds st llmClusterId in
      let monthCounts := foldl (countPaper paperIds) ∅ papersInfoArray in
      cumulativeSeries monthCounts
  end.

End HookV1.

(** ** The theory table with its two orders

    The later revision of the table component keeps a sort mode and draws a
    separator line where the subtopic changes. *)

Module TheoryTableSorted.
Import JS Hook.

Inductive SortMode := bySubtopic | byCitations.

(** [sortMode === 'citations' ? [...data].sort((a, b) => b.citations - a.citations) : data] *)
Definition sortedData (sortMode : SortMode) (data : list TheoryRow)
  : list TheoryRow :=
  match sortMode with
  | byCitations =>
      Array_sort (fun a b => row_citations b - row_citations a) data
  | bySubtopic => data
  end.

(** [showSeparator] of every row in turn; [prevSubtopic] is the variable the
    callback of [flatMap] reads and then sets. *)
Fixpoint showSeparators (sortMode : SortMode) (prevSubtopic : option string)
    (rows : list TheoryRow) : list bool :=
  match rows with
  | [] => []
  | row :: rest =>
      let showSeparator :=
        match sortMode, prevSubtopic with
        | bySubtopic, Some prev => negb (String.eqb prev (subtopic row))
        | _, _ => false
        end in
      showSeparator :: showSeparators sortMode (Some (subtopic row)) rest
  end.

(** The separator flags of the rendered table. *)
Definition separators (sortMode : SortMode) (data : list TheoryRow) : list bool :=
  showSeparators sortMode None (sortedData sortMode data).

End TheoryTableSorted.

(** ** A small data set

    Two LLM topics, two Psychology topics, one theory pool with four
    theories, and papers that exercise the month fallback. *)

Module Sample.
Import JS DataLoader Hook.

Definition doc (pid : string) : Doc := mkDoc "" pid.

Definition llmTopics : list (string * Cluster) :=
  [("Cluster 0", mkCluster 2 "vision" [doc "l1"; doc "l2"]);
   ("Cluster 1", mkCluster 1 "reasoning" [doc "l3"])].

Definition psychTopics : list (string * Cluster) :=
  [("Cluster 0", mkCluster 2 "learning" [doc "q1"; doc "q2"]);
   ("Cluster 1", mkCluster 1 "memory" [doc "q3"])].

Definition pool0 : ClusterTheories :=
  [("Schema Theory", mkTheoryData 10 ["Title One"; "An Orphan Title"]);
   ("B", mkTheoryData 10 []);
   ("C", mkTheoryData 5 []);
   ("D", mkTheoryData 1 [])].

Definition theoryPools : list (string * ClusterTheories) :=
  [("Cluster 0", pool0)].

Definition subtopics0 : list (string * SecondaryCluster) :=
  [("Cluster 0",
    mkSecondaryCluster 1 "schemas" ["D"; "Mental Schema Theories"; "Unknown"]);
   ("Cluster 1", mkSecondaryCluster 1 "others" ["C"; "B"])].

Definition subtopics : list (string * list (string * SecondaryCluster)) :=
  [("Cluster 0", subtopics0)].

Definition infos : list PaperInfo :=
  [mkPaperInfo (Some "l1") (Some "2023-10-05") None;
   mkPaperInfo (Some "l2") None (Some "https://arxiv.org/abs/2310.01234v2");
   mkPaperInfo (Some "l3") (Some "2023")
               (Some "http://ARXIV.org/abs/2209.0123");
   mkPaperInfo (Some "l4") None None].

Definition papers : list Paper :=
  [mkPaper "l1" (Some [mkRef "q1"; mkRef "q3"; mkRef "elsewhere"]);
   mkPaper "l2" (Some [mkRef "q1"]);
   mkPaper "l3" None;
   mkPaper "l3" (Some [mkRef "q2"])].

Definition refs : list RefInfo :=
  [mkRefInfo (Some "  TITLE one ") (Some "q1")].

Definition state : State :=
  loadData llmTopics psychTopics theoryPools subtopics
           (Some infos) (Some papers) (Some refs).

(** The same relations with an empty references-metadata relation. *)
Definition state_no_refs : State :=
  loadData llmTopics psychTopics theoryPools subtopics
           (Some infos) (Some papers) (Some []).

Definition label (key : string) (kind : ClusterKind) : string :=
  match kind with
  | llm => "LLM " +:+ key
  | psych => "Psych " +:+ key
  end.

End Sample.

(** * The vocabulary of the specification

    What the specification speaks of -- citation pairs, weights, resolved
    months, resolved theory names, ranks -- defined on the data alone, for
    the views to be compared with. *)

Import JS DataLoader Hook Dashboard.

(** ** Month inference *)

(** The bucket name of a year and a month number. *)
Definition monthBucket (year mm : Z) : string :=
  Number_toString year +:+ "-" +:+ padStart2 (Number_toString mm).

(** The number two decimal digits denote. *)
Definition digits2 (a b : ascii) : Z := 10 * digit_value a + digit_value b.

Definition yymm (y1 y2 m1 m2 : ascii) : string :=
  String y1 (String y2 (String m1 (String m2 EmptyString))).

(** The month to which a paper-info record adds one, if any: the record has
    a non-empty ID in the set and a month. *)
Definition paperMonth (paperIds : gset string) (paper : PaperInfo)
  : option string :=
  match info_paperId paper with
  | Some pid =>
      if truthy pid && bool_decide (pid ∈ paperIds) then
        match inferMonth (Some paper) with
        | Some m => if truthy m then Some m else None
        | None => None
        end
      else None
  | None => None
  end.

(** The months of the papers that count, one entry per paper. *)
Definition resolvedMonths (paperIds : gset string) (papersInfoArray : list PaperInfo)
  : list string :=
  omap (paperMonth paperIds) papersInfoArray.

(** The number of papers of a month. *)
Definition monthCount (m : string) (months : list string) : Z :=
  Z.of_nat (length (filter (fun m' => m' = m) months)).

(** Code-unit order on strings, as the default [sort] compares them. *)
Definition String_lt (a b : string) : Prop := String.compare a b = Lt.

(** Sum of a list of numbers. *)
Definition sumZ (l : list Z) : Z := foldr Z.add 0 l.

(** ** Citation pairs and weights *)

(** The citation relation: one pair of IDs for every entry of a paper's
    reference list. *)
Definition citationPairs (papers : list Paper) : list (string * string) :=
  flat_map (fun paper =>
              (fun ref => (paperId paper, ref_paperId ref)) <$>
              default [] (references paper))
           papers.

(** The number of citation pairs that lead from [sources] into [targets]. *)
Definition crossing (sources targets : gset string)
    (pairs : list (string * string)) : Z :=
  Z.of_nat (length (filter (fun pq => pq.1 ∈ sources /\ pq.2 ∈ targets) pairs)).

(** The IDs of the papers of a topic. *)
Definition topicPaperIds (c : Cluster) : list string := doc_paperId <$> docs c.

(** The number of entries of the reference lists that lead from a paper of
    the first topic to a paper of the second: an ID that a reference list
    repeats counts each time. *)
Definition edgeWeight (llmTopic psychTopic : Cluster)
    (pairs : list (string * string)) : Z :=
  Z.of_nat (length (filter (fun pq => pq.1 ∈ topicPaperIds llmTopic /\
                                      pq.2 ∈ topicPaperIds psychTopic) pairs)).

(** The edge of a pair of topics, when its weight is not zero. *)
Definition topicEdge (pairs : list (string * string))
    (llmEntry psychEntry : string * Cluster) : list BipartiteEdge :=
  let w := edgeWeight llmEntry.2 psychEntry.2 pairs in
  if bool_decide (w = 0) then []
  else [mkEdge ("LLM-" +:+ llmEntry.1) ("Psych-" +:+ psychEntry.1) w].

(** The citation edges as the specification has them: a relation, the set
    of the pairs of a citing paper and an ID of its reference list. *)
Definition CitationEdges (papers : list Paper) : gset (string * string) :=
  list_to_set (citationPairs papers).

(** The weight as the specification words it: the number of citation edges
    from a paper of the first topic to a paper of the second. *)
Definition specWeight (llmTopic psychTopic : Cluster) (papers : list Paper) : Z :=
  Z.of_nat (size (filter (fun pq => pq.1 ∈ topicPaperIds llmTopic /\
                                    pq.2 ∈ topicPaperIds psychTopic)
                         (CitationEdges papers))).

(** The key under which a title is matched: lower-cased and trimmed. *)
Definition titleKey (title : string) : string := trim (toLowerCase title).




(** ** Theory names and the top three *)

(** The last declared theory of the pool whose normalised name is [n]. *)
Definition lastNormalized (clusterTheories : ClusterTheories) (n : string)
  : option string :=
  last (filter (fun k => normalizeTheoryName k = n) clusterTheories.*1).

(** The resolution of a subtopic's theory name that the join performs: the
    exact name when the pool has it, otherwise the last declared pool theory
    with the same normalised name unless its name is empty, otherwise
    nothing. *)
Definition resolveTheory (clusterTheories : ClusterTheories) (theoryName : string)
  : option (string * TheoryData) :=
  match get clusterTheories theoryName with
  | Some d => Some (theoryName, d)
  | None =>
      match lastNormalized clusterTheories (normalizeTheoryName theoryName) with
      | Some k =>
          if truthy k then (fun d => (k, d)) <$> get clusterTheories k else None
      | None => None
      end
  end.

(** The resolution as the specification words it: [k] answers a subtopic's
    theory name when it is that name and the pool has it, or when the pool
    lacks the name and [k] is a pool name with the same normalised form. *)
Definition specResolves (clusterTheories : ClusterTheories)
    (theoryName k : string) : Prop :=
  k ∈ clusterTheories.*1 /\
  (k = theoryName \/
   ((theoryName ∉ clusterTheories.*1) /\
    normalizeTheoryName k = normalizeTheoryName theoryName)).

(** Every theory name of the subtopics is a key of the pool or not the name
    of an inherited property: the lookups of the join stay within the
    pool's own entries. *)
Definition plainNames (clusterTheories : ClusterTheories)
    (secondaryClusterData : list (string * SecondaryCluster)) : Prop :=
  forall entry theoryName,
    entry ∈ secondaryClusterData -> theoryName ∈ theories entry.2 ->
    inherited theoryName = true -> theoryName ∈ clusterTheories.*1.

(** The names of the three theories [getTopTheories] returns. *)
Definition topTheoryNames (clusterTheories : ClusterTheories) : gset string :=
  list_to_set (name <$> getTopTheories clusterTheories 3).

(** The row of a subtopic for a resolved theory. *)
Definition rowOf (clusterTheories : ClusterTheories) (subCluster : SecondaryCluster)
    (resolved : string * TheoryData) : TheoryRow :=
  mkRow (sub_topic subCluster) resolved.1 (citation resolved.2)
        (bool_decide (resolved.1 ∈ topTheoryNames clusterTheories)).

(** The rows of a subtopic: one for each of its theory names that
    resolves. *)
Definition subtopicRows (clusterTheories : ClusterTheories)
    (entry : string * SecondaryCluster) : list TheoryRow :=
  omap (fun theoryName =>
          rowOf clusterTheories entry.2 <$> resolveTheory clusterTheories theoryName)
       (theories entry.2).

(** An entry of the pool with its position in the declaration order. *)
Abbreviation Ranked := (nat * (string * TheoryData))%type.








(** ** The months of citations *)

(** The record of a paper in the paper-info relation, as the comparison
    series read it: the last record with the paper's ID, which is not the
    empty string. *)
Definition recordOf (papersInfoArray : list PaperInfo) (pid : string)
  : option PaperInfo :=
  if truthy pid
  then last (filter (fun p => info_paperId p = Some pid) papersInfoArray)
  else None.

(** The months of the citations that one paper makes into a set of papers:
    the paper's month, once for each entry of its reference list that is in
    the set; nothing when the paper is not of the topic or has no month. *)
Definition paperCitationMonths (llmPaperIds psychPaperIds : gset string)
    (papersInfoArray : list PaperInfo) (paper : Paper) : list string :=
  if bool_decide (paperId paper ∈ llmPaperIds) then
    match inferMonth (recordOf papersInfoArray (paperId paper)) with
    | Some m =>
        (fun _ => m) <$> filter (fun ref => ref_paperId ref ∈ psychPaperIds)
                                (default [] (references paper))
    | None => []
    end
  else [].

(** The months of the citations from the papers of an LLM topic into the
    papers of a Psychology topic, one entry per citation. *)
Definition citationMonths (llmPaperIds psychPaperIds : gset string)
    (papersInfoArray : list PaperInfo) (papers : list Paper) : list string :=
  flat_map (paperCitationMonths llmPaperIds psychPaperIds papersInfoArray) papers.

(** A cumulative series over a list of months (one entry for each counted
    paper or citation): the points stand in strictly increasing order of
    their months, there is a point for exactly the months of the list, each
    point carries the number of entries of the months up to its own, and the
    counts never decrease. *)
Definition cumulativeOver (months : list string)
    (points : list CitationDataPoint) : Prop :=
  StronglySorted (fun a b => String_lt (month a) (month b)) points /\
  (forall m, m ∈ month <$> points <-> m ∈ months) /\
  (forall i pt, points !! i = Some pt ->
     point_citations pt =
       sumZ ((fun q => monthCount (month q) months) <$> take (S i) points)) /\
  StronglySorted (fun a b => point_citations a <= point_citations b) points.

(** ** Further vocabulary *)

(** The two ends of an edge. *)
Definition ends (e : BipartiteEdge) : string * string := (source e, target e).

(** The place of a row's subtopic in the order the table sorts by. *)
Definition rowRank (subtopicOrder : gmap string Z) (r : TheoryRow) : Z :=
  default 0 (subtopicOrder !! subtopic r).

(** Row [a] may stand before row [b]: an earlier subtopic, or the same place
    and at least as many citations. *)
Definition rowBefore (subtopicOrder : gmap string Z) (a b : TheoryRow) : Prop :=
  rowRank subtopicOrder a < rowRank subtopicOrder b \/
  (rowRank subtopicOrder a = rowRank subtopicOrder b /\
   row_citations b <= row_citations a).

(** The sum of the counts of a month-count record. *)
Definition mapTotal (monthCounts : gmap string Z) : Z :=
  sumZ (map_to_list monthCounts).*2.




(** The ten digits. *)
Definition digit_chars : list ascii :=
  ["0"; "1"; "2"; "3"; "4"; "5"; "6"; "7"; "8"; "9"]%char.

(** A paper-info record with a full publication date: at least the seven
    code units of a month, and no empty ID. *)
Definition fullyDated (paper : PaperInfo) : Prop :=
  info_paperId paper <> Some "" /\
  exists pub, publicationDate paper = Some pub /\ (7 <= String.length pub)%nat.

(** * Properties *)

(** ** Objects as entry lists *)

Section ObjectFacts.
Context {V : Type}.
Implicit Types (o : list (string * V)) (k : string).

Lemma get_Some_elem_of o k v : get o k = Some v -> (k, v) ∈ o.
Proof.
  induction o as [|[k' v'] o IH]; simpl; [done|].
  destruct (String.eqb k' k) eqn:E.
  - apply String.eqb_eq in E as ->. intros [= ->]. left.
  - intros H. right. auto.
Qed.

Lemma get_None_iff o k : get o k = None <-> k ∉ o.*1.
Proof.
  induction o as [|[k' v'] o IH]; simpl.
  - split; [intros _; apply not_elem_of_nil|done].
  - destruct (String.eqb k' k) eqn:E.
    + apply String.eqb_eq in E as ->. split; [done|].
      intros H. exfalso. apply H. left.
    + apply String.eqb_neq in E. rewrite IH, not_elem_of_cons.
      split; [intros ?; split; [congruence|done]|by intros [_ ?]].
Qed.

Lemma get_is_Some_iff o k : is_Some (get o k) <-> k ∈ o.*1.
Proof.
  destruct (get o k) eqn:E.
  - split; [intros _|eauto].
    apply get_Some_elem_of in E. apply list_elem_of_fmap. by exists (k, v).
  - split; [by intros [? ?]|]. intros H. by apply get_None_iff in E.
Qed.

(** With distinct keys, an entry is what property access returns. *)
Lemma get_elem_of_NoDup o k v : NoDup o.*1 -> (k, v) ∈ o -> get o k = Some v.
Proof.
  induction o as [|[k' v'] o IH]; simpl; intros Hnd Hin.
  - by apply elem_of_nil in Hin.
  - apply NoDup_cons in Hnd as [Hk' Hnd].
    apply elem_of_cons in Hin as [[= <- <-]|Hin].
    + by rewrite String.eqb_refl.
    + destruct (String.eqb k' k) eqn:E; [|auto].
      apply String.eqb_eq in E as ->. destruct Hk'.
      apply list_elem_of_fmap. by exists (k, v).
Qed.

Lemma has_key_true_iff o k : has_key o k = true <-> k ∈ o.*1.
Proof.
  rewrite <- get_is_Some_iff. unfold has_key.
  destruct (get o k); split; intros H; first [done|eauto|by destruct H].
Qed.
End ObjectFacts.

Lemma truthy_true_iff s : truthy s = true <-> s <> "".
Proof.
  unfold truthy. rewrite negb_true_iff. split.
  - intros H ->. by rewrite String.eqb_refl in H.
  - intros H. by apply String.eqb_neq.
Qed.

(** ** [Array.prototype.sort] *)

Section SortFacts.
Context {A : Type} (cmp : A -> A -> Z).

(** [x] may stand before [y]. *)
Definition cmp_le (x y : A) : Prop := cmp x y <= 0.

Lemma sort_insert_Permutation x l : sort_insert cmp x l ≡ₚ x :: l.
Proof.
  induction l as [|y l IH]; simpl; [done|].
  case_bool_decide; [done|]. rewrite IH. apply Permutation_swap.
Qed.

Lemma Array_sort_Permutation l : Array_sort cmp l ≡ₚ l.
Proof.
  induction l as [|x l IH]; simpl; [done|].
  by rewrite sort_insert_Permutation, IH.
Qed.

Lemma Array_sort_length l : length (Array_sort cmp l) = length l.
Proof. by rewrite Array_sort_Permutation. Qed.

Lemma Array_sort_elem_of x l : x ∈ Array_sort cmp l <-> x ∈ l.
Proof. by rewrite Array_sort_Permutation. Qed.

Lemma Array_sort_nil_inv l : Array_sort cmp l = [] -> l = [].
Proof.
  intros H. apply length_zero_iff_nil.
  by rewrite <- Array_sort_length, H.
Qed.

Section Consistent.
Hypothesis cmp_total : forall x y, cmp x y <= 0 \/ cmp y x <= 0.
Hypothesis cmp_trans : forall x y z, cmp x y <= 0 -> cmp y z <= 0 -> cmp x z <= 0.

Lemma sort_insert_sorted x l :
  StronglySorted cmp_le l -> StronglySorted cmp_le (sort_insert cmp x l).
Proof.
  induction 1 as [|y l Hl IH Hy]; simpl.
  - repeat constructor.
  - case_bool_decide as Hxy.
    + constructor; [by constructor|].
      constructor; [done|].
      eapply Forall_impl; [exact Hy|]. intros z Hz. by eapply cmp_trans.
    + constructor; [done|].
      rewrite sort_insert_Permutation. constructor; [|done].
      unfold cmp_le. destruct (cmp_total x y); [done|lia].
Qed.

Lemma Array_sort_sorted l : StronglySorted cmp_le (Array_sort cmp l).
Proof.
  induction l as [|x l IH]; simpl; [constructor|].
  by apply sort_insert_sorted.
Qed.
End Consistent.
End SortFacts.



(** ** The selection state machine *)

(** C8.  In every reachable selection state: a click on a node selects it
    when it is not the selected node of its axis (also when another node of
    the axis is selected) and clears the axis when it is, so two clicks on
    an LLM node that was not selected end with no LLM node selected; a click
    on any Psychology node clears the theory selection; and the LLM handlers
    leave the Psychology and theory cells untouched while the Psychology and
    theory handlers leave the LLM cell untouched. *)
Theorem selection_toggle_orthogonal (s : Selection) (id : string) :
  reachable s ->
  (selectedLLMNode s <> Some id ->
     selectedLLMNode (onLLMNodeClick id s) = Some id) /\
  (selectedPsychNode s <> Some id ->
     selectedPsychNode (onPsychNodeClick id s) = Some id) /\
  (selectedTheory s <> Some id ->
     selectedTheory (onTheoryClick id s) = Some id) /\
  (selectedLLMNode s = Some id ->
     selectedLLMNode (onLLMNodeClick id s) = None) /\
  (selectedPsychNode s = Some id ->
     selectedPsychNode (onPsychNodeClick id s) = None) /\
  (selectedTheory s = Some id ->
     selectedTheory (onTheoryClick id s) = None) /\
  (selectedLLMNode s <> Some id ->
     selectedLLMNode (onLLMNodeClick id (onLLMNodeClick id s)) = None) /\
  selectedTheory (onPsychNodeClick id s) = None /\
  (selectedPsychNode (onLLMNodeClick id s) = selectedPsychNode s /\
   selectedTheory (onLLMNodeClick id s) = selectedTheory s) /\
  (selectedLLMNode (handleResetLineChart s) = None /\
   selectedPsychNode (handleResetLineChart s) = selectedPsychNode s /\
   selectedTheory (handleResetLineChart s) = selectedTheory s) /\
  selectedLLMNode (onPsychNodeClick id s) = selectedLLMNode s /\
  (selectedLLMNode (onTheoryClick id s) = selectedLLMNode s /\
   selectedPsychNode (onTheoryClick id s) = selectedPsychNode s).
Proof.
  intros _. destruct s as [l p t]; simpl. unfold toggle.
  split; [intros Hne; by rewrite (bool_decide_eq_false_2 _ Hne)|].
  split; [intros Hne; by rewrite (bool_decide_eq_false_2 _ Hne)|].
  split; [intros Hne; by rewrite (bool_decide_eq_false_2 _ Hne)|].
  split; [intros ->; by rewrite bool_decide_eq_true_2|].
  split; [intros ->; by rewrite bool_decide_eq_true_2|].
  split; [intros ->; by rewrite bool_decide_eq_true_2|].
  split; [|done].
  intros Hne. rewrite (bool_decide_eq_false_2 _ Hne).
  by rewrite bool_decide_eq_true_2.
Qed.

Lemma selection_toggle_orthogonal_witness :
  let s := onTheoryClick "Schema Theory"
             (onPsychNodeClick "Psych-Cluster 0"
                (onLLMNodeClick "LLM-Cluster 1" initial)) in
  selectedLLMNode (onLLMNodeClick "LLM-Cluster 0" s) = Some "LLM-Cluster 0" /\
  selectedLLMNode (onLLMNodeClick "LLM-Cluster 1" s) = None /\
  selectedPsychNode (onPsychNodeClick "Psych-Cluster 1" s)
    = Some "Psych-Cluster 1" /\
  selectedTheory (onPsychNodeClick "Psych-Cluster 1" s) = None.
Proof.
  intros s.
  assert (Hs : reachable s).
  { apply (reachable_step (TheoryClick "Schema Theory")).
    apply (reachable_step (PsychNodeClick "Psych-Cluster 0")).
    apply (reachable_step (LLMNodeClick "LLM-Cluster 1")).
    apply reachable_initial. }
  destruct (selection_toggle_orthogonal s "LLM-Cluster 0" Hs)
    as (Hselect & _).
  destruct (selection_toggle_orthogonal s "LLM-Cluster 1" Hs)
    as (_ & _ & _ & Hclear & _).
  destruct (selection_toggle_orthogonal s "Psych-Cluster 1" Hs)
    as (_ & Hpsych & _ & _ & _ & _ & _ & Htheory & _).
  split; [apply Hselect; discriminate|].
  split; [apply Hclear; reflexivity|].
  split; [apply Hpsych; discriminate|exact Htheory].
Defined.

(** ** Theory distribution: the empty title index *)

Lemma buildTitleMap_no_refs : buildTitleMap None = ∅ /\ buildTitleMap (Some []) = ∅.
Proof. done. Qed.

(** C10.  With an empty title-to-paperId map the distribution of every
    theory name is the empty list, whether or not the theory exists. *)
Theorem getTheoryDistribution_empty_title_map
    (getClusterLabel : string -> ClusterKind -> string)
    (st : State) (theoryName : string) :
  titleToPaperId st = ∅ ->
  getTheoryDistribution getClusterLabel st theoryName = [].
Proof.
  intros Hempty. unfold getTheoryDistribution.
  destruct (filteredPapers st); [|done].
  by rewrite Hempty, map_size_empty, bool_decide_eq_true_2.
Qed.

Lemma getTheoryDistribution_empty_title_map_witness :
  findTheory (theoryPool Sample.state_no_refs).*2 "Schema Theory"
    = Some (mkTheoryData 10 ["Title One"; "An Orphan Title"]) /\
  length (llmClusters Sample.state_no_refs) = 2%nat /\
  getTheoryDistribution Sample.label Sample.state_no_refs "Schema Theory" = [].
Proof.
  split; [reflexivity|]. split; [reflexivity|].
  apply (getTheoryDistribution_empty_title_map Sample.label
           Sample.state_no_refs "Schema Theory").
  reflexivity.
Defined.

(** ** Keys that name nothing *)

Lemma findTheory_None pools theoryName :
  (forall theories, theories ∈ pools -> theoryName ∉ theories.*1) ->
  findTheory pools theoryName = None.
Proof.
  induction pools as [|theories pools IH]; intros Habsent; simpl; [done|].
  assert (has_key theories theoryName = false) as ->.
  { apply not_true_is_false. rewrite has_key_true_iff.
    apply Habsent. left. }
  apply IH. intros theories' Hin. apply Habsent. by right.
Qed.

Lemma findTheory_Some pools theoryName d :
  findTheory pools theoryName = Some d ->
  exists theories, theories ∈ pools /\ get theories theoryName = Some d.
Proof.
  induction pools as [|theories pools IH]; simpl; [done|].
  destruct (has_key theories theoryName).
  - intros Hget. exists theories. split; [left|done].
  - intros (theories' & Hin & Hget)%IH. exists theories'. split; [by right|done].
Qed.

(** A key that is absent from the LLM topics selects the same paper-ID set as
    no key at all. *)
Lemma seriesPaperIds_absent st key :
  key ∉ (llmClusters st).*1 ->
  seriesPaperIds st (Some key) = seriesPaperIds st None.
Proof.
  intros Habsent%get_None_iff. unfold seriesPaperIds.
  rewrite Habsent. by destruct (truthy key).
Qed.

(** C7, as the code has it.  For a key or name that is not the name of an
    inherited property: when it names no LLM topic the multi-series view is
    empty and the time series is the overall one; when no theory pool holds
    it the distribution is empty.  The theory table is empty when the key
    [Cluster N] derived from the given key is missing from the subtopics or
    from the theory pool. *)
Theorem absent_key_views
    (getClusterLabel : string -> ClusterKind -> string)
    (st : State) (key : string) :
  inherited key = false ->
  (key ∉ (llmClusters st).*1 ->
     getMultiSeriesCitationData getClusterLabel st key = [] /\
     getCitationTimeSeries st (Some key) = getCitationTimeSeries st None) /\
  ((forall theories, theories ∈ (theoryPool st).*2 -> key ∉ theories.*1) ->
     getTheoryDistribution getClusterLabel st key = []) /\
  (forall psychClusterId,
     let clusterKey :=
       "Cluster " +:+ Number_toString (getClusterNumber psychClusterId) in
     inherited clusterKey = false /\
     (clusterKey ∉ (secondaryClusters st).*1 \/
      clusterKey ∉ (theoryPool st).*1 ->
      getTheoryTableData st psychClusterId = [])).
Proof.
  intros _. split; [|split].
  - intros Habsent. split.
    + unfold getMultiSeriesCitationData.
      apply get_None_iff in Habsent. rewrite Habsent.
      by destruct (filteredPapers st), (papersInfo st).
    + unfold getCitationTimeSeries.
      by rewrite seriesPaperIds_absent.
  - intros Habsent. unfold getTheoryDistribution.
    rewrite (findTheory_None _ _ Habsent).
    destruct (filteredPapers st); [|done]. by case_bool_decide.
  - intros psychClusterId clusterKey. split.
    + unfold inherited. apply bool_decide_eq_false_2. unfold Object_prototype_names.
      intros Hin. repeat (apply elem_of_cons in Hin as [Hin|Hin]; [discriminate Hin|]).
      by apply elem_of_nil in Hin.
    + intros Habsent. unfold getTheoryTableData.
      fold clusterKey. destruct Habsent as [H|H]; apply get_None_iff in H.
      * by rewrite H.
      * rewrite H. by destruct (get (secondaryClusters st) clusterKey).
Qed.

Lemma absent_key_views_witness :
  getMultiSeriesCitationData Sample.label Sample.state "Cluster 9" = [] /\
  getCitationTimeSeries Sample.state (Some "Cluster 9")
    = getCitationTimeSeries Sample.state None /\
  getTheoryDistribution Sample.label Sample.state "Prospect Theory" = [] /\
  getTheoryTableData Sample.state "Cluster 9" = [].
Proof.
  destruct (absent_key_views Sample.label Sample.state "Cluster 9" eq_refl)
    as (Hllm & _ & Htable).
  destruct (absent_key_views Sample.label Sample.state "Prospect Theory" eq_refl)
    as (_ & Hdist & _).
  assert (Hkey : "Cluster 9" ∉ (llmClusters Sample.state).*1).
  { apply get_None_iff. reflexivity. }
  destruct (Hllm Hkey) as [Hmulti Hseries].
  split; [exact Hmulti|]. split; [exact Hseries|]. split.
  - apply Hdist. intros theories Hin.
    apply list_elem_of_singleton in Hin as ->.
    apply get_None_iff. reflexivity.
  - destruct (Htable "Cluster 9") as [_ Hempty].
    apply Hempty. left. apply get_None_iff. reflexivity.
Defined.

(** The claim as the specification words it fails: a key that names no topic
    in any relation still yields the overall time series, and the theory
    table of [Cluster 0]. *)
Lemma absent_key_views_not_empty :
  get (llmClusters Sample.state) "Nope" = None /\
  get (psychClusters Sample.state) "Nope" = None /\
  get (secondaryClusters Sample.state) "Nope" = None /\
  get (theoryPool Sample.state) "Nope" = None /\
  getCitationTimeSeries Sample.state (Some "Nope")
    = [mkPoint "2022-09" 1; mkPoint "2023-10" 3] /\
  getTheoryTableData Sample.state "Nope"
    = [mkRow "schemas" "Schema Theory" 10 true;
       mkRow "schemas" "D" 1 false;
       mkRow "others" "B" 10 true;
       mkRow "others" "C" 5 true].
Proof. repeat split; vm_compute; reflexivity. Qed.

(** ** Month inference *)

Lemma truthy_app_dash a b : truthy (a +:+ "-" +:+ b) = true.
Proof.
  apply truthy_true_iff. destruct a; [done|]. simpl. discriminate.
Qed.

Lemma arxiv_match_nonempty url r : arxiv_match url = Some r -> truthy url = true.
Proof. destruct url; [discriminate|done]. Qed.

Lemma inferMonthFromArxivUrl_match url y1 y2 m1 m2 :
  arxiv_match url = Some (yymm y1 y2 m1 m2) ->
  inferMonthFromArxivUrl (Some url) =
    if bool_decide (1 <= digits2 m1 m2 <= 12)
    then Some (monthBucket (2000 + digits2 y1 y2) (digits2 m1 m2))
    else None.
Proof.
  intros Hm. unfold inferMonthFromArxivUrl.
  rewrite (arxiv_match_nonempty _ _ Hm), Hm. simpl negb. cbv iota.
  assert (parseInt_digits (String.substring 0 2 (yymm y1 y2 m1 m2))
          = digits2 y1 y2) as ->.
  { unfold digits2, parseInt_digits. simpl. lia. }
  assert (parseInt_digits (String.substring 2 2 (yymm y1 y2 m1 m2))
          = digits2 m1 m2) as ->.
  { unfold digits2, parseInt_digits. simpl. lia. }
  case_bool_decide as Hmm.
  - assert ((digits2 m1 m2 <? 1) || (12 <? digits2 m1 m2) = false) as ->; [|done].
    apply orb_false_iff. split; apply Z.ltb_ge; lia.
  - assert ((digits2 m1 m2 <? 1) || (12 <? digits2 m1 m2) = true) as ->; [|done].
    apply orb_true_iff.
    destruct (Z.ltb_spec (digits2 m1 m2) 1); [by left|right].
    apply Z.ltb_lt. lia.
Qed.

Lemma arxiv_match_skip c s :
  Ascii.eqb "a" (fold_char c) = false ->
  arxiv_match (String c s) = arxiv_match s.
Proof.
  intros Hc. cbn [arxiv_match]. unfold arxiv_match_here.
  cbn [strip_prefix]. change (fold_char "a") with "a"%char.
  by rewrite Hc.
Qed.

Lemma arxiv_match_hit s r :
  arxiv_match_here s = Some r -> arxiv_match s = Some r.
Proof. intros H. destruct s; cbn [arxiv_match]; by rewrite H. Qed.

(** The pattern matches an [abs] URL of arXiv at its identifier. *)
Lemma arxiv_match_abs_url y1 y2 m1 m2 n1 n2 n3 n4 rest :
  is_digit y1 = true -> is_digit y2 = true ->
  is_digit m1 = true -> is_digit m2 = true ->
  is_digit n1 = true -> is_digit n2 = true ->
  is_digit n3 = true -> is_digit n4 = true ->
  arxiv_match
    ("https://arxiv.org/abs/" +:+
       String y1 (String y2 (String m1 (String m2 (String "."
         (String n1 (String n2 (String n3 (String n4 rest)))))))))
    = Some (yymm y1 y2 m1 m2).
Proof.
  intros Hy1 Hy2 Hm1 Hm2 Hn1 Hn2 Hn3 Hn4.
  cbv [String.app String.append].
  do 8 (rewrite arxiv_match_skip by reflexivity).
  apply arxiv_match_hit. unfold arxiv_match_here.
  cbn [strip_prefix]. cbv -[is_digit].
  by rewrite Hy1, Hy2, Hm1, Hm2, Hn1, Hn2, Hn3, Hn4.
Qed.

Lemma inferMonth_fallback paper :
  (publicationDate paper = None \/
   exists pub, publicationDate paper = Some pub /\ (String.length pub < 7)%nat) ->
  inferMonth (Some paper) =
    match inferMonthFromArxivUrl (arxivUrl paper) with
    | Some m => if truthy m then Some m else None
    | None => None
    end.
Proof.
  unfold inferMonth. simpl. intros [->|(pub & -> & Hlen)]; [done|].
  rewrite bool_decide_eq_false_2; [done|lia].
Qed.

(** An inferred month is never the empty string, so the [!month] test of
    the callers only catches [null]. *)
Lemma inferMonth_nonempty paper m : inferMonth paper = Some m -> m <> "".
Proof.
  unfold inferMonth.
  assert (Hfallback :
    match inferMonthFromArxivUrl (paper ≫= arxivUrl) with
    | Some m' => if truthy m' then Some m' else None
    | None => None
    end = Some m -> m <> "").
  { destruct (inferMonthFromArxivUrl _) as [m'|]; [|done].
    destruct (truthy m') eqn:E; [|done]. intros [= <-]. by apply truthy_true_iff. }
  destruct (paper ≫= publicationDate) as [pub|]; [|done].
  case_bool_decide as Hlen; [|done].
  intros [= <-]. destruct pub; [simpl in Hlen; lia|done].
Qed.

(** A paper without a month adds no bucket, wherever it stands in the
    relation. *)
Lemma countPaper_excluded paperIds paper l1 l2 :
  inferMonth (Some paper) = None ->
  foldl (countPaper paperIds) ∅ (l1 ++ paper :: l2)
    = foldl (countPaper paperIds) ∅ (l1 ++ l2).
Proof.
  intros Hnone. rewrite !foldl_app. simpl. f_equal.
  unfold countPaper. rewrite Hnone.
  destruct (info_paperId paper) as [pid|]; [|done].
  destruct (truthy pid); [|done]. simpl. by case_bool_decide.
Qed.

(** C2, as the code has it.  A publication date of at least seven code units
    gives its first seven as the bucket.  Without one (none, or a shorter
    string) the bucket comes from the first arXiv identifier of the URL:
    year [2000 + YY] and month [MM] when [1 <= MM <= 12], nothing otherwise;
    a paper with no bucket leaves the month counts as they are. *)
Theorem inferMonth_policy (paper : PaperInfo) :
  (forall pub, publicationDate paper = Some pub ->
     (7 <= String.length pub)%nat ->
     inferMonth (Some paper) = Some (substring0 7 pub)) /\
  ((publicationDate paper = None \/
    exists pub, publicationDate paper = Some pub /\ (String.length pub < 7)%nat) ->
   (forall url y1 y2 m1 m2,
      arxivUrl paper = Some url ->
      arxiv_match url = Some (yymm y1 y2 m1 m2) ->
      (1 <= digits2 m1 m2 <= 12 ->
         inferMonth (Some paper)
           = Some (monthBucket (2000 + digits2 y1 y2) (digits2 m1 m2))) /\
      (~ 1 <= digits2 m1 m2 <= 12 -> inferMonth (Some paper) = None)) /\
   (arxivUrl paper = None \/
      (exists url, arxivUrl paper = Some url /\ arxiv_match url = None) ->
    inferMonth (Some paper) = None)) /\
  (inferMonth (Some paper) = None ->
   forall paperIds l1 l2,
     foldl (countPaper paperIds) ∅ (l1 ++ paper :: l2)
       = foldl (countPaper paperIds) ∅ (l1 ++ l2)).
Proof.
  split; [|split].
  - intros pub Hpub Hlen. unfold inferMonth. simpl. rewrite Hpub.
    by rewrite bool_decide_eq_true_2.
  - intros Hshort. rewrite (inferMonth_fallback _ Hshort). split.
    + intros url y1 y2 m1 m2 -> Hm.
      rewrite (inferMonthFromArxivUrl_match _ _ _ _ _ Hm). split; intros Hmm.
      * rewrite bool_decide_eq_true_2 by done.
        unfold monthBucket. by rewrite truthy_app_dash.
      * by rewrite bool_decide_eq_false_2.
    + intros [->|(url & -> & Hm)]; [done|].
      unfold inferMonthFromArxivUrl. rewrite Hm. by destruct (negb (truthy url)).
  - intros Hnone paperIds l1 l2. by apply countPaper_excluded.
Qed.

Lemma inferMonth_policy_witness :
  inferMonth (Some (mkPaperInfo (Some "l1") (Some "2023-10-05") None))
    = Some "2023-10" /\
  inferMonth (Some (mkPaperInfo (Some "l2") None
                      (Some "https://arxiv.org/abs/2310.01234")))
    = Some "2023-10" /\
  inferMonth (Some (mkPaperInfo (Some "l2") None
                      (Some "https://arxiv.org/abs/2313.01234")))
    = None /\
  foldl (countPaper {["l2"]}) ∅
        [mkPaperInfo (Some "l2") None (Some "https://arxiv.org/abs/2313.01234")]
    = ∅.
Proof.
  pose (dated := mkPaperInfo (Some "l1") (Some "2023-10-05") None).
  pose (good := mkPaperInfo (Some "l2") None
                  (Some "https://arxiv.org/abs/2310.01234")).
  pose (bad := mkPaperInfo (Some "l2") None
                 (Some "https://arxiv.org/abs/2313.01234")).
  assert (Hgood : arxiv_match "https://arxiv.org/abs/2310.01234"
                  = Some (yymm "2" "3" "1" "0")).
  { exact (arxiv_match_abs_url "2" "3" "1" "0" "0" "1" "2" "3" "4"
             eq_refl eq_refl eq_refl eq_refl eq_refl eq_refl eq_refl eq_refl). }
  assert (Hbad : arxiv_match "https://arxiv.org/abs/2313.01234"
                 = Some (yymm "2" "3" "1" "3")).
  { exact (arxiv_match_abs_url "2" "3" "1" "3" "0" "1" "2" "3" "4"
             eq_refl eq_refl eq_refl eq_refl eq_refl eq_refl eq_refl eq_refl). }
  assert (Hbad_none : inferMonth (Some bad) = None).
  { destruct (inferMonth_policy bad) as (_ & Hurl & _).
    destruct (Hurl (or_introl eq_refl)) as [Hmatch _].
    destruct (Hmatch _ "2" "3" "1" "3" eq_refl Hbad)%char as [_ Hout].
    apply Hout. vm_compute. intros [_ Hle]. by apply Hle. }
  split; [|split; [|split]].
  - destruct (inferMonth_policy dated) as (Hdate & _ & _).
    apply (Hdate "2023-10-05" eq_refl). vm_compute. lia.
  - destruct (inferMonth_policy good) as (_ & Hurl & _).
    destruct (Hurl (or_introl eq_refl)) as [Hmatch _].
    destruct (Hmatch _ "2" "3" "1" "0" eq_refl Hgood)%char as [Hin _].
    apply Hin. vm_compute. split; discriminate.
  - exact Hbad_none.
  - destruct (inferMonth_policy bad) as (_ & _ & Hskip).
    exact (Hskip Hbad_none {["l2"]} [] []).
Defined.

(** The claim as the specification words it fails on a date string shorter
    than seven code units: the date is passed over, and the month comes from
    the arXiv identifier, or the paper is left out. *)
Lemma short_publication_date_passed_over :
  let paper := mkPaperInfo (Some "l3") (Some "2023")
                 (Some "http://ARXIV.org/abs/2209.0123") in
  let bare := mkPaperInfo (Some "l3") (Some "2023") None in
  publicationDate paper = Some "2023" /\
  substring0 7 "2023" = "2023" /\
  inferMonth (Some paper) = Some "2022-09" /\
  inferMonth (Some bare) = None /\
  getCitationTimeSeries Sample.state (Some "Cluster 1")
    = [mkPoint "2022-09" 1].
Proof. repeat split; vm_compute; reflexivity. Qed.

(** ** Loops that push or count *)

(** A [forEach] whose body pushes the elements [f x] onto the array. *)
Lemma foldl_push {A B : Type} (step : list B -> A -> list B) (f : A -> list B)
    (l : list A) (acc : list B) :
  (forall acc x, step acc x = acc ++ f x) ->
  foldl step acc l = acc ++ flat_map f l.
Proof.
  intros Hstep. revert acc.
  induction l as [|x l IH]; intros acc; simpl; [by rewrite app_nil_r|].
  by rewrite Hstep, IH, app_assoc.
Qed.

Lemma flat_map_ext_elem_of {A B : Type} (f g : A -> list B) (l : list A) :
  (forall x, x ∈ l -> f x = g x) -> flat_map f l = flat_map g l.
Proof.
  induction l as [|x l IH]; intros Hfg; simpl; [done|].
  rewrite (Hfg x) by left. f_equal. apply IH. intros y Hy. apply Hfg. by right.
Qed.

Lemma elem_of_flat_map {A B : Type} (f : A -> list B) (l : list A) (y : B) :
  y ∈ flat_map f l <-> exists x, x ∈ l /\ y ∈ f x.
Proof.
  induction l as [|a l IH]; simpl.
  - split; [intros H; by apply elem_of_nil in H|].
    intros (x & Hx & _). by apply elem_of_nil in Hx.
  - rewrite elem_of_app, IH. split.
    + intros [H|(x & Hx & Hy)].
      * exists a. split; [left|done].
      * exists x. split; [by right|done].
    + intros (x & Hx & Hy). apply elem_of_cons in Hx as [->|Hx]; [by left|].
      right. eauto.
Qed.

Lemma crossing_nil sources targets : crossing sources targets [] = 0.
Proof. done. Qed.

Lemma crossing_app sources targets l1 l2 :
  crossing sources targets (l1 ++ l2)
    = crossing sources targets l1 + crossing sources targets l2.
Proof. unfold crossing. rewrite filter_app, length_app. lia. Qed.

Lemma crossing_nonneg sources targets pairs : 0 <= crossing sources targets pairs.
Proof. unfold crossing. lia. Qed.

Lemma countRefs_filter targets refs count :
  countRefs targets refs count
    = count + Z.of_nat (length (filter (fun ref => ref_paperId ref ∈ targets) refs)).
Proof.
  unfold countRefs. revert count.
  induction refs as [|ref refs IH]; intros count; simpl; [lia|].
  rewrite IH, filter_cons.
  case_bool_decide; case_decide; simpl; first [lia|tauto].
Qed.

Lemma crossing_of_paper sources targets pid refs :
  crossing sources targets ((fun ref => (pid, ref_paperId ref)) <$> refs)
    = if bool_decide (pid ∈ sources)
      then Z.of_nat (length (filter (fun ref => ref_paperId ref ∈ targets) refs))
      else 0.
Proof.
  unfold crossing.
  induction refs as [|ref refs IH]; [by case_bool_decide|].
  rewrite fmap_cons, !filter_cons. simpl.
  repeat case_decide; case_bool_decide; simpl in *; first [lia|tauto].
Qed.

Lemma countCitations_crossing sources targets papers :
  countCitations sources targets papers
    = crossing sources targets (citationPairs papers).
Proof.
  unfold countCitations.
  enough (forall count,
    foldl (fun citationCount paper =>
             if bool_decide (paperId paper ∈ sources) then
               match references paper with
               | Some refs => countRefs targets refs citationCount
               | None => citationCount
               end
             else citationCount) count papers
    = count + crossing sources targets (citationPairs papers)) as ->; [lia|].
  induction papers as [|paper papers IH]; intros count; simpl.
  - rewrite crossing_nil. lia.
  - rewrite IH, crossing_app, crossing_of_paper. clear IH.
    destruct (references paper) as [refs|]; simpl.
    + rewrite countRefs_filter. case_bool_decide; lia.
    + case_bool_decide; lia.
Qed.

(** ** Bipartite edges *)

Lemma crossing_edgeWeight llmTopic psychTopic pairs :
  crossing (paperIdSet llmTopic) (paperIdSet psychTopic) pairs
    = edgeWeight llmTopic psychTopic pairs.
Proof.
  unfold crossing, edgeWeight. do 2 f_equal.
  apply list_filter_iff. intros [p q]. unfold paperIdSet, topicPaperIds.
  by rewrite !elem_of_list_to_set.
Qed.

Lemma edgeWeight_nonneg llmTopic psychTopic pairs :
  0 <= edgeWeight llmTopic psychTopic pairs.
Proof. unfold edgeWeight. lia. Qed.

Lemma flat_map_all_nil {A B : Type} (f : A -> list B) (l : list A) :
  (forall x, f x = []) -> flat_map f l = [].
Proof. intros Hf. induction l as [|x l IH]; simpl; [done|]. by rewrite Hf, IH. Qed.

Lemma getBipartiteEdges_flat_map st :
  getBipartiteEdges st =
    flat_map (fun llmEntry =>
                flat_map (topicEdge (citationPairs (default [] (filteredPapers st)))
                                    llmEntry)
                         (psychClusters st))
             (llmClusters st).
Proof.
  unfold getBipartiteEdges. destruct (filteredPapers st) as [papers|]; simpl.
  - rewrite (foldl_push _
      (fun llmEntry => flat_map (topicEdge (citationPairs papers) llmEntry)
                                (psychClusters st))); [done|].
    intros edges [llmKey llmCluster].
    apply foldl_push. intros edges' [psychKey psychCluster].
    unfold topicEdge. simpl.
    rewrite countCitations_crossing, crossing_edgeWeight.
    pose proof (edgeWeight_nonneg llmCluster psychCluster (citationPairs papers)).
    repeat case_bool_decide; first [lia|done|by rewrite app_nil_r].
  - symmetry. apply flat_map_all_nil. intros llmEntry.
    apply flat_map_all_nil. by intros psychEntry.
Qed.

Lemma size_list_to_set_le (l : list (string * string)) :
  (size (list_to_set (C := gset (string * string)) l) <= length l)%nat.
Proof.
  induction l as [|x l IH]; [by rewrite list_to_set_nil, size_empty|].
  rewrite list_to_set_cons, size_union_alt, size_singleton. simpl.
  assert (size (list_to_set (C := gset (string * string)) l ∖ {[x]})
          <= size (list_to_set (C := gset (string * string)) l))%nat
    by (apply subseteq_size; set_solver).
  lia.
Qed.

Lemma specWeight_edgeWeight llmTopic psychTopic papers :
  specWeight llmTopic psychTopic papers
    <= edgeWeight llmTopic psychTopic (citationPairs papers) /\
  (1 <= edgeWeight llmTopic psychTopic (citationPairs papers) <->
   1 <= specWeight llmTopic psychTopic papers) /\
  (NoDup (citationPairs papers) ->
   edgeWeight llmTopic psychTopic (citationPairs papers)
     = specWeight llmTopic psychTopic papers).
Proof.
  unfold specWeight, edgeWeight, CitationEdges.
  set (P := fun pq : string * string =>
              pq.1 ∈ topicPaperIds llmTopic /\ pq.2 ∈ topicPaperIds psychTopic).
  set (pairs := citationPairs papers).
  assert (filter P (list_to_set (C := gset (string * string)) pairs)
          = list_to_set (filter P pairs)) as ->.
  { apply set_eq. intros pq.
    rewrite elem_of_filter, !elem_of_list_to_set, list_elem_of_filter. done. }
  pose proof (size_list_to_set_le (filter P pairs)) as Hle.
  split; [lia|]. split.
  - split; [|lia]. intros Hpos.
    destruct (filter P pairs) as [|pq l] eqn:E; [simpl in Hpos; lia|].
    enough (size (list_to_set (C := gset (string * string)) (pq :: l)) <> 0%nat) by lia.
    intros Hz%size_empty_inv. set_solver.
  - intros Hnd. f_equal. symmetry. apply size_list_to_set. by apply NoDup_filter.
Qed.

(** C1, as the code has it.  The edge list holds, for the pairs of an LLM
    topic and a Psychology topic taken in order, the edge whose weight is
    the number of reference-list entries that lead from a paper of the first
    topic to a paper of the second, left out when that number is zero; so no
    edge has a weight below one.  The weight is never less than the number
    of citation edges between the two topics, an edge is there exactly when
    there is at least one, and the two numbers agree when no citation pair
    is listed twice. *)
Theorem getBipartiteEdges_weight (st : State) :
  let papers := default [] (filteredPapers st) in
  let pairs := citationPairs papers in
  getBipartiteEdges st =
    flat_map (fun llmEntry => flat_map (topicEdge pairs llmEntry) (psychClusters st))
             (llmClusters st) /\
  (forall e, e ∈ getBipartiteEdges st <->
     exists llmKey llmTopic psychKey psychTopic,
       (llmKey, llmTopic) ∈ llmClusters st /\
       (psychKey, psychTopic) ∈ psychClusters st /\
       1 <= edgeWeight llmTopic psychTopic pairs /\
       e = mkEdge ("LLM-" +:+ llmKey) ("Psych-" +:+ psychKey)
                  (edgeWeight llmTopic psychTopic pairs)) /\
  Forall (fun e => 1 <= weight e) (getBipartiteEdges st) /\
  (forall llmTopic psychTopic,
     specWeight llmTopic psychTopic papers <= edgeWeight llmTopic psychTopic pairs /\
     (1 <= edgeWeight llmTopic psychTopic pairs <->
      1 <= specWeight llmTopic psychTopic papers) /\
     (NoDup pairs ->
      edgeWeight llmTopic psychTopic pairs
        = specWeight llmTopic psychTopic papers)).
Proof.
  intros papers pairs.
  assert (Hin : forall e, e ∈ getBipartiteEdges st <->
     exists llmKey llmTopic psychKey psychTopic,
       (llmKey, llmTopic) ∈ llmClusters st /\
       (psychKey, psychTopic) ∈ psychClusters st /\
       1 <= edgeWeight llmTopic psychTopic pairs /\
       e = mkEdge ("LLM-" +:+ llmKey) ("Psych-" +:+ psychKey)
                  (edgeWeight llmTopic psychTopic pairs)).
  { intros e. rewrite getBipartiteEdges_flat_map. fold papers pairs.
    rewrite elem_of_flat_map. split.
    - intros ([llmKey llmTopic] & Hllm & He).
      apply elem_of_flat_map in He as ([psychKey psychTopic] & Hpsych & He).
      unfold topicEdge in He. simpl in He.
      pose proof (edgeWeight_nonneg llmTopic psychTopic pairs).
      case_bool_decide; [by apply elem_of_nil in He|].
      apply list_elem_of_singleton in He.
      exists llmKey, llmTopic, psychKey, psychTopic. repeat split; [done..|lia|done].
    - intros (llmKey & llmTopic & psychKey & psychTopic & Hllm & Hpsych & Hw & ->).
      exists (llmKey, llmTopic). split; [done|].
      apply elem_of_flat_map. exists (psychKey, psychTopic). split; [done|].
      unfold topicEdge. simpl. rewrite bool_decide_eq_false_2 by lia.
      by apply list_elem_of_singleton. }
  split; [apply getBipartiteEdges_flat_map|]. split; [exact Hin|]. split.
  - apply Forall_forall. intros e He. apply Hin in He.
    destruct He as (? & ? & ? & ? & _ & _ & Hw & ->). exact Hw.
  - intros llmTopic psychTopic. apply specWeight_edgeWeight.
Qed.

(** Where no two citation pairs coincide, the weight is the size of the set
    of crossing pairs. *)
Lemma edgeWeight_distinct_pairs llmTopic psychTopic pairs :
  NoDup pairs ->
  edgeWeight llmTopic psychTopic pairs =
    Z.of_nat (size (list_to_set (C := gset (string * string))
                      (filter (fun pq => pq.1 ∈ topicPaperIds llmTopic /\
                                         pq.2 ∈ topicPaperIds psychTopic) pairs))).
Proof.
  intros Hnd. unfold edgeWeight. f_equal. symmetry.
  apply size_list_to_set. by apply NoDup_filter.
Qed.

Lemma getBipartiteEdges_weight_witness :
  mkEdge "LLM-Cluster 0" "Psych-Cluster 0" 2 ∈ getBipartiteEdges Sample.state /\
  Forall (fun e => 1 <= weight e) (getBipartiteEdges Sample.state) /\
  edgeWeight (mkCluster 2 "vision" [Sample.doc "l1"; Sample.doc "l2"])
             (mkCluster 2 "learning" [Sample.doc "q1"; Sample.doc "q2"])
             (citationPairs Sample.papers)
    = specWeight (mkCluster 2 "vision" [Sample.doc "l1"; Sample.doc "l2"])
                 (mkCluster 2 "learning" [Sample.doc "q1"; Sample.doc "q2"])
                 Sample.papers.
Proof.
  destruct (getBipartiteEdges_weight Sample.state) as (_ & Hin & Hpos & Hspec).
  split; [|split; [exact Hpos|]].
  - apply Hin.
    exists "Cluster 0", (mkCluster 2 "vision" [Sample.doc "l1"; Sample.doc "l2"]),
           "Cluster 0", (mkCluster 2 "learning" [Sample.doc "q1"; Sample.doc "q2"]).
    split; [left|]. split; [left|]. split; [by vm_compute|].
    vm_compute. reflexivity.
  - destruct (Hspec (mkCluster 2 "vision" [Sample.doc "l1"; Sample.doc "l2"])
                    (mkCluster 2 "learning" [Sample.doc "q1"; Sample.doc "q2"]))
      as (_ & _ & Heq).
    apply Heq. vm_compute.
    repeat (constructor; [set_solver|]). constructor.
Defined.

(** The claim as the specification words it fails: a paper that lists the
    same reference twice gives an edge of weight 2, while there is one
    citation edge between the two topics. *)
Lemma duplicate_reference_counted_twice :
  let papers := [mkPaper "l1" (Some [mkRef "q1"; mkRef "q1"])] in
  let st := loadData Sample.llmTopics Sample.psychTopics Sample.theoryPools
                     Sample.subtopics (Some Sample.infos) (Some papers)
                     (Some Sample.refs) in
  getBipartiteEdges st = [mkEdge "LLM-Cluster 0" "Psych-Cluster 0" 2] /\
  CitationEdges papers = {[ ("l1", "q1") ]} /\
  specWeight (mkCluster 2 "vision" [Sample.doc "l1"; Sample.doc "l2"])
             (mkCluster 2 "learning" [Sample.doc "q1"; Sample.doc "q2"])
             papers = 1.
Proof. repeat split; vm_compute; reflexivity. Qed.

(** ** Theory distribution *)




(** The title index holds the lower-cased, trimmed titles of the reference
    records that have a title and an ID. *)
Lemma buildTitleMap_lookup refs key pid :
  buildTitleMap (Some refs) !! key = Some pid ->
  exists title, mkRefInfo (Some title) (Some pid) ∈ refs /\
                titleKey title = key /\ title <> "" /\ pid <> "".
Proof.
  unfold buildTitleMap. simpl.
  assert (Hgen : forall (acc : gmap string string),
    foldl (fun titleMap ref =>
             match refinfo_title ref, refinfo_paperId ref with
             | Some title, Some pid =>
                 if truthy title && truthy pid
                 then <[trim (toLowerCase title) := pid]> titleMap
                 else titleMap
             | _, _ => titleMap
             end) acc refs !! key = Some pid ->
    acc !! key = Some pid \/
    exists title, mkRefInfo (Some title) (Some pid) ∈ refs /\
                  titleKey title = key /\ title <> "" /\ pid <> "").
  { induction refs as [|ref refs IH]; intros acc; simpl; [by left|].
    intros [Hacc|(title & Hin & Hk)]%IH.
    - destruct ref as [[t|] [p|]]; simpl in Hacc; try by left.
      destruct (truthy t) eqn:Ht, (truthy p) eqn:Hp; simpl in Hacc; try by left.
      rewrite lookup_insert in Hacc. case_decide as Hkey; [|by left].
      injection Hacc as ->. right. exists t. split; [left|].
      by rewrite <- !truthy_true_iff.
    - right. exists title. split; [by right|done]. }
  intros [Hempty|H]%Hgen; [by rewrite lookup_empty in Hempty|done].
Qed.

(** Conversely, a reference record with a title and an ID puts its title key
    into the index. *)
Lemma buildTitleMap_is_Some refs title pid :
  mkRefInfo (Some title) (Some pid) ∈ refs -> title <> "" -> pid <> "" ->
  is_Some (buildTitleMap (Some refs) !! titleKey title).
Proof.
  intros Hin Htitle%truthy_true_iff Hpid%truthy_true_iff.
  unfold buildTitleMap. simpl. generalize (∅ : gmap string string).
  induction refs as [|ref refs IH]; intros acc; [by apply elem_of_nil in Hin|].
  apply elem_of_cons in Hin as [<-|Hin]; [|by apply IH].
  simpl. rewrite Htitle, Hpid. simpl. clear IH.
  assert (Hkeep : forall (l : list RefInfo) (acc' : gmap string string),
    is_Some (acc' !! titleKey title) ->
    is_Some (foldl (fun titleMap ref =>
                      match refinfo_title ref, refinfo_paperId ref with
                      | Some title, Some pid =>
                          if truthy title && truthy pid
                          then <[trim (toLowerCase title) := pid]> titleMap
                          else titleMap
                      | _, _ => titleMap
                      end) acc' l !! titleKey title)).
  { induction l as [|r l IHl]; intros acc' Hacc; simpl; [done|].
    apply IHl. destruct r as [[t|] [q|]]; simpl; try done.
    destruct (truthy t && truthy q); [|done].
    rewrite lookup_insert. by case_decide. }
  apply Hkeep. unfold titleKey. by rewrite lookup_insert_eq.
Qed.


Lemma StronglySorted_mono {A : Type} (R1 R2 : A -> A -> Prop) (l : list A) :
  (forall x y, R1 x y -> R2 x y) -> StronglySorted R1 l -> StronglySorted R2 l.
Proof.
  intros HR. induction 1 as [|x l Hl IH Hx]; constructor; [done|].
  eapply Forall_impl; [exact Hx|]. intros y. apply HR.
Qed.






(** ** The cumulative time series *)

Lemma compareStrings_le a b : compareStrings a b <= 0 <-> String.le a b.
Proof.
  unfold compareStrings, String.le, String.leb.
  destruct (String.compare a b); simpl; split; first [done|lia].
Qed.

Lemma compareStrings_total a b : compareStrings a b <= 0 \/ compareStrings b a <= 0.
Proof. rewrite !compareStrings_le. apply (total String.le). Qed.

Lemma compareStrings_trans a b c :
  compareStrings a b <= 0 -> compareStrings b c <= 0 -> compareStrings a c <= 0.
Proof. rewrite !compareStrings_le. apply (transitivity (R := String.le)). Qed.

Lemma String_le_neq_lt a b : String.le a b -> a <> b -> String_lt a b.
Proof.
  unfold String.le, String.leb, String_lt.
  destruct (String.compare a b) eqn:E; [|done..].
  apply String.compare_eq_iff in E. congruence.
Qed.

Lemma StronglySorted_NoDup_strict {A : Type} (R : A -> A -> Prop) (l : list A) :
  StronglySorted R l -> NoDup l -> StronglySorted (fun a b => R a b /\ a <> b) l.
Proof.
  induction 1 as [|x l Hl IH Hx]; intros Hnd; [constructor|].
  apply NoDup_cons in Hnd as [Hx' Hnd]. constructor; [auto|].
  apply Forall_forall. intros y Hy. split.
  - by eapply Forall_forall in Hx.
  - intros ->. done.
Qed.

Lemma StronglySorted_fmap_inv {A B : Type} (f : A -> B) (R : B -> B -> Prop)
    (l : list A) :
  StronglySorted R (f <$> l) -> StronglySorted (fun a b => R (f a) (f b)) l.
Proof.
  induction l as [|x l IH]; [constructor|].
  rewrite fmap_cons. intros [Hx Hl]%StronglySorted_cons.
  constructor; [auto|]. apply Forall_forall. intros y Hy.
  eapply Forall_forall in Hx; [exact Hx|]. apply list_elem_of_fmap. eauto.
Qed.

(** The keys of the month counts, sorted: strictly increasing, and the keys
    of the record. *)
Lemma sorted_keys_strict (monthCounts : gmap string Z) :
  StronglySorted String_lt (Array_sort compareStrings (Object_keys monthCounts)).
Proof.
  eapply StronglySorted_mono; [|apply StronglySorted_NoDup_strict].
  - intros a b [Hle Hne]. apply String_le_neq_lt; [|done].
    apply compareStrings_le, Hle.
  - apply Array_sort_sorted; [apply compareStrings_total|apply compareStrings_trans].
  - rewrite Array_sort_Permutation. apply NoDup_fst_map_to_list.
Qed.

Lemma elem_of_Object_keys (monthCounts : gmap string Z) k :
  k ∈ Object_keys monthCounts <-> is_Some (monthCounts !! k).
Proof.
  unfold Object_keys. rewrite list_elem_of_fmap. split.
  - intros ([k' v] & -> & Hin). apply elem_of_map_to_list in Hin. eauto.
  - intros [v Hv]. exists (k, v). split; [done|]. by apply elem_of_map_to_list.
Qed.

Lemma sumZ_app l1 l2 : sumZ (l1 ++ l2) = sumZ l1 + sumZ l2.
Proof. unfold sumZ. induction l1 as [|x l1 IH]; simpl; lia. Qed.

Lemma runningTotals_months monthCounts cumulative months :
  month <$> runningTotals monthCounts cumulative months = months.
Proof.
  revert cumulative. induction months as [|m l IH]; intros c; simpl; [done|].
  by rewrite IH.
Qed.

Lemma runningTotals_lookup monthCounts cumulative months i pt :
  runningTotals monthCounts cumulative months !! i = Some pt ->
  months !! i = Some (month pt) /\
  point_citations pt =
    cumulative +
    sumZ ((fun m => default 0 (monthCounts !! m)) <$> take (S i) months).
Proof.
  revert cumulative i.
  induction months as [|m l IH]; intros c i; simpl; [done|].
  destruct i as [|i]; simpl.
  - intros [= <-]. simpl. split; [done|]. lia.
  - intros [Hm Hc]%IH. split; [done|]. rewrite Hc.
    unfold sumZ. simpl. by rewrite <- Z.add_assoc.
Qed.

Lemma runningTotals_nondecreasing monthCounts cumulative months :
  (forall m v, monthCounts !! m = Some v -> 0 <= v) ->
  Forall (fun pt => cumulative <= point_citations pt)
         (runningTotals monthCounts cumulative months) /\
  StronglySorted (fun a b => point_citations a <= point_citations b)
                 (runningTotals monthCounts cumulative months).
Proof.
  intros Hpos. revert cumulative.
  induction months as [|m l IH]; intros c; simpl; [split; constructor|].
  assert (0 <= default 0 (monthCounts !! m)).
  { destruct (monthCounts !! m) eqn:E; simpl; [by eapply Hpos|lia]. }
  destruct (IH (c + default 0 (monthCounts !! m))) as [Hge Hsorted].
  split.
  - constructor; simpl; [lia|].
    eapply Forall_impl; [exact Hge|]. simpl. intros. lia.
  - constructor; [done|]. exact Hge.
Qed.

Lemma monthCount_nonneg m months : 0 <= monthCount m months.
Proof. unfold monthCount. lia. Qed.

Lemma monthCount_pos_iff m months : 0 < monthCount m months <-> m ∈ months.
Proof.
  unfold monthCount. induction months as [|m' l IH].
  - simpl. split; [lia|]. intros H. by apply elem_of_nil in H.
  - rewrite filter_cons, elem_of_cons. case_decide as Hm; simpl.
    + subst. split; [by left|lia].
    + rewrite IH. split; [by right|]. intros [->|?]; [done|done].
Qed.

Lemma countPaper_paperMonth paperIds monthCounts paper :
  countPaper paperIds monthCounts paper =
    match paperMonth paperIds paper with
    | Some m => bump monthCounts m 1
    | None => monthCounts
    end.
Proof.
  unfold countPaper, paperMonth.
  destruct (info_paperId paper) as [pid|]; [|done].
  destruct (truthy pid); [|done]. simpl.
  case_bool_decide; simpl; [|done].
  destruct (inferMonth (Some paper)) as [m|]; [|done].
  by destruct (truthy m).
Qed.

Lemma monthCounts_lookup paperIds papersInfoArray (acc : gmap string Z) m :
  default 0 (foldl (countPaper paperIds) acc papersInfoArray !! m)
    = default 0 (acc !! m) + monthCount m (resolvedMonths paperIds papersInfoArray) /\
  (is_Some (foldl (countPaper paperIds) acc papersInfoArray !! m) <->
   is_Some (acc !! m) \/ m ∈ resolvedMonths paperIds papersInfoArray).
Proof.
  unfold resolvedMonths. revert acc.
  induction papersInfoArray as [|paper l IH]; intros acc; csimpl.
  - unfold monthCount. simpl. split; [lia|]. split; [by left|].
    intros [?|H]; [done|by apply elem_of_nil in H].
  - destruct (IH (countPaper paperIds acc paper)) as [IHv IHk].
    rewrite IHv, IHk, countPaper_paperMonth. clear IH IHv IHk.
    destruct (paperMonth paperIds paper) as [m'|]; [|done].
    unfold bump, monthCount. rewrite filter_cons, lookup_insert, elem_of_cons.
    case_decide as Hm; subst; csimpl.
    + split; [lia|].
      split; [intros _; right; by left|intros _; left; eauto].
    + split; [lia|].
      split; [intros [?|?]; [by left|right; by right]|].
      intros [?|[?|?]]; [by left|congruence|by right].
Qed.

(** What [cumulativeSeries] makes of any record of non-negative counts. *)
Lemma cumulativeSeries_ordered (monthCounts : gmap string Z) :
  (forall m v, monthCounts !! m = Some v -> 0 <= v) ->
  StronglySorted (fun a b => String_lt (month a) (month b))
                 (cumulativeSeries monthCounts) /\
  (forall m, m ∈ month <$> cumulativeSeries monthCounts <->
             is_Some (monthCounts !! m)) /\
  StronglySorted (fun a b => point_citations a <= point_citations b)
                 (cumulativeSeries monthCounts).
Proof.
  intros Hpos. unfold cumulativeSeries. split; [|split].
  - apply StronglySorted_fmap_inv. rewrite runningTotals_months.
    apply sorted_keys_strict.
  - intros m. rewrite runningTotals_months, Array_sort_elem_of.
    apply elem_of_Object_keys.
  - by apply runningTotals_nondecreasing.
Qed.

Lemma runningTotals_length monthCounts cumulative months :
  length (runningTotals monthCounts cumulative months) = length months.
Proof.
  by rewrite <- (runningTotals_months monthCounts cumulative months) at 2;
    rewrite length_fmap.
Qed.

Lemma cumulativeSeries_over (monthCounts : gmap string Z) (months : list string) :
  (forall m, default 0 (monthCounts !! m) = monthCount m months) ->
  (forall m, is_Some (monthCounts !! m) <-> m ∈ months) ->
  cumulativeOver months (cumulativeSeries monthCounts).
Proof.
  intros Hcount Hkeys.
  assert (Hpos : forall m v, monthCounts !! m = Some v -> 0 <= v).
  { intros m v Hm. specialize (Hcount m). rewrite Hm in Hcount. simpl in Hcount.
    rewrite Hcount. apply monthCount_nonneg. }
  destruct (cumulativeSeries_ordered monthCounts Hpos) as (Hsorted & Hmem & Hmono).
  split; [exact Hsorted|]. split; [|split; [|exact Hmono]].
  - intros m. by rewrite Hmem, Hkeys.
  - intros i pt Hpt. unfold cumulativeSeries in *.
    apply runningTotals_lookup in Hpt as [_ ->].
    set (keys := Array_sort compareStrings (Object_keys monthCounts)).
    rewrite <- (runningTotals_months monthCounts 0 keys) at 1.
    rewrite <- fmap_take, <- list_fmap_compose. rewrite Z.add_0_l. f_equal.
    apply list_fmap_ext. intros _ q _. simpl. apply Hcount.
Qed.

Lemma buildPapersInfoMap_lookup papersInfoArray pid :
  buildPapersInfoMap papersInfoArray !! pid = recordOf papersInfoArray pid.
Proof.
  unfold buildPapersInfoMap, recordOf.
  enough (forall acc : gmap string PaperInfo,
    foldl (fun m p =>
             match info_paperId p with
             | Some pid => if truthy pid then <[pid := p]> m else m
             | None => m
             end) acc papersInfoArray !! pid
    = match last (filter (fun p => info_paperId p = Some pid) papersInfoArray) with
      | Some p => if truthy pid then Some p else acc !! pid
      | None => acc !! pid
      end) as ->.
  { rewrite lookup_empty. destruct (last _); by destruct (truthy pid). }
  induction papersInfoArray as [|p l IH]; intros acc; [done|].
  cbn [foldl]. rewrite IH, filter_cons. clear IH.
  destruct (info_paperId p) as [pid'|] eqn:Hp.
  - case_decide as Heq.
    + injection Heq as ->. rewrite last_cons.
      destruct (last (filter _ l)), (truthy pid); try done.
      by rewrite lookup_insert_eq.
    + destruct (last (filter _ l)) as [q|].
      * destruct (truthy pid); [done|]. destruct (truthy pid'); [|done].
        rewrite lookup_insert_ne; [done|congruence].
      * destruct (truthy pid'); [|done].
        rewrite lookup_insert_ne; [done|congruence].
  - rewrite decide_False by done. done.
Qed.

Lemma monthCount_app m l1 l2 :
  monthCount m (l1 ++ l2) = monthCount m l1 + monthCount m l2.
Proof. unfold monthCount. rewrite filter_app, length_app. lia. Qed.

Lemma monthCount_const {A : Type} m m' (l : list A) :
  monthCount m ((fun _ => m') <$> l) = if decide (m' = m) then Z.of_nat (length l) else 0.
Proof.
  unfold monthCount. induction l as [|x l IH]; [by case_decide|].
  rewrite fmap_cons, filter_cons. repeat case_decide; simpl in *; try lia; congruence.
Qed.

Lemma countPaperCitations_months llmPaperIds psychPaperIds papersInfoArray
    (monthCounts : gmap string Z) paper m :
  let step := countPaperCitations llmPaperIds psychPaperIds
                (buildPapersInfoMap papersInfoArray) monthCounts paper in
  let months := paperCitationMonths llmPaperIds psychPaperIds papersInfoArray paper in
  default 0 (step !! m) = default 0 (monthCounts !! m) + monthCount m months /\
  (is_Some (step !! m) <-> is_Some (monthCounts !! m) \/ m ∈ months).
Proof.
  intros step months. unfold step, months, countPaperCitations, paperCitationMonths.
  rewrite buildPapersInfoMap_lookup.
  assert (Hnone : default 0 (monthCounts !! m)
                  = default 0 (monthCounts !! m) + monthCount m [] /\
                  (is_Some (monthCounts !! m) <-> is_Some (monthCounts !! m) \/ m ∈ @nil string)).
  { split; [unfold monthCount; simpl; lia|]. split; [by left|].
    intros [?|Hnil]; [done|by apply elem_of_nil in Hnil]. }
  case_bool_decide; simpl; [|done].
  destruct (inferMonth (recordOf papersInfoArray (paperId paper))) as [m'|] eqn:Hm;
    [|done].
  rewrite (proj2 (truthy_true_iff m')) by (by eapply inferMonth_nonempty). simpl.
  destruct (references paper) as [refs|]; simpl; [|done].
  rewrite countRefs_filter, Z.add_0_l, monthCount_const.
  set (crossing := filter (fun ref => ref_paperId ref ∈ psychPaperIds) refs).
  case_bool_decide as Hpos.
  - unfold bump. rewrite lookup_insert. case_decide as Heq.
    + subst m'. simpl. split; [lia|]. split; [|by eauto].
      intros _. right. apply list_elem_of_fmap.
      destruct crossing as [|ref l]; [simpl in Hpos; lia|].
      exists ref. split; [done|left].
    + split; [lia|]. split; [by left|].
      intros [?|(ref & -> & _)%list_elem_of_fmap]; done.
  - assert (crossing = []) as -> by (destruct crossing; [done|simpl in Hpos; lia]).
    simpl. split; [case_decide; lia|]. split; [by left|].
    intros [?|Hnil]; [done|by apply elem_of_nil in Hnil].
Qed.

Lemma citationCounts_lookup llmPaperIds psychPaperIds papersInfoArray papers
    (acc : gmap string Z) m :
  let monthCounts :=
    foldl (countPaperCitations llmPaperIds psychPaperIds
             (buildPapersInfoMap papersInfoArray)) acc papers in
  let months := citationMonths llmPaperIds psychPaperIds papersInfoArray papers in
  default 0 (monthCounts !! m) = default 0 (acc !! m) + monthCount m months /\
  (is_Some (monthCounts !! m) <-> is_Some (acc !! m) \/ m ∈ months).
Proof.
  unfold citationMonths. revert acc.
  induction papers as [|paper papers IH]; intros acc; cbn [foldl flat_map].
  - unfold monthCount. simpl. split; [lia|]. split; [by left|].
    intros [?|H]; [done|by apply elem_of_nil in H].
  - destruct (IH (countPaperCitations llmPaperIds psychPaperIds
                    (buildPapersInfoMap papersInfoArray) acc paper)) as [IHv IHk].
    destruct (countPaperCitations_months llmPaperIds psychPaperIds papersInfoArray
                acc paper m) as [Hv Hk].
    simpl in *. rewrite IHv, IHk, Hv, Hk, monthCount_app, elem_of_app.
    split; [lia|tauto].
Qed.

Lemma cumulativeSeries_nonempty (monthCounts : gmap string Z) (months : list string) :
  (forall m, is_Some (monthCounts !! m) <-> m ∈ months) ->
  (0 < length (cumulativeSeries monthCounts))%nat <-> months <> [].
Proof.
  intros Hkeys. unfold cumulativeSeries.
  rewrite runningTotals_length, Array_sort_length. split.
  - intros Hlen ->.
    destruct (Object_keys monthCounts) as [|k l] eqn:E; [simpl in Hlen; lia|].
    assert (k ∈ Object_keys monthCounts) as Hk by (rewrite E; left).
    apply elem_of_Object_keys, Hkeys in Hk. by apply elem_of_nil in Hk.
  - intros Hne. destruct months as [|m l]; [done|].
    assert (m ∈ Object_keys monthCounts) as Hm
      by (apply elem_of_Object_keys, Hkeys; left).
    destruct (Object_keys monthCounts); [by apply elem_of_nil in Hm|simpl; lia].
Qed.

Lemma getMultiSeriesCitationData_series getClusterLabel st llmClusterId
    papers papersInfoArray llmCluster :
  filteredPapers st = Some papers ->
  papersInfo st = Some papersInfoArray ->
  get (llmClusters st) llmClusterId = Some llmCluster ->
  Forall2 (fun series entry =>
             psychTopic series = getClusterLabel entry.1 psych /\
             psychCluster series = getClusterNumber entry.1 /\
             cumulativeOver (citationMonths (paperIdSet llmCluster)
                               (paperIdSet entry.2) papersInfoArray papers)
                            (data series))
          (getMultiSeriesCitationData getClusterLabel st llmClusterId)
          (filter (fun entry =>
                     citationMonths (paperIdSet llmCluster) (paperIdSet entry.2)
                                    papersInfoArray papers <> [])
                  (psychClusters st)).
Proof.
  intros Hpapers Hinfo Hllm. unfold getMultiSeriesCitationData.
  rewrite Hpapers, Hinfo, Hllm.
  set (seriesOf := fun entry : string * Cluster =>
    let monthCounts :=
      foldl (countPaperCitations (paperIdSet llmCluster) (paperIdSet entry.2)
                                 (buildPapersInfoMap papersInfoArray)) ∅ papers in
    if bool_decide (0 < length (cumulativeSeries monthCounts))%nat
    then [mkSeries (getClusterLabel entry.1 psych) (getClusterNumber entry.1)
                   (cumulativeSeries monthCounts)]
    else []).
  rewrite (foldl_push _ seriesOf).
  2:{ intros acc [psychKey psychCluster]. unfold seriesOf. simpl.
      case_bool_decide; [done|by rewrite app_nil_r]. }
  simpl. induction (psychClusters st) as [|entry entries IH]; [constructor|].
  cbn [flat_map]. rewrite filter_cons.
  set (monthCounts :=
    foldl (countPaperCitations (paperIdSet llmCluster) (paperIdSet entry.2)
                               (buildPapersInfoMap papersInfoArray)) ∅ papers).
  set (months := citationMonths (paperIdSet llmCluster) (paperIdSet entry.2)
                                papersInfoArray papers).
  assert (Hcount : forall m, default 0 (monthCounts !! m) = monthCount m months).
  { intros m. destruct (citationCounts_lookup (paperIdSet llmCluster)
      (paperIdSet entry.2) papersInfoArray papers ∅ m) as [Hv _].
    fold monthCounts months in Hv. rewrite Hv, lookup_empty. simpl. lia. }
  assert (Hkeys : forall m, is_Some (monthCounts !! m) <-> m ∈ months).
  { intros m. destruct (citationCounts_lookup (paperIdSet llmCluster)
      (paperIdSet entry.2) papersInfoArray papers ∅ m) as [_ Hk].
    fold monthCounts months in Hk. rewrite Hk, lookup_empty.
    split; [intros [[? ?]|?]; done|by right]. }
  pose proof (cumulativeSeries_nonempty monthCounts months Hkeys) as Hlen.
  unfold seriesOf at 1. fold monthCounts.
  case_bool_decide as Hpos; case_decide as Hne; [|tauto|tauto|exact IH].
  simpl. constructor; [|exact IH]. simpl.
  split; [done|]. split; [done|]. by apply cumulativeSeries_over.
Qed.

(** C5.  For every state and every optional topic key, the points of the
    time series stand in strictly increasing code-unit order of their months,
    there is a point for exactly the months that some counted paper resolves
    to, each point carries the sum of the per-month paper counts of the
    points up to it, and the counts never decrease along the series.  The
    comparison view of an LLM topic has one series for each Psychology topic
    that a dated paper of the LLM topic cites, in the order of the relation
    and with the topic's label and number; the series is built the same way
    from the citations: a point for exactly the months in which a paper of
    the LLM topic cites the Psychology topic, carrying the number of
    citations (entries of the reference lists) of the months up to its
    own. *)
Theorem getCitationTimeSeries_cumulative
    (getClusterLabel : string -> ClusterKind -> string)
    (st : State) (llmClusterId : option string) :
  let points := getCitationTimeSeries st llmClusterId in
  let months := resolvedMonths (seriesPaperIds st llmClusterId)
                               (default [] (papersInfo st)) in
  StronglySorted (fun a b => String_lt (month a) (month b)) points /\
  (forall m, m ∈ month <$> points <-> m ∈ months) /\
  (forall i pt, points !! i = Some pt ->
     point_citations pt =
       sumZ ((fun q => monthCount (month q) months) <$> take (S i) points)) /\
  StronglySorted (fun a b => point_citations a <= point_citations b) points /\
  (forall key papers papersInfoArray llmCluster,
     filteredPapers st = Some papers ->
     papersInfo st = Some papersInfoArray ->
     get (llmClusters st) key = Some llmCluster ->
     Forall2 (fun series entry =>
                psychTopic series = getClusterLabel entry.1 psych /\
                psychCluster series = getClusterNumber entry.1 /\
                cumulativeOver (citationMonths (paperIdSet llmCluster)
                                  (paperIdSet entry.2) papersInfoArray papers)
                               (data series))
             (getMultiSeriesCitationData getClusterLabel st key)
             (filter (fun entry =>
                        citationMonths (paperIdSet llmCluster) (paperIdSet entry.2)
                                       papersInfoArray papers <> [])
                     (psychClusters st))).
Proof.
  intros points months.
  assert (Hsingle : cumulativeOver months points).
  { unfold getCitationTimeSeries in points.
    destruct (papersInfo st) as [papersInfoArray|] eqn:Hinfo; simpl in months.
    - set (paperIds := seriesPaperIds st llmClusterId) in *.
      set (monthCounts := foldl (countPaper paperIds) ∅ papersInfoArray) in *.
      apply cumulativeSeries_over.
      + intros m.
        destruct (monthCounts_lookup paperIds papersInfoArray ∅ m) as [Hv _].
        fold monthCounts months in Hv. rewrite Hv, lookup_empty. simpl. lia.
      + intros m.
        destruct (monthCounts_lookup paperIds papersInfoArray ∅ m) as [_ Hk].
        fold monthCounts months in Hk. rewrite Hk, lookup_empty.
        split; [intros [[? ?]|?]; done|by right].
    - subst points. split; [constructor|]. split; [done|].
      split; [intros i pt Hpt; done|constructor]. }
  destruct Hsingle as (Hsorted & Hmem & Hsum & Hmono).
  split; [exact Hsorted|]. split; [exact Hmem|]. split; [exact Hsum|].
  split; [exact Hmono|].
  intros key papers papersInfoArray llmCluster.
  apply getMultiSeriesCitationData_series.
Qed.

Lemma getCitationTimeSeries_cumulative_witness :
  let points := getCitationTimeSeries Sample.state None in
  let months := resolvedMonths (seriesPaperIds Sample.state None) Sample.infos in
  points = [mkPoint "2022-09" 1; mkPoint "2023-10" 3] /\
  3 = sumZ ((fun q => monthCount (month q) months) <$> take 2 points) /\
  StronglySorted (fun a b => point_citations a <= point_citations b) points /\
  Forall2 (fun series entry =>
             psychTopic series = Sample.label entry.1 psych /\
             psychCluster series = getClusterNumber entry.1 /\
             cumulativeOver
               (citationMonths
                  (paperIdSet (mkCluster 2 "vision" [Sample.doc "l1"; Sample.doc "l2"]))
                  (paperIdSet entry.2) Sample.infos Sample.papers)
               (data series))
          (getMultiSeriesCitationData Sample.label Sample.state "Cluster 0")
          (filter (fun entry =>
                     citationMonths
                       (paperIdSet (mkCluster 2 "vision"
                                      [Sample.doc "l1"; Sample.doc "l2"]))
                       (paperIdSet entry.2) Sample.infos Sample.papers <> [])
                  (psychClusters Sample.state)).
Proof.
  intros points months.
  destruct (getCitationTimeSeries_cumulative Sample.label Sample.state None)
    as (_ & _ & Hsum & Hmono & Hmulti).
  split; [vm_compute; reflexivity|]. split; [|split; [exact Hmono|]].
  - apply (Hsum 1%nat (mkPoint "2023-10" 3)). vm_compute. reflexivity.
  - apply (Hmulti "Cluster 0" Sample.papers Sample.infos
             (mkCluster 2 "vision" [Sample.doc "l1"; Sample.doc "l2"]));
      reflexivity.
Defined.

(** The multi-series view builds each of its series the same way. *)
Lemma bump_nonneg (monthCounts : gmap string Z) m n :
  0 <= n ->
  (forall k v, monthCounts !! k = Some v -> 0 <= v) ->
  forall k v, bump monthCounts m n !! k = Some v -> 0 <= v.
Proof.
  intros Hn Hpos k v. unfold bump. rewrite lookup_insert.
  case_decide; [|apply Hpos]. intros [= <-].
  destruct (monthCounts !! m) eqn:E; simpl; [|lia].
  apply Hpos in E. lia.
Qed.

Lemma countPaperCitations_nonneg llmPaperIds psychPaperIds papersInfoMap papers :
  forall acc : gmap string Z,
  (forall k v, acc !! k = Some v -> 0 <= v) ->
  forall k v,
    foldl (countPaperCitations llmPaperIds psychPaperIds papersInfoMap) acc papers
      !! k = Some v -> 0 <= v.
Proof.
  induction papers as [|paper papers IH]; intros acc Hacc; simpl; [done|].
  apply IH. unfold countPaperCitations.
  destruct (negb _); [done|].
  destruct (inferMonth _) as [m|]; [|done].
  destruct (negb _); [done|].
  destruct (references paper) as [refs|]; [|done].
  case_bool_decide; [|done]. apply bump_nonneg; [lia|done].
Qed.

Lemma getMultiSeriesCitationData_cumulative
    (getClusterLabel : string -> ClusterKind -> string)
    (st : State) (llmClusterId : string) (series : Series) :
  series ∈ getMultiSeriesCitationData getClusterLabel st llmClusterId ->
  data series <> [] /\
  StronglySorted (fun a b => String_lt (month a) (month b)) (data series) /\
  StronglySorted (fun a b => point_citations a <= point_citations b) (data series).
Proof.
  unfold getMultiSeriesCitationData.
  destruct (filteredPapers st) as [papers|]; [|by intros ?%elem_of_nil].
  destruct (papersInfo st) as [papersInfoArray|]; [|by intros ?%elem_of_nil].
  destruct (get (llmClusters st) llmClusterId) as [llmCluster|];
    [|by intros ?%elem_of_nil].
  set (seriesOf := fun entry : string * Cluster =>
    let monthCounts :=
      foldl (countPaperCitations (paperIdSet llmCluster) (paperIdSet entry.2)
                                 (buildPapersInfoMap papersInfoArray)) ∅ papers in
    if bool_decide (0 < length (cumulativeSeries monthCounts))%nat
    then [mkSeries (getClusterLabel entry.1 psych) (getClusterNumber entry.1)
                   (cumulativeSeries monthCounts)]
    else []).
  rewrite (foldl_push _ seriesOf).
  - simpl. intros ([psychKey psychCluster] & _ & Hin)%elem_of_flat_map.
    unfold seriesOf in Hin. simpl in Hin.
    case_bool_decide as Hlen; [|by apply elem_of_nil in Hin].
    apply list_elem_of_singleton in Hin as ->. simpl.
    split; [intros Hnil; rewrite Hnil in Hlen; simpl in Hlen; lia|].
    match goal with |- context [cumulativeSeries ?mc] =>
      destruct (cumulativeSeries_ordered mc) as (H1 & _ & H2) end; [|done].
    apply countPaperCitations_nonneg. intros k v. by rewrite lookup_empty.
  - intros acc [psychKey psychCluster]. unfold seriesOf. simpl.
    case_bool_decide; [done|by rewrite app_nil_r].
Qed.

(** ** The theory table *)

Lemma filter_none {A : Type} (P : A -> Prop) `{forall x, Decision (P x)} (l : list A) :
  Forall (fun x => ~ P x) l -> filter P l = [].
Proof.
  induction 1 as [|x l Hx Hl IH]; [done|].
  rewrite filter_cons. by rewrite decide_False.
Qed.

Lemma buildNormalizedToCanonical_lookup clusterTheories n :
  buildNormalizedToCanonical clusterTheories !! n = lastNormalized clusterTheories n.
Proof.
  unfold buildNormalizedToCanonical, lastNormalized.
  generalize (clusterTheories.*1). intros names.
  enough (forall acc : gmap string string,
    foldl (fun m nm => <[normalizeTheoryName nm := nm]> m) acc names !! n
    = match last (filter (fun k => normalizeTheoryName k = n) names) with
      | Some k => Some k
      | None => acc !! n
      end) as ->.
  { rewrite lookup_empty. by destruct (last _). }
  induction names as [|nm names IH]; intros acc; simpl; [done|].
  rewrite IH, filter_cons. case_decide as Hn.
  - rewrite last_cons. destruct (last _); [done|].
    by rewrite <- Hn, lookup_insert_eq.
  - destruct (last _); [done|]. by rewrite lookup_insert_ne.
Qed.

Lemma lastNormalized_Some clusterTheories n k :
  lastNormalized clusterTheories n = Some k <->
  exists l1 l2, clusterTheories.*1 = l1 ++ k :: l2 /\
                normalizeTheoryName k = n /\
                Forall (fun k' => normalizeTheoryName k' <> n) l2.
Proof.
  unfold lastNormalized. generalize (clusterTheories.*1). intros names.
  induction names as [|nm names IH].
  - split; [done|]. intros (l1 & l2 & H & _). by destruct l1.
  - rewrite filter_cons. case_decide as Hn.
    + rewrite last_cons.
      destruct (last (filter _ names)) as [k'|] eqn:E.
      * rewrite IH. split.
        -- intros (l1 & l2 & -> & Hk & Hl2). by exists (nm :: l1), l2.
        -- intros (l1 & l2 & Heq & Hk & Hl2). destruct l1 as [|x l1].
           ++ injection Heq as -> ->. exfalso.
              apply last_Some_elem_of, list_elem_of_filter in E as [Hk' Hin].
              eapply Forall_forall in Hl2; [|exact Hin]. done.
           ++ injection Heq as -> ->. by exists l1, l2.
      * apply last_None in E. split.
        -- intros [= <-]. exists [], names. split; [done|]. split; [done|].
           apply Forall_forall. intros k' Hin Hk'.
           assert (k' ∈ filter (fun k => normalizeTheoryName k = n) names)
             by (by apply list_elem_of_filter).
           rewrite E in H. by apply elem_of_nil in H.
        -- intros (l1 & l2 & Heq & Hk & Hl2). destruct l1 as [|x l1].
           ++ by injection Heq as -> ->.
           ++ injection Heq as -> ->. exfalso.
              assert (k ∈ filter (fun k => normalizeTheoryName k = n) (l1 ++ k :: l2)).
              { apply list_elem_of_filter. split; [done|].
                apply elem_of_app. right. left. }
              rewrite E in H. by apply elem_of_nil in H.
    + rewrite IH. split.
      * intros (l1 & l2 & -> & Hk & Hl2). by exists (nm :: l1), l2.
      * intros (l1 & l2 & Heq & Hk & Hl2). destruct l1 as [|x l1].
        -- injection Heq as -> ->. done.
        -- injection Heq as -> ->. by exists l1, l2.
Qed.

Lemma lastNormalized_None clusterTheories n :
  lastNormalized clusterTheories n = None <->
  Forall (fun k => normalizeTheoryName k <> n) clusterTheories.*1.
Proof.
  unfold lastNormalized. rewrite last_None. split.
  - intros Hnil. apply Forall_forall. intros k Hin Hk.
    assert (k ∈ filter (fun k => normalizeTheoryName k = n) clusterTheories.*1)
      by (by apply list_elem_of_filter).
    rewrite Hnil in H. by apply elem_of_nil in H.
  - intros Hall. by apply filter_none.
Qed.

(** The loop body pushes the row of the resolved theory, or nothing. *)
Lemma pushTheoryRow_resolveTheory clusterTheories subCluster rows theoryName :
  pushTheoryRow clusterTheories (buildNormalizedToCanonical clusterTheories)
                (topTheoryNames clusterTheories) subCluster rows theoryName
    = rows ++ option_list (rowOf clusterTheories subCluster <$>
                           resolveTheory clusterTheories theoryName).
Proof.
  unfold pushTheoryRow, resolveTheory, rowOf.
  destruct (get clusterTheories theoryName) as [d|] eqn:Hexact; [done|].
  rewrite buildNormalizedToCanonical_lookup.
  destruct (lastNormalized clusterTheories (normalizeTheoryName theoryName))
    as [k|]; simpl.
  - destruct (truthy k); simpl.
    + destruct (get clusterTheories k); simpl; [done|by rewrite app_nil_r].
    + rewrite Hexact. by rewrite app_nil_r.
  - rewrite Hexact. by rewrite app_nil_r.
Qed.

Lemma getTheoryTableData_rows st psychClusterId secondaryClusterData clusterTheories :
  let clusterKey :=
    "Cluster " +:+ Number_toString (getClusterNumber psychClusterId) in
  get (secondaryClusters st) clusterKey = Some secondaryClusterData ->
  get (theoryPool st) clusterKey = Some clusterTheories ->
  getTheoryTableData st psychClusterId =
    Array_sort (compareRows (buildSubtopicOrder secondaryClusterData))
               (flat_map (subtopicRows clusterTheories) secondaryClusterData).
Proof.
  intros clusterKey Hsec Hpool. unfold getTheoryTableData.
  fold clusterKey. rewrite Hsec, Hpool. f_equal.
  fold (topTheoryNames clusterTheories).
  rewrite (foldl_push _ (subtopicRows clusterTheories)); [done|].
  intros acc [subKey subCluster]. unfold subtopicRows. simpl.
  generalize (theories subCluster). intros names. revert acc.
  induction names as [|nm names IH]; intros acc; csimpl; [by rewrite app_nil_r|].
  rewrite IH, pushTheoryRow_resolveTheory.
  destruct (resolveTheory clusterTheories nm); simpl;
    by rewrite <- ?app_assoc, ?app_nil_r.
Qed.

Lemma resolveTheory_exact clusterTheories theoryName d :
  get clusterTheories theoryName = Some d ->
  resolveTheory clusterTheories theoryName = Some (theoryName, d).
Proof. unfold resolveTheory. by intros ->. Qed.

Lemma resolveTheory_fallback clusterTheories theoryName k d :
  get clusterTheories theoryName = None ->
  lastNormalized clusterTheories (normalizeTheoryName theoryName) = Some k ->
  k <> "" ->
  get clusterTheories k = Some d ->
  resolveTheory clusterTheories theoryName = Some (k, d).
Proof.
  unfold resolveTheory. intros -> -> Hk%truthy_true_iff ->. by rewrite Hk.
Qed.

Lemma resolveTheory_unmatched clusterTheories theoryName :
  get clusterTheories theoryName = None ->
  lastNormalized clusterTheories (normalizeTheoryName theoryName) = None ->
  resolveTheory clusterTheories theoryName = None.
Proof. unfold resolveTheory. by intros -> ->. Qed.

Lemma elem_of_getTheoryTableData st psychClusterId secondaryClusterData
    clusterTheories row :
  let clusterKey :=
    "Cluster " +:+ Number_toString (getClusterNumber psychClusterId) in
  get (secondaryClusters st) clusterKey = Some secondaryClusterData ->
  get (theoryPool st) clusterKey = Some clusterTheories ->
  row ∈ getTheoryTableData st psychClusterId <->
  exists entry theoryName resolved,
    entry ∈ secondaryClusterData /\ theoryName ∈ theories entry.2 /\
    resolveTheory clusterTheories theoryName = Some resolved /\
    row = rowOf clusterTheories entry.2 resolved.
Proof.
  intros clusterKey Hsec Hpool.
  rewrite (getTheoryTableData_rows _ _ _ _ Hsec Hpool).
  rewrite Array_sort_elem_of, elem_of_flat_map. unfold subtopicRows. split.
  - intros (entry & Hentry & (theoryName & Hname & Hrow)%list_elem_of_omap).
    destruct (resolveTheory clusterTheories theoryName) as [resolved|] eqn:E;
      [|done].
    injection Hrow as <-. by exists entry, theoryName, resolved.
  - intros (entry & theoryName & resolved & Hentry & Hname & Hres & ->).
    exists entry. split; [done|]. apply list_elem_of_omap.
    exists theoryName. split; [done|]. by rewrite Hres.
Qed.

Lemma resolveTheory_specResolves clusterTheories theoryName k d :
  resolveTheory clusterTheories theoryName = Some (k, d) ->
  specResolves clusterTheories theoryName k /\ get clusterTheories k = Some d.
Proof.
  unfold resolveTheory, specResolves.
  destruct (get clusterTheories theoryName) as [d'|] eqn:Hexact.
  - intros [= <- <-]. split; [|done]. split; [|by left].
    apply get_is_Some_iff. by eexists.
  - destruct (lastNormalized _ _) as [k'|] eqn:Hlast; [|done].
    destruct (truthy k'); [|done].
    destruct (get clusterTheories k') as [d'|] eqn:Hk'; [|done].
    simpl. intros [= <- <-]. split; [|done].
    apply lastNormalized_Some in Hlast as (l1 & l2 & Hkeys & Hnorm & _).
    split; [apply get_is_Some_iff; by eexists|].
    right. split; [by apply get_None_iff|done].
Qed.

Lemma specResolves_resolveTheory clusterTheories theoryName k :
  specResolves clusterTheories theoryName k ->
  is_Some (resolveTheory clusterTheories theoryName) \/
  ((theoryName ∉ clusterTheories.*1) /\
   lastNormalized clusterTheories (normalizeTheoryName theoryName) = Some "").
Proof.
  unfold specResolves, resolveTheory. intros [Hk [->|[Habsent Hnorm]]].
  - left. apply get_is_Some_iff in Hk as [d ->]. by eexists.
  - pose proof Habsent as Hnone. apply get_None_iff in Hnone. rewrite Hnone.
    destruct (lastNormalized clusterTheories (normalizeTheoryName theoryName))
      as [k'|] eqn:Hlast.
    + destruct (truthy k') eqn:Htruthy.
      * left. apply lastNormalized_Some in Hlast as (l1 & l2 & Hkeys & _).
        assert (k' ∈ clusterTheories.*1) as Hk'
          by (rewrite Hkeys; apply elem_of_app; right; left).
        apply get_is_Some_iff in Hk' as [d ->]. by eexists.
      * right. split; [done|]. f_equal.
        apply not_true_iff_false in Htruthy. rewrite truthy_true_iff in Htruthy.
        by apply dec_stable in Htruthy.
    + apply lastNormalized_None in Hlast.
      eapply Forall_forall in Hlast; [|exact Hk]. done.
Qed.

(** C3, as the code has it.  For subtopics whose theory names are keys of
    the pool or not names of inherited properties, the table holds exactly
    the rows of the theory names that resolve.  A name the pool has resolves
    to its own entry; a name the pool lacks resolves to the pool theory with
    the same normalised name (lower-cased, trailing [theories] turned into
    [theory], leading [mental ] removed), the last declared one when there
    are several, unless that theory's name is empty; a name that matches in
    neither way resolves to nothing and has no row.  What a name resolves to
    answers it in the specification's sense, and a name with an answer
    resolves unless the last pool name of its normal form is the empty
    one. *)
Theorem theory_name_resolution (st : State) (psychClusterId : string)
    (secondaryClusterData : list (string * SecondaryCluster))
    (clusterTheories : ClusterTheories) :
  let clusterKey :=
    "Cluster " +:+ Number_toString (getClusterNumber psychClusterId) in
  get (secondaryClusters st) clusterKey = Some secondaryClusterData ->
  get (theoryPool st) clusterKey = Some clusterTheories ->
  plainNames clusterTheories secondaryClusterData ->
  getTheoryTableData st psychClusterId
    ≡ₚ flat_map (subtopicRows clusterTheories) secondaryClusterData /\
  (forall theoryName d,
     get clusterTheories theoryName = Some d ->
     resolveTheory clusterTheories theoryName = Some (theoryName, d)) /\
  (forall theoryName l1 k l2 d,
     theoryName ∉ clusterTheories.*1 ->
     clusterTheories.*1 = l1 ++ k :: l2 ->
     normalizeTheoryName k = normalizeTheoryName theoryName ->
     Forall (fun k' => normalizeTheoryName k' <> normalizeTheoryName theoryName) l2 ->
     k <> "" ->
     get clusterTheories k = Some d ->
     resolveTheory clusterTheories theoryName = Some (k, d)) /\
  (forall theoryName,
     theoryName ∉ clusterTheories.*1 ->
     Forall (fun k => normalizeTheoryName k <> normalizeTheoryName theoryName)
            clusterTheories.*1 ->
     resolveTheory clusterTheories theoryName = None) /\
  (forall theoryName k d,
     resolveTheory clusterTheories theoryName = Some (k, d) ->
     specResolves clusterTheories theoryName k /\ get clusterTheories k = Some d) /\
  (forall theoryName k,
     specResolves clusterTheories theoryName k ->
     is_Some (resolveTheory clusterTheories theoryName) \/
     ((theoryName ∉ clusterTheories.*1) /\
      lastNormalized clusterTheories (normalizeTheoryName theoryName) = Some "")) /\
  (forall theoryName,
     theoryName ∉ clusterTheories.*1 ->
     lastNormalized clusterTheories (normalizeTheoryName theoryName) = Some "" ->
     resolveTheory clusterTheories theoryName = None) /\
  normalizeTheoryName "Mental Schema Theories" = normalizeTheoryName "Schema Theory".
Proof.
  intros clusterKey Hsec Hpool _. split; [|split; [|split; [|split; [|split; [|split; [|split]]]]]].
  - rewrite (getTheoryTableData_rows _ _ _ _ Hsec Hpool).
    apply Array_sort_Permutation.
  - intros theoryName d. apply resolveTheory_exact.
  - intros theoryName l1 k l2 d Habsent%get_None_iff Hkeys Hnorm Hlast Hk Hget.
    apply resolveTheory_fallback; [done| |done..].
    apply lastNormalized_Some. by exists l1, l2.
  - intros theoryName Habsent%get_None_iff Hnone.
    apply resolveTheory_unmatched; [done|]. by apply lastNormalized_None.
  - intros theoryName k d. apply resolveTheory_specResolves.
  - intros theoryName k. apply specResolves_resolveTheory.
  - intros theoryName Habsent%get_None_iff Hlast. unfold resolveTheory.
    by rewrite Habsent, Hlast.
  - vm_compute. reflexivity.
Qed.

Lemma theory_name_resolution_witness :
  getTheoryTableData Sample.state "Cluster 0"
    ≡ₚ flat_map (subtopicRows Sample.pool0) Sample.subtopics0 /\
  resolveTheory Sample.pool0 "D" = Some ("D", mkTheoryData 1 []) /\
  resolveTheory Sample.pool0 "Mental Schema Theories"
    = Some ("Schema Theory",
            mkTheoryData 10 ["Title One"; "An Orphan Title"]) /\
  resolveTheory Sample.pool0 "Unknown" = None.
Proof.
  assert (Hplain : plainNames Sample.pool0 Sample.subtopics0).
  { intros entry theoryName Hentry Hname.
    repeat (apply elem_of_cons in Hentry as [->|Hentry]);
      [..|by apply elem_of_nil in Hentry];
      repeat (apply elem_of_cons in Hname as [->|Hname]);
      try (by apply elem_of_nil in Hname); by vm_compute. }
  destruct (theory_name_resolution Sample.state "Cluster 0"
              Sample.subtopics0 Sample.pool0 eq_refl eq_refl Hplain)
    as (Hrows & Hexact & Hfallback & Hdrop & _).
  split; [exact Hrows|]. split; [by apply Hexact|]. split.
  - apply (Hfallback "Mental Schema Theories" [] "Schema Theory" ["B"; "C"; "D"]).
    + apply get_None_iff. reflexivity.
    + reflexivity.
    + vm_compute. reflexivity.
    + repeat constructor; vm_compute; discriminate.
    + discriminate.
    + reflexivity.
  - apply Hdrop.
    + apply get_None_iff. reflexivity.
    + repeat constructor; vm_compute; discriminate.
Defined.

(** The claim as the specification words it fails: the pool theory named by
    the empty string has the normal form of the subtopic's name [Mental ],
    which the pool lacks, and the table has no row for it. *)
Lemma empty_pool_name_not_resolved :
  let pool := [("", mkTheoryData 7 [])] in
  let st := loadData Sample.llmTopics Sample.psychTopics [("Cluster 0", pool)]
              [("Cluster 0",
                [("Cluster 0", mkSecondaryCluster 1 "schemas" ["Mental "])])]
              (Some Sample.infos) (Some Sample.papers) (Some Sample.refs) in
  get pool "Mental " = None /\
  normalizeTheoryName "" = normalizeTheoryName "Mental " /\
  specResolves pool "Mental " "" /\
  getTheoryTableData st "Cluster 0" = [].
Proof.
  simpl. split; [reflexivity|]. split; [vm_compute; reflexivity|]. split.
  - split; [left|]. right. split; [|vm_compute; reflexivity].
    apply get_None_iff. reflexivity.
  - vm_compute. reflexivity.
Qed.



(** ** The top three theories *)

Lemma Array_sort_ext {A : Type} (cmp1 cmp2 : A -> A -> Z) (l : list A) :
  (forall a b, cmp1 a b = cmp2 a b) -> Array_sort cmp1 l = Array_sort cmp2 l.
Proof.
  intros Hcmp. unfold Array_sort. induction l as [|x l IH]; simpl; [done|].
  rewrite IH. generalize (foldr (sort_insert cmp2) [] l). intros s.
  induction s as [|y s IHs]; simpl; [done|]. by rewrite Hcmp, IHs.
Qed.
















Lemma getTopTheories_length clusterTheories n :
  length (getTopTheories clusterTheories n) = min n (length clusterTheories).
Proof.
  unfold getTopTheories.
  by rewrite length_take, Array_sort_length, length_map.
Qed.




(** * Further properties of the code *)

Import HookNodes BipartiteGraph CitationLineChart DashboardViews.

(** ** The title index of [loadData] *)

(** The keys of the title index are the title keys of the reference records
    that have a non-empty title and a non-empty ID, and a later record of a
    key replaces the ID of an earlier one. *)
Theorem buildTitleMap_keys (refs : list RefInfo) :
  (forall key,
     is_Some (buildTitleMap (Some refs) !! key) <->
     exists title pid, mkRefInfo (Some title) (Some pid) ∈ refs /\
                       titleKey title = key /\ title <> "" /\ pid <> "") /\
  (forall title pid,
     title <> "" -> pid <> "" ->
     buildTitleMap (Some (refs ++ [mkRefInfo (Some title) (Some pid)]))
       !! titleKey title = Some pid).
Proof.
  split.
  - intros key. split.
    + intros [pid Hpid]. apply buildTitleMap_lookup in Hpid as (title & ?).
      by exists title, pid.
    + intros (title & pid & Hin & <- & Htitle & Hpid).
      by eapply buildTitleMap_is_Some.
  - intros title pid Htitle%truthy_true_iff Hpid%truthy_true_iff.
    unfold buildTitleMap. simpl. rewrite foldl_app. simpl.
    rewrite Htitle, Hpid. simpl. apply lookup_insert_eq.
Qed.

Lemma buildTitleMap_keys_witness :
  buildTitleMap (Some (Sample.refs ++ [mkRefInfo (Some "Title ONE") (Some "q9")]))
    !! "title one" = Some "q9".
Proof.
  destruct (buildTitleMap_keys Sample.refs) as [_ Hlast].
  apply (Hlast "Title ONE" "q9"); discriminate.
Defined.

(** ** Nodes and edges of the graph *)

Lemma prefixed_ne (a b : string) : "LLM-" +:+ a <> "Psych-" +:+ b.
Proof. cbv [String.app String.append]. discriminate. Qed.

Lemma node_ids getClusterLabel st :
  node_id <$> getBipartiteNodes getClusterLabel st
    = (String.app "LLM-" <$> (llmClusters st).*1)
      ++ (String.app "Psych-" <$> (psychClusters st).*1).
Proof.
  unfold getBipartiteNodes. rewrite fmap_app, <- !list_fmap_compose.
  f_equal; apply list_fmap_ext; by intros _ [key cluster] _.
Qed.

(** The node list has one node per topic, the LLM topics first and in the
    order of their relation, then the Psychology topics in theirs; the node
    of a topic carries its prefixed key as id, its label, its side, the
    number of its key and its size.  With distinct keys in each relation no
    two nodes share an id: the prefixes keep the two sides apart. *)
Theorem getBipartiteNodes_distinct_ids
    (getClusterLabel : string -> ClusterKind -> string) (st : State) :
  (forall i key cluster,
     llmClusters st !! i = Some (key, cluster) ->
     getBipartiteNodes getClusterLabel st !! i
       = Some (mkNode ("LLM-" +:+ key) (getClusterLabel key llm) llm
                      (getClusterNumber key) (cluster_size cluster))) /\
  (forall j key cluster,
     psychClusters st !! j = Some (key, cluster) ->
     getBipartiteNodes getClusterLabel st !! (length (llmClusters st) + j)%nat
       = Some (mkNode ("Psych-" +:+ key) (getClusterLabel key psych) psych
                      (getClusterNumber key) (cluster_size cluster))) /\
  length (getBipartiteNodes getClusterLabel st)
    = (length (llmClusters st) + length (psychClusters st))%nat /\
  (NoDup (llmClusters st).*1 -> NoDup (psychClusters st).*1 ->
   NoDup (node_id <$> getBipartiteNodes getClusterLabel st)).
Proof.
  split; [|split; [|split]].
  - intros i key cluster Hi. unfold getBipartiteNodes.
    rewrite lookup_app_l by (rewrite length_fmap; by eapply lookup_lt_Some).
    by rewrite list_lookup_fmap, Hi.
  - intros j key cluster Hj. unfold getBipartiteNodes.
    rewrite lookup_app_r by (rewrite length_fmap; lia).
    rewrite length_fmap.
    replace (length (llmClusters st) + j - length (llmClusters st))%nat
      with j by lia.
    by rewrite list_lookup_fmap, Hj.
  - unfold getBipartiteNodes. by rewrite length_app, !length_fmap.
  - intros Hllm Hpsych. rewrite node_ids. apply NoDup_app. split; [|split].
    + by apply (NoDup_fmap_2 _).
    + intros id (a & -> & _)%list_elem_of_fmap (b & Heq & _)%list_elem_of_fmap.
      by apply prefixed_ne in Heq.
    + by apply (NoDup_fmap_2 _).
Qed.

Lemma getBipartiteNodes_distinct_ids_witness :
  getBipartiteNodes Sample.label Sample.state !! 2%nat
    = Some (mkNode "Psych-Cluster 0" "Psych Cluster 0" psych 0 2) /\
  NoDup (node_id <$> getBipartiteNodes Sample.label Sample.state).
Proof.
  destruct (getBipartiteNodes_distinct_ids Sample.label Sample.state)
    as (_ & Hpsych & _ & Hnd).
  split.
  - apply (Hpsych 0%nat "Cluster 0"
             (mkCluster 2 "learning" [Sample.doc "q1"; Sample.doc "q2"])).
    reflexivity.
  - apply Hnd; vm_compute; repeat (constructor; [set_solver|]); constructor.
Defined.

Lemma elem_of_getBipartiteEdges st e :
  e ∈ getBipartiteEdges st <->
  exists llmEntry psychEntry,
    llmEntry ∈ llmClusters st /\ psychEntry ∈ psychClusters st /\
    e ∈ topicEdge (citationPairs (default [] (filteredPapers st)))
                  llmEntry psychEntry.
Proof.
  rewrite getBipartiteEdges_flat_map, elem_of_flat_map. split.
  - intros (llmEntry & Hllm & (psychEntry & Hpsych & He)%elem_of_flat_map).
    by exists llmEntry, psychEntry.
  - intros (llmEntry & psychEntry & Hllm & Hpsych & He).
    exists llmEntry. split; [done|]. apply elem_of_flat_map. by exists psychEntry.
Qed.

Lemma elem_of_topicEdge pairs llmEntry psychEntry e :
  e ∈ topicEdge pairs llmEntry psychEntry ->
  source e = "LLM-" +:+ llmEntry.1 /\ target e = "Psych-" +:+ psychEntry.1 /\
  weight e = edgeWeight llmEntry.2 psychEntry.2 pairs.
Proof.
  unfold topicEdge. case_bool_decide; [by intros ?%elem_of_nil|].
  by intros ->%list_elem_of_singleton.
Qed.

(** Every edge runs from the node of an LLM topic to the node of a
    Psychology topic: the graph component finds both end points in the node
    list. *)
Theorem edges_join_nodes
    (getClusterLabel : string -> ClusterKind -> string) (st : State)
    (e : BipartiteEdge) :
  e ∈ getBipartiteEdges st ->
  exists from to,
    from ∈ getBipartiteNodes getClusterLabel st /\
    to ∈ getBipartiteNodes getClusterLabel st /\
    node_id from = source e /\ node_type from = llm /\
    node_id to = target e /\ node_type to = psych.
Proof.
  intros ([lk lc] & [pk pc] & Hllm & Hpsych & He)%elem_of_getBipartiteEdges.
  apply elem_of_topicEdge in He as (Hs & Ht & _). simpl in *.
  exists (mkNode ("LLM-" +:+ lk) (getClusterLabel lk llm) llm
                 (getClusterNumber lk) (cluster_size lc)),
         (mkNode ("Psych-" +:+ pk) (getClusterLabel pk psych) psych
                 (getClusterNumber pk) (cluster_size pc)).
  unfold getBipartiteNodes. rewrite !elem_of_app, !list_elem_of_fmap.
  split; [left; by exists (lk, lc)|].
  split; [right; by exists (pk, pc)|]. done.
Qed.

Lemma edges_join_nodes_witness :
  exists from to,
    from ∈ getBipartiteNodes Sample.label Sample.state /\
    to ∈ getBipartiteNodes Sample.label Sample.state /\
    node_id from = "LLM-Cluster 1" /\ node_type from = llm /\
    node_id to = "Psych-Cluster 0" /\ node_type to = psych.
Proof.
  apply (edges_join_nodes Sample.label Sample.state
           (mkEdge "LLM-Cluster 1" "Psych-Cluster 0" 1)).
  vm_compute. do 2 right. left.
Defined.

Lemma fmap_flat_map {A B C : Type} (g : B -> C) (f : A -> list B) (l : list A) :
  g <$> flat_map f l = flat_map (fun x => g <$> f x) l.
Proof.
  induction l as [|x l IH]; simpl; [done|]. by rewrite fmap_app, IH.
Qed.

Lemma length_flat_map_le {A B : Type} (f : A -> list B) (l : list A) (k : nat) :
  (forall x, (length (f x) <= k)%nat) ->
  (length (flat_map f l) <= length l * k)%nat.
Proof.
  intros Hf. induction l as [|x l IH]; simpl; [lia|].
  rewrite length_app. specialize (Hf x). lia.
Qed.

(** Lists that carry the key of the element they come from do not overlap
    when the keys are distinct. *)
Lemma NoDup_flat_map_keyed {A B K : Type} (key : A -> K) (tag : B -> K)
    (f : A -> list B) (l : list A) :
  NoDup (key <$> l) ->
  (forall x, NoDup (f x)) ->
  (forall x y, y ∈ f x -> tag y = key x) ->
  NoDup (flat_map f l).
Proof.
  intros Hkeys Hf Htag. induction l as [|x l IH]; simpl; [constructor|].
  rewrite fmap_cons in Hkeys. apply NoDup_cons in Hkeys as [Hx Hkeys].
  apply NoDup_app. split; [apply Hf|]. split; [|by apply IH].
  intros y Hy (x' & Hx' & Hy')%elem_of_flat_map. apply Hx.
  apply list_elem_of_fmap. exists x'. split; [|done].
  by rewrite <- (Htag x y Hy), (Htag x' y Hy').
Qed.

Lemma topicEdge_short pairs llmEntry psychEntry :
  (length (topicEdge pairs llmEntry psychEntry) <= 1)%nat.
Proof. unfold topicEdge. case_bool_decide; simpl; lia. Qed.

(** There is at most one edge for a pair of topics: the edge list is no
    longer than the number of pairs, and with distinct keys in each relation
    no two edges have the same two ends. *)
Theorem getBipartiteEdges_one_per_pair (st : State) :
  (length (getBipartiteEdges st)
     <= length (llmClusters st) * length (psychClusters st))%nat /\
  (NoDup (llmClusters st).*1 -> NoDup (psychClusters st).*1 ->
   NoDup (ends <$> getBipartiteEdges st)).
Proof.
  rewrite getBipartiteEdges_flat_map.
  set (pairs := citationPairs (default [] (filteredPapers st))). split.
  - apply length_flat_map_le. intros llmEntry.
    etrans; [apply length_flat_map_le, topicEdge_short|]. lia.
  - intros Hllm Hpsych. rewrite fmap_flat_map.
    apply (NoDup_flat_map_keyed
             (fun llmEntry : string * Cluster => "LLM-" +:+ llmEntry.1) fst).
    + replace ((fun llmEntry : string * Cluster => "LLM-" +:+ llmEntry.1)
                 <$> llmClusters st)
        with (String.append "LLM-" <$> (llmClusters st).*1)
        by (by rewrite <- list_fmap_compose).
      by apply (NoDup_fmap_2 _).
    + intros llmEntry. rewrite fmap_flat_map.
      apply (NoDup_flat_map_keyed
               (fun psychEntry : string * Cluster => "Psych-" +:+ psychEntry.1) snd).
      * replace ((fun psychEntry : string * Cluster => "Psych-" +:+ psychEntry.1)
                   <$> psychClusters st)
          with (String.append "Psych-" <$> (psychClusters st).*1)
          by (by rewrite <- list_fmap_compose).
        by apply (NoDup_fmap_2 _).
      * intros psychEntry. unfold topicEdge.
        case_bool_decide; simpl; [constructor|apply NoDup_singleton].
      * intros psychEntry y (e & -> & He)%list_elem_of_fmap.
        by apply elem_of_topicEdge in He as (_ & ? & _).
    + intros llmEntry y (e & -> & He)%list_elem_of_fmap.
      apply elem_of_flat_map in He as (psychEntry & _ & He).
      by apply elem_of_topicEdge in He as (? & _).
Qed.

Lemma getBipartiteEdges_one_per_pair_witness :
  NoDup (ends <$> getBipartiteEdges Sample.state).
Proof.
  destruct (getBipartiteEdges_one_per_pair Sample.state) as [_ Hnd].
  apply Hnd; vm_compute; repeat (constructor; [set_solver|]); constructor.
Defined.

(** ** The order of the theory table *)

Lemma compareRows_rowBefore subtopicOrder a b :
  compareRows subtopicOrder a b <= 0 <-> rowBefore subtopicOrder a b.
Proof.
  unfold compareRows, rowBefore, rowRank. case_bool_decide; lia.
Qed.

Lemma subtopicOrder_fold_keep (label : string)
    (indexed : list (nat * (string * SecondaryCluster))) (acc : gmap string Z) :
  label ∉ (fun x : nat * (string * SecondaryCluster) => sub_topic x.2.2)
            <$> indexed ->
  foldl (fun m '(index, (_, subCluster)) =>
           <[sub_topic subCluster := Z.of_nat index]> m) acc indexed
    !! label = acc !! label.
Proof.
  revert acc. induction indexed as [|[index [key sub]] indexed IH];
    intros acc Hnotin; [done|].
  rewrite fmap_cons in Hnotin. apply not_elem_of_cons in Hnotin as [Hne Hnotin].
  cbn [foldl]. rewrite IH by done. by apply lookup_insert_ne.
Qed.

Lemma buildSubtopicOrder_lookup_from (k : nat)
    (entries : list (string * SecondaryCluster)) (acc : gmap string Z)
    (i : nat) (entry : string * SecondaryCluster) :
  NoDup ((fun e : string * SecondaryCluster => sub_topic e.2) <$> entries) ->
  entries !! i = Some entry ->
  foldl (fun m '(index, (_, subCluster)) =>
           <[sub_topic subCluster := Z.of_nat index]> m)
        acc (imap (fun index e => ((k + index)%nat, e)) entries)
    !! sub_topic entry.2 = Some (Z.of_nat (k + i)).
Proof.
  revert k acc i. induction entries as [|[key sub] entries IH];
    intros k acc i Hnd Hi; [done|].
  rewrite fmap_cons in Hnd. apply NoDup_cons in Hnd as [Hfresh Hnd].
  rewrite imap_cons. cbn [foldl].
  rewrite (imap_ext _ (fun index e => ((S k + index)%nat, e)))
    by (intros; simpl; f_equal; lia).
  destruct i as [|i]; cbn [lookup list_lookup] in Hi.
  - injection Hi as <-. rewrite subtopicOrder_fold_keep.
    + replace (k + 0)%nat with k by lia. apply lookup_insert_eq.
    + rewrite fmap_imap. intros (j & x & Heq & Hx)%elem_of_lookup_imap.
      apply Hfresh. apply list_elem_of_fmap. exists x.
      split; [exact Heq|]. by eapply list_elem_of_lookup_2.
  - rewrite (IH (S k) _ i Hnd Hi). f_equal. lia.
Qed.



(** ** The end of the time series *)

Lemma sumZ_Permutation (l1 l2 : list Z) : l1 ≡ₚ l2 -> sumZ l1 = sumZ l2.
Proof.
  unfold sumZ. induction 1; simpl; lia.
Qed.

Lemma mapTotal_insert_fresh (m : gmap string Z) k v :
  m !! k = None -> mapTotal (<[k := v]> m) = v + mapTotal m.
Proof.
  intros Hk. unfold mapTotal.
  rewrite (sumZ_Permutation _ (((k, v) :: map_to_list m).*2)); [done|].
  by rewrite (map_to_list_insert m k v Hk).
Qed.

Lemma mapTotal_bump (m : gmap string Z) k n :
  mapTotal (bump m k n) = mapTotal m + n.
Proof.
  unfold bump. destruct (m !! k) as [v|] eqn:Hk; simpl.
  - rewrite <- (insert_delete_id m k v Hk) at 2.
    rewrite <- insert_delete_eq.
    rewrite !mapTotal_insert_fresh by apply lookup_delete_eq. lia.
  - rewrite mapTotal_insert_fresh by done. lia.
Qed.

Lemma mapTotal_keys (m : gmap string Z) :
  sumZ ((fun k => default 0 (m !! k)) <$> (map_to_list m).*1) = mapTotal m.
Proof.
  unfold mapTotal. f_equal. rewrite <- list_fmap_compose.
  apply list_fmap_ext. intros i [k v] Hi%list_elem_of_lookup_2.
  apply elem_of_map_to_list in Hi. simpl. by rewrite Hi.
Qed.

Lemma cumulativeSeries_last (monthCounts : gmap string Z) pt :
  last (cumulativeSeries monthCounts) = Some pt ->
  point_citations pt = mapTotal monthCounts.
Proof.
  unfold cumulativeSeries. rewrite last_lookup, runningTotals_length.
  intros [Hm ->]%runningTotals_lookup.
  set (sortedMonths := Array_sort compareStrings (Object_keys monthCounts)) in *.
  assert (length sortedMonths <> 0%nat) as Hlen.
  { intros Hz. rewrite Hz in Hm. simpl in Hm.
    apply lookup_lt_Some in Hm. lia. }
  rewrite take_ge by lia.
  rewrite <- mapTotal_keys. rewrite Z.add_0_l. apply sumZ_Permutation.
  apply fmap_Permutation, Array_sort_Permutation.
Qed.

Lemma mapTotal_countPaper paperIds papersInfoArray (acc : gmap string Z) :
  mapTotal (foldl (countPaper paperIds) acc papersInfoArray)
    = mapTotal acc + Z.of_nat (length (resolvedMonths paperIds papersInfoArray)).
Proof.
  unfold resolvedMonths. revert acc.
  induction papersInfoArray as [|paper l IH]; intros acc; csimpl; [lia|].
  rewrite IH, countPaper_paperMonth.
  destruct (paperMonth paperIds paper) as [m|]; csimpl; [|lia].
  rewrite mapTotal_bump. lia.
Qed.

Lemma monthCount_Permutation m l1 l2 : l1 ≡ₚ l2 -> monthCount m l1 = monthCount m l2.
Proof. intros H. unfold monthCount. by rewrite H. Qed.

Lemma monthCounts_Permutation paperIds (l1 l2 : list PaperInfo) :
  l1 ≡ₚ l2 ->
  foldl (countPaper paperIds) ∅ l1 = foldl (countPaper paperIds) ∅ l2.
Proof.
  intros Hperm. apply map_eq. intros m.
  assert (resolvedMonths paperIds l1 ≡ₚ resolvedMonths paperIds l2) as Hmonths.
  { unfold resolvedMonths. by rewrite Hperm. }
  destruct (monthCounts_lookup paperIds l1 ∅ m) as [Hv1 Hk1].
  destruct (monthCounts_lookup paperIds l2 ∅ m) as [Hv2 Hk2].
  rewrite (monthCount_Permutation _ _ _ Hmonths) in Hv1. rewrite <- Hv2 in Hv1.
  assert (is_Some (foldl (countPaper paperIds) ∅ l1 !! m) <->
          is_Some (foldl (countPaper paperIds) ∅ l2 !! m)) as Hk.
  { rewrite Hk1, Hk2. by rewrite Hmonths. }
  destruct (foldl (countPaper paperIds) ∅ l1 !! m) as [v1|] eqn:E1,
           (foldl (countPaper paperIds) ∅ l2 !! m) as [v2|] eqn:E2;
    simpl in *; [by subst | | | done].
  - destruct Hk as [Hk _]. by destruct Hk.
  - destruct Hk as [_ Hk]. by destruct Hk.
Qed.

(** The time series ends at the number of paper-info records it counted (the
    records of the series' papers that resolve to a month), and it does not
    depend on the order of the paper-info relation. *)
Theorem getCitationTimeSeries_total (st st' : State)
    (llmClusterId : option string) (papersInfoArray papersInfoArray' : list PaperInfo) :
  papersInfo st = Some papersInfoArray ->
  (forall pt, last (getCitationTimeSeries st llmClusterId) = Some pt ->
     point_citations pt =
       Z.of_nat (length (resolvedMonths (seriesPaperIds st llmClusterId)
                                        papersInfoArray))) /\
  (llmClusters st' = llmClusters st ->
   papersInfo st' = Some papersInfoArray' ->
   papersInfoArray' ≡ₚ papersInfoArray ->
   getCitationTimeSeries st' llmClusterId = getCitationTimeSeries st llmClusterId).
Proof.
  intros Hinfo. unfold getCitationTimeSeries. rewrite Hinfo. split.
  - intros pt ->%cumulativeSeries_last. rewrite mapTotal_countPaper.
    unfold mapTotal. by rewrite map_to_list_empty.
  - intros Hllm -> Hperm.
    replace (seriesPaperIds st' llmClusterId) with (seriesPaperIds st llmClusterId)
      by (unfold seriesPaperIds; by rewrite Hllm).
    by rewrite (monthCounts_Permutation _ _ _ Hperm).
Qed.

Lemma getCitationTimeSeries_total_witness :
  point_citations (mkPoint "2023-10" 3) =
    Z.of_nat (length (resolvedMonths (seriesPaperIds Sample.state None)
                                     Sample.infos)) /\
  getCitationTimeSeries
    (loadData Sample.llmTopics Sample.psychTopics Sample.theoryPools
              Sample.subtopics (Some (reverse Sample.infos))
              (Some Sample.papers) (Some Sample.refs)) None
  = getCitationTimeSeries Sample.state None.
Proof.
  destruct (getCitationTimeSeries_total Sample.state
              (loadData Sample.llmTopics Sample.psychTopics Sample.theoryPools
                        Sample.subtopics (Some (reverse Sample.infos))
                        (Some Sample.papers) (Some Sample.refs))
              None Sample.infos (reverse Sample.infos) eq_refl)
    as [Hlast Horder].
  split.
  - apply Hlast. vm_compute. reflexivity.
  - apply Horder; [reflexivity|reflexivity|apply reverse_Permutation].
Defined.

(** ** The series of the comparison chart *)

Lemma sumZ_take_bounds (l : list Z) (i : nat) :
  Forall (fun v => 0 < v) l -> l <> [] ->
  0 < sumZ (take (S i) l) <= sumZ l.
Proof.
  intros Hpos Hne. destruct l as [|v l]; [done|]. clear Hne.
  apply Forall_cons in Hpos as [Hv Hpos]. unfold sumZ. cbn [take foldr].
  enough (0 <= foldr Z.add 0 (take i l) <= foldr Z.add 0 l) by lia.
  clear v Hv. revert i. induction Hpos as [|v l Hv Hpos IH]; intros i.
  - by rewrite take_nil.
  - destruct i as [|i]; simpl.
    + specialize (IH 0%nat). rewrite take_0 in IH. simpl in IH. lia.
    + specialize (IH i). lia.
Qed.

Lemma cumulativeSeries_bounds (monthCounts : gmap string Z) :
  (forall k v, monthCounts !! k = Some v -> 0 < v) ->
  Forall (fun pt => 0 < point_citations pt <= mapTotal monthCounts)
         (cumulativeSeries monthCounts).
Proof.
  intros Hpos. apply Forall_lookup. intros i pt.
  unfold cumulativeSeries. intros [Hm ->]%runningTotals_lookup.
  set (sortedMonths := Array_sort compareStrings (Object_keys monthCounts)) in *.
  rewrite Z.add_0_l, fmap_take.
  replace (mapTotal monthCounts)
    with (sumZ ((fun m => default 0 (monthCounts !! m)) <$> sortedMonths)).
  - apply sumZ_take_bounds.
    + apply Forall_forall. intros v (k & -> & Hk)%list_elem_of_fmap.
      apply Array_sort_elem_of, elem_of_Object_keys in Hk as [v Hv].
      rewrite Hv. simpl. by eapply Hpos.
    + intros Hnil%fmap_nil_inv. by rewrite Hnil in Hm.
  - rewrite <- mapTotal_keys. apply sumZ_Permutation.
    apply fmap_Permutation, Array_sort_Permutation.
Qed.

Lemma countPaperCitations_pos llmPaperIds psychPaperIds papersInfoMap papers :
  forall acc : gmap string Z,
  (forall k v, acc !! k = Some v -> 0 < v) ->
  forall k v,
    foldl (countPaperCitations llmPaperIds psychPaperIds papersInfoMap) acc papers
      !! k = Some v -> 0 < v.
Proof.
  induction papers as [|paper papers IH]; intros acc Hacc; simpl; [done|].
  apply IH. unfold countPaperCitations.
  destruct (negb _); [done|].
  destruct (inferMonth _) as [m|]; [|done].
  destruct (negb _); [done|].
  destruct (references paper) as [refs|]; [|done].
  case_bool_decide; [|done]. intros k v. unfold bump. rewrite lookup_insert.
  case_decide; [|apply Hacc]. intros [= <-].
  destruct (acc !! m) eqn:E; simpl; [|lia].
  apply Hacc in E. lia.
Qed.

Lemma countPaperCitations_total llmPaperIds psychPaperIds papersInfoMap papers :
  forall acc : gmap string Z,
    mapTotal (foldl (countPaperCitations llmPaperIds psychPaperIds papersInfoMap)
                    acc papers)
      <= mapTotal acc + crossing llmPaperIds psychPaperIds (citationPairs papers).
Proof.
  induction papers as [|paper papers IH]; intros acc; simpl.
  - rewrite crossing_nil. lia.
  - etrans; [apply IH|]. rewrite crossing_app, crossing_of_paper.
    pose proof (crossing_nonneg llmPaperIds psychPaperIds (citationPairs papers)).
    enough (mapTotal (countPaperCitations llmPaperIds psychPaperIds
                        papersInfoMap acc paper)
            <= mapTotal acc +
               (if bool_decide (paperId paper ∈ llmPaperIds)
                then Z.of_nat (length (filter (fun ref => ref_paperId ref ∈ psychPaperIds)
                                              (default [] (references paper))))
                else 0)) by lia.
    unfold countPaperCitations.
    case_bool_decide; simpl; [|lia].
    destruct (inferMonth _) as [m|]; [|lia].
    destruct (negb _); [lia|].
    destruct (references paper) as [refs|]; simpl; [|lia].
    case_bool_decide; [|lia]. rewrite mapTotal_bump, countRefs_filter. lia.
Qed.

(** Every series of the comparison chart belongs to a Psychology topic that
    the selected LLM topic has an edge to; the series is not empty, and each
    of its points is positive and at most the weight of that edge (citations
    of papers without a month are in the weight but in no point). *)
Theorem getMultiSeriesCitationData_within_edges
    (getClusterLabel : string -> ClusterKind -> string)
    (st : State) (llmClusterId : string) (series : Series) :
  series ∈ getMultiSeriesCitationData getClusterLabel st llmClusterId ->
  exists (psychEntry : string * Cluster) (e : BipartiteEdge),
    psychEntry ∈ psychClusters st /\
    psychTopic series = getClusterLabel psychEntry.1 psych /\
    psychCluster series = getClusterNumber psychEntry.1 /\
    e ∈ getBipartiteEdges st /\
    source e = "LLM-" +:+ llmClusterId /\
    target e = "Psych-" +:+ psychEntry.1 /\
    data series <> [] /\
    Forall (fun pt => 0 < point_citations pt <= weight e) (data series).
Proof.
  unfold getMultiSeriesCitationData.
  destruct (filteredPapers st) as [papers|] eqn:Hpapers; [|by intros ?%elem_of_nil].
  destruct (papersInfo st) as [papersInfoArray|]; [|by intros ?%elem_of_nil].
  destruct (get (llmClusters st) llmClusterId) as [llmCluster|] eqn:Hllm;
    [|by intros ?%elem_of_nil].
  set (seriesOf := fun entry : string * Cluster =>
    let monthCounts :=
      foldl (countPaperCitations (paperIdSet llmCluster) (paperIdSet entry.2)
                                 (buildPapersInfoMap papersInfoArray)) ∅ papers in
    if bool_decide (0 < length (cumulativeSeries monthCounts))%nat
    then [mkSeries (getClusterLabel entry.1 psych) (getClusterNumber entry.1)
                   (cumulativeSeries monthCounts)]
    else []).
  rewrite (foldl_push _ seriesOf).
  2:{ intros acc [psychKey psychCluster]. unfold seriesOf. simpl.
      case_bool_decide; [done|by rewrite app_nil_r]. }
  simpl. intros ([psychKey psychCluster] & Hpsych & Hin)%elem_of_flat_map.
  unfold seriesOf in Hin. simpl in Hin.
  case_bool_decide as Hlen; [|by apply elem_of_nil in Hin].
  apply list_elem_of_singleton in Hin as ->. simpl.
  set (monthCounts :=
    foldl (countPaperCitations (paperIdSet llmCluster) (paperIdSet psychCluster)
                               (buildPapersInfoMap papersInfoArray)) ∅ papers) in *.
  assert (Hbounds := cumulativeSeries_bounds monthCounts
    (countPaperCitations_pos _ _ _ papers ∅
       ltac:(intros k v; by rewrite lookup_empty))).
  assert (Htotal : mapTotal monthCounts
                   <= edgeWeight llmCluster psychCluster (citationPairs papers)).
  { rewrite <- crossing_edgeWeight. etrans; [apply countPaperCitations_total|].
    unfold mapTotal. rewrite map_to_list_empty. simpl. lia. }
  assert (Hne : cumulativeSeries monthCounts <> []).
  { intros Hnil. rewrite Hnil in Hlen. simpl in Hlen. lia. }
  set (w := edgeWeight llmCluster psychCluster (citationPairs papers)) in *.
  assert (Hw : 0 < w).
  { destruct (cumulativeSeries monthCounts) as [|pt l]; [done|].
    apply Forall_cons in Hbounds as [? _]. lia. }
  exists (psychKey, psychCluster),
         (mkEdge ("LLM-" +:+ llmClusterId) ("Psych-" +:+ psychKey) w).
  simpl. split; [done|]. do 2 (split; [done|]). split.
  - apply elem_of_getBipartiteEdges.
    exists (llmClusterId, llmCluster), (psychKey, psychCluster).
    split; [by apply get_Some_elem_of|]. split; [done|].
    rewrite Hpapers. unfold topicEdge. simpl. fold w.
    case_bool_decide; [lia|]. apply list_elem_of_singleton. done.
  - do 2 (split; [done|]). split; [done|].
    eapply Forall_impl; [exact Hbounds|]. simpl. intros. lia.
Qed.

Lemma getMultiSeriesCitationData_within_edges_witness :
  exists (psychEntry : string * Cluster) (e : BipartiteEdge),
    psychEntry ∈ psychClusters Sample.state /\
    "Psych Cluster 1" = Sample.label psychEntry.1 psych /\
    1 = getClusterNumber psychEntry.1 /\
    e ∈ getBipartiteEdges Sample.state /\
    source e = "LLM-Cluster 0" /\
    target e = "Psych-" +:+ psychEntry.1 /\
    [mkPoint "2023-10" 1] <> [] /\
    Forall (fun pt => 0 < point_citations pt <= weight e) [mkPoint "2023-10" 1].
Proof.
  apply (getMultiSeriesCitationData_within_edges Sample.label Sample.state
           "Cluster 0" (mkSeries "Psych Cluster 1" 1 [mkPoint "2023-10" 1])).
  vm_compute. right. left.
Defined.

(** ** Cluster numbers, theory names and the top theories *)

Lemma parseInt_from_string_of_uint (d : Decimal.uint) (acc : Z) :
  parseInt_from acc (NilEmpty.string_of_uint d)
    = acc * 10 ^ Z.of_N (DecimalPos.Unsigned.usize d)
      + Z.of_N (DecimalPos.Unsigned.of_lu (Decimal.rev d)).
Proof.
  revert acc.
  induction d as [|d IH|d IH|d IH|d IH|d IH|d IH|d IH|d IH|d IH|d IH]; intros acc;
    [simpl; lia|..];
    cbn [NilEmpty.string_of_uint parseInt_from DecimalPos.Unsigned.usize];
    rewrite IH; unfold Decimal.rev at 2; cbn [Decimal.revapp];
    rewrite DecimalPos.Unsigned.of_lu_revapp;
    cbn [DecimalPos.Unsigned.of_lu];
    rewrite N2Z.inj_add, N2Z.inj_mul, N2Z.inj_pow, N2Z.inj_succ,
            Z.pow_succ_r by lia;
    unfold digit_value; simpl; lia.
Qed.

Lemma take_digits_string_of_uint (d : Decimal.uint) :
  take_digits (NilEmpty.string_of_uint d) = NilEmpty.string_of_uint d.
Proof. induction d; simpl; by f_equal. Qed.


Lemma Number_toString_nonempty (n : Z) : Number_toString n <> "".
Proof.
  unfold Number_toString. destruct (Z.to_N n) as [|p]; [done|].
  simpl. pose proof (DecimalPos.Unsigned.to_uint_nonnil p) as Hnil.
  by destruct (Pos.to_uint p).
Qed.

Lemma parseInt_digits_Number_toString (n : Z) :
  0 <= n -> parseInt_digits (Number_toString n) = n.
Proof.
  intros Hn. unfold parseInt_digits, Number_toString.
  rewrite parseInt_from_string_of_uint, <- DecimalPos.Unsigned.of_uint_alt.
  change (Pos.of_uint (N.to_uint (Z.to_N n))) with (N.of_uint (N.to_uint (Z.to_N n))).
  rewrite DecimalN.Unsigned.of_to. lia.
Qed.

(** The number of a key [Cluster n] is [n] for the integers that numbers
    hold exactly ([n] below 2^53), and the node prefixes do not change the
    number of a key: a node id leads back to the number of its topic, also
    in the table component's copy of the function. *)
Theorem getClusterNumber_round_trip (n : Z) (key : string) :
  (0 <= n < 2 ^ 53 ->
   getClusterNumber ("Cluster " +:+ Number_toString n) = n) /\
  getClusterNumber ("LLM-" +:+ key) = getClusterNumber key /\
  getClusterNumber ("Psych-" +:+ key) = getClusterNumber key /\
  TheoryTable.getClusterNumber (Some ("Psych-" +:+ key)) = getClusterNumber key.
Proof.
  split; [|split; [|split]; reflexivity].
  intros [Hn _]. unfold getClusterNumber.
  assert (cluster_match ("Cluster " +:+ Number_toString n)
          = Some (parseInt_digits (Number_toString n))) as ->;
    [|by apply parseInt_digits_Number_toString].
  change (cluster_match ("Cluster " +:+ Number_toString n))
    with (match cluster_match_here ("Cluster " +:+ Number_toString n) with
          | Some m => Some m
          | None => cluster_match ("luster " +:+ Number_toString n)
          end).
  change (cluster_match_here ("Cluster " +:+ Number_toString n))
    with (if truthy (take_digits (Number_toString n))
          then Some (parseInt_digits (take_digits (Number_toString n)))
          else None).
  unfold Number_toString at 1 2. rewrite take_digits_string_of_uint.
  fold (Number_toString n).
  destruct (truthy (Number_toString n)) eqn:Htruthy.
  - done.
  - apply not_true_iff_false in Htruthy. rewrite truthy_true_iff in Htruthy.
    destruct Htruthy. apply Number_toString_nonempty.
Qed.

Lemma getClusterNumber_round_trip_witness :
  getClusterNumber ("Cluster " +:+ Number_toString 12) = 12.
Proof.
  destruct (getClusterNumber_round_trip 12 "Cluster 12") as [Hkey _].
  apply Hkey. lia.
Defined.

Lemma toLowerCase_app a b : toLowerCase (a +:+ b) = toLowerCase a +:+ toLowerCase b.
Proof. induction a as [|c a IH]; simpl; [done|]. by rewrite IH. Qed.

Lemma lower_char_idemp c : lower_char (lower_char c) = lower_char c.
Proof. by destruct c as [[] [] [] [] [] [] [] []]. Qed.

Lemma toLowerCase_idemp s : toLowerCase (toLowerCase s) = toLowerCase s.
Proof. induction s as [|c s IH]; simpl; [done|]. by rewrite lower_char_idemp, IH. Qed.

Lemma strip_prefix_all ci pat s :
  strip_prefix ci pat s = Some "" -> String.length s = String.length pat.
Proof.
  revert s. induction pat as [|p pat IH]; intros s; simpl.
  - by intros [= ->].
  - destruct s as [|c s]; [done|]. destruct (Ascii.eqb _ _); [|done].
    intros ?%IH. simpl. by f_equal.
Qed.

Lemma length_app_string a b :
  String.length (a +:+ b) = (String.length a + String.length b)%nat.
Proof. induction a as [|c a IH]; simpl; [done|]. by rewrite IH. Qed.

Lemma replace_trailing_theories_cons c s :
  replace_trailing_theories (String c s) =
    match strip_prefix true "theories" (String c s) with
    | Some EmptyString => "theory"
    | _ => String c (replace_trailing_theories s)
    end.
Proof. done. Qed.

Lemma replace_trailing_theories_plural a :
  replace_trailing_theories (a +:+ "theories") = a +:+ "theory".
Proof.
  induction a as [|c a IH]; [done|].
  change (String c a +:+ "theories") with (String c (a +:+ "theories")).
  change (String c a +:+ "theory") with (String c (a +:+ "theory")).
  rewrite replace_trailing_theories_cons, IH.
  destruct (strip_prefix true "theories" (String c (a +:+ "theories")))
    as [[|]|] eqn:E; [|done..].
  apply strip_prefix_all in E. simpl in E. rewrite length_app_string in E.
  simpl in E. lia.
Qed.

Lemma strip_prefix_theories_short c c2 :
  strip_prefix true "theories" (String c (String c2 "theory")) <> Some "".
Proof.
  change (strip_prefix true "theories" (String c (String c2 "theory")))
    with (if Ascii.eqb (fold_char "t") (fold_char c)
          then if Ascii.eqb (fold_char "h") (fold_char c2)
               then strip_prefix true "eories" "theory" else None
          else None).
  destruct (Ascii.eqb (fold_char "t") (fold_char c)); [|done].
  by destruct (Ascii.eqb (fold_char "h") (fold_char c2)).
Qed.

Lemma replace_trailing_theories_singular a :
  replace_trailing_theories (a +:+ "theory") = a +:+ "theory".
Proof.
  induction a as [|c a IH]; [done|].
  change (String c a +:+ "theory") with (String c (a +:+ "theory")).
  rewrite replace_trailing_theories_cons, IH.
  destruct (strip_prefix true "theories" (String c (a +:+ "theory")))
    as [[|]|] eqn:E; [|done..].
  exfalso. pose proof (strip_prefix_all _ _ _ E) as Hlen.
  simpl in Hlen. rewrite length_app_string in Hlen. simpl in Hlen.
  destruct a as [|c2 [|]]; simpl in Hlen; try lia.
  by apply strip_prefix_theories_short in E.
Qed.

(** A name that ends in [Theories] and the same name ending in [Theory]
    normalise to the same string, and the case of the letters does not
    matter. *)
Theorem normalizeTheoryName_plural (x : string) :
  normalizeTheoryName (x +:+ "Theories") = normalizeTheoryName (x +:+ "Theory") /\
  normalizeTheoryName (x +:+ "theories") = normalizeTheoryName (x +:+ "theory") /\
  normalizeTheoryName (toLowerCase x) = normalizeTheoryName x.
Proof.
  unfold normalizeTheoryName. rewrite !toLowerCase_app, toLowerCase_idemp.
  change (toLowerCase "Theories") with "theories".
  change (toLowerCase "theories") with "theories".
  change (toLowerCase "Theory") with "theory".
  change (toLowerCase "theory") with "theory".
  by rewrite replace_trailing_theories_plural, replace_trailing_theories_singular.
Qed.

(** [getTopTheories] returns the [n] most cited theories (all of them when
    there are fewer), in descending order of citations: the pool is the
    result together with a rest none of which has more citations than a
    returned theory. *)
Theorem getTopTheories_highest (clusterTheories : ClusterTheories) (n : nat) :
  length (getTopTheories clusterTheories n) = min n (length clusterTheories) /\
  StronglySorted (fun a b => citations b <= citations a)
                 (getTopTheories clusterTheories n) /\
  exists rest,
    (fun entry : string * TheoryData => mkTopTheory entry.1 (citation entry.2))
      <$> clusterTheories ≡ₚ getTopTheories clusterTheories n ++ rest /\
    forall kept left_out,
      kept ∈ getTopTheories clusterTheories n -> left_out ∈ rest ->
      citations left_out <= citations kept.
Proof.
  split; [apply getTopTheories_length|].
  unfold getTopTheories.
  set (cmp := fun a b : TopTheory => citations b - citations a).
  set (all := map (fun '(nm, data) => mkTopTheory nm (citation data)) clusterTheories).
  assert (Hsorted : StronglySorted (fun a b => citations b <= citations a)
                                   (Array_sort cmp all)).
  { eapply StronglySorted_mono; [|apply (Array_sort_sorted cmp)].
    - intros a b. unfold cmp_le, cmp. lia.
    - intros a b. unfold cmp. lia.
    - intros a b c. unfold cmp. lia. }
  rewrite <- (take_drop n (Array_sort cmp all)) in Hsorted.
  apply StronglySorted_app in Hsorted as (Hcross & Htake & _).
  split; [done|]. exists (drop n (Array_sort cmp all)). split.
  - rewrite take_drop, Array_sort_Permutation. unfold all.
    rewrite (list_fmap_ext _ (fun '(nm, data) => mkTopTheory nm (citation data))
               clusterTheories); [done|].
    by intros _ [nm d] _.
  - intros kept left_out ??. by apply Hcross.
Qed.

(** ** The graph and table components *)

Lemma split_spaces_nonempty text : split_spaces text <> [].
Proof.
  destruct text as [|c rest]; simpl; [done|].
  destruct (Ascii.eqb c " "); [done|]. by destruct (split_spaces rest).
Qed.

Lemma join_spaces_cons word words :
  words <> [] -> join_spaces (word :: words) = word +:+ " " +:+ join_spaces words.
Proof. by destruct words. Qed.

Lemma join_split_spaces text : join_spaces (split_spaces text) = text.
Proof.
  induction text as [|c rest IH]; [done|]. simpl.
  destruct (Ascii.eqb c " ") eqn:Hc.
  - apply Ascii.eqb_eq in Hc as ->.
    rewrite join_spaces_cons by apply split_spaces_nonempty. by rewrite IH.
  - destruct (split_spaces rest) as [|word words] eqn:Hsplit.
    + by destruct (split_spaces_nonempty rest).
    + rewrite <- IH. by destruct words.
Qed.

Lemma app_string_assoc (a b c : string) : (a +:+ b) +:+ c = a +:+ (b +:+ c).
Proof.
  induction a as [|x a IH]; [done|].
  change (String x ((a +:+ b) +:+ c) = String x (a +:+ b +:+ c)). by f_equal.
Qed.

Lemma join_spaces_app words1 words2 :
  words1 <> [] -> words2 <> [] ->
  join_spaces (words1 ++ words2)
    = join_spaces words1 +:+ " " +:+ join_spaces words2.
Proof.
  intros H1 H2. induction words1 as [|w words1 IH]; [done|].
  destruct words1 as [|w' words1].
  - simpl app. by rewrite join_spaces_cons.
  - rewrite <- app_comm_cons, !join_spaces_cons by done.
    rewrite IH by done. by rewrite !app_string_assoc.
Qed.

(** The two lines of a label are the words of the text, cut at one place:
    joined again with a space they give the text back (the first line alone
    when the second has no word), and the first line has as many words as
    the second or one more. *)
Theorem splitTextIntoTwoLines_words (text : string) :
  exists words1 words2,
    split_spaces text = words1 ++ words2 /\
    splitTextIntoTwoLines text = (join_spaces words1, join_spaces words2) /\
    (length words2 <= length words1 <= length words2 + 1)%nat /\
    match words2 with
    | [] => join_spaces words1 = text
    | _ => join_spaces words1 +:+ " " +:+ join_spaces words2 = text
    end.
Proof.
  pose proof (join_split_spaces text) as Hjoin.
  pose proof (split_spaces_nonempty text) as Hne.
  unfold splitTextIntoTwoLines.
  destruct (split_spaces text) as [|w0 [|w1 [|w2 words]]] eqn:Hsplit; [done|..].
  - exists [w0], []. simpl in Hjoin. rewrite <- Hjoin. simpl.
    repeat split; (done || lia).
  - exists [w0], [w1]. simpl. repeat split; (done || lia).
  - set (all := w0 :: w1 :: w2 :: words) in *.
    assert (3 <= length all)%nat as Hlen by (simpl; lia).
    clearbody all.
    rewrite bool_decide_eq_false_2 by lia.
    set (midPoint := ((length all + 1) / 2)%nat).
    assert (midPoint < length all /\ length all <= 2 * midPoint <= length all + 1)%nat
      as Hmid.
    { unfold midPoint.
      pose proof (Nat.div_mod_eq (length all + 1) 2).
      pose proof (Nat.mod_upper_bound (length all + 1) 2). lia. }
    exists (take midPoint all), (drop midPoint all).
    split; [by rewrite take_drop|]. split; [done|].
    rewrite length_take, length_drop. split; [lia|].
    assert (drop midPoint all <> []) as Hdrop.
    { intros Hnil%(f_equal length). rewrite length_drop in Hnil. simpl in Hnil. lia. }
    assert (take midPoint all <> []) as Htake.
    { intros Hnil%(f_equal length). rewrite length_take in Hnil. simpl in Hnil. lia. }
    rewrite <- join_spaces_app, take_drop by done.
    by destruct (drop midPoint all).
Qed.

Lemma elem_of_connectedNodes edges hoveredNode selectedLLMNode selectedPsychNode
    active id :
  activeNode hoveredNode selectedLLMNode selectedPsychNode = Some active ->
  id ∈ connectedNodes edges hoveredNode selectedLLMNode selectedPsychNode <->
  id = active \/
  exists e, e ∈ edges /\
            (source e = active /\ target e = id \/
             target e = active /\ source e = id).
Proof.
  intros Hactive. unfold connectedNodes. rewrite Hactive.
  rewrite elem_of_union, elem_of_singleton.
  enough (forall acc : gset string,
    id ∈ foldl (fun connected edge =>
                  let connected :=
                    if bool_decide (source edge = active)
                    then connected ∪ {[target edge]} else connected in
                  if bool_decide (target edge = active)
                  then connected ∪ {[source edge]} else connected)
               acc edges <->
    id ∈ acc \/
    exists e, e ∈ edges /\
              (source e = active /\ target e = id \/
               target e = active /\ source e = id)) as ->.
  { rewrite elem_of_empty. tauto. }
  induction edges as [|edge edges IH]; intros acc; simpl.
  - split; [by left|]. intros [?|(e & He & _)]; [done|by apply elem_of_nil in He].
  - rewrite IH. clear IH. split.
    + intros [Hacc|(e & He & Hends)].
      * repeat case_bool_decide; set_solver.
      * right. exists e. split; [by right|done].
    + intros [Hacc|(e & [->|He]%elem_of_cons & Hends)].
      * left. repeat case_bool_decide; set_solver.
      * left. repeat case_bool_decide; set_solver.
      * right. by exists e.
Qed.

(** With no node hovered and the node of an LLM topic selected, the graph
    highlights that node and exactly the nodes of the Psychology topics that
    papers of the topic cite. *)
Theorem connectedNodes_selected_llm (st : State) (key : string) (cluster : Cluster)
    (selectedPsychNode : option string) (id : string) :
  NoDup (llmClusters st).*1 ->
  (key, cluster) ∈ llmClusters st ->
  id ∈ connectedNodes (getBipartiteEdges st) None (Some ("LLM-" +:+ key))
                      selectedPsychNode <->
  id = "LLM-" +:+ key \/
  exists psychEntry,
    psychEntry ∈ psychClusters st /\ id = "Psych-" +:+ psychEntry.1 /\
    0 < edgeWeight cluster psychEntry.2
                   (citationPairs (default [] (filteredPapers st))).
Proof.
  intros Hnd Hkey.
  rewrite (elem_of_connectedNodes _ _ _ _ ("LLM-" +:+ key)) by done.
  apply or_iff_compat_l. split.
  - intros (e & (llmEntry & psychEntry & Hllm & Hpsych & He)%elem_of_getBipartiteEdges
              & Hends).
    pose proof He as Hin. apply elem_of_topicEdge in He as (Hs & Ht & Hw).
    destruct Hends as [[Hsrc <-]|[Htgt _]].
    + rewrite Hs in Hsrc. apply (inj (String.append "LLM-")) in Hsrc.
      destruct llmEntry as [key' cluster']. simpl in *. subst key'.
      assert (cluster' = cluster) as ->.
      { pose proof (get_elem_of_NoDup _ _ _ Hnd Hllm) as H1.
        pose proof (get_elem_of_NoDup _ _ _ Hnd Hkey) as H2. congruence. }
      exists psychEntry. split; [done|]. split; [done|].
      unfold topicEdge in Hin. simpl in Hin.
      case_bool_decide; [by apply elem_of_nil in Hin|].
      pose proof (edgeWeight_nonneg cluster psychEntry.2
                    (citationPairs (default [] (filteredPapers st)))). lia.
    + rewrite Ht in Htgt. symmetry in Htgt. by apply prefixed_ne in Htgt.
  - intros (psychEntry & Hpsych & -> & Hw).
    exists (mkEdge ("LLM-" +:+ key) ("Psych-" +:+ psychEntry.1)
                   (edgeWeight cluster psychEntry.2
                      (citationPairs (default [] (filteredPapers st))))).
    split; [|left; done].
    apply elem_of_getBipartiteEdges. exists (key, cluster), psychEntry.
    split; [done|]. split; [done|]. unfold topicEdge. simpl.
    case_bool_decide; [lia|]. by apply list_elem_of_singleton.
Qed.

Lemma connectedNodes_selected_llm_witness :
  "Psych-Cluster 1" ∈
    connectedNodes (getBipartiteEdges Sample.state) None (Some "LLM-Cluster 0") None.
Proof.
  apply (connectedNodes_selected_llm Sample.state "Cluster 0"
           (mkCluster 2 "vision" [Sample.doc "l1"; Sample.doc "l2"]) None
           "Psych-Cluster 1").
  - vm_compute. repeat (constructor; [set_solver|]). constructor.
  - vm_compute. left.
  - right. exists ("Cluster 1", mkCluster 1 "memory" [Sample.doc "q3"]).
    split; [vm_compute; right; left|]. split; [reflexivity|]. vm_compute. reflexivity.
Defined.

Lemma hex_value_range c : TheoryTable.is_hex c = true -> 0 <= TheoryTable.hex_value c < 16.
Proof.
  destruct c as [[] [] [] [] [] [] [] []]; intros H; try discriminate H;
    vm_compute; split; (discriminate || reflexivity).
Qed.

Lemma hex6_range s rgb :
  TheoryTable.hex6 s = Some rgb ->
  0 <= TheoryTable.red rgb <= 255 /\ 0 <= TheoryTable.green rgb <= 255 /\
  0 <= TheoryTable.blue rgb <= 255.
Proof.
  unfold TheoryTable.hex6.
  destruct s as [|r1 [|r2 [|g1 [|g2 [|b1 [|b2 [|]]]]]]]; try done.
  destruct (TheoryTable.is_hex r1) eqn:H1; [|done].
  destruct (TheoryTable.is_hex r2) eqn:H2; [|done].
  destruct (TheoryTable.is_hex g1) eqn:H3; [|done].
  destruct (TheoryTable.is_hex g2) eqn:H4; [|done].
  destruct (TheoryTable.is_hex b1) eqn:H5; [|done].
  destruct (TheoryTable.is_hex b2) eqn:H6; [|done].
  intros [= <-]. simpl. unfold TheoryTable.parseInt_hex2.
  apply hex_value_range in H1, H2, H3, H4, H5, H6. lia.
Qed.

(** Whatever the string, [hexToRgb] returns three channels between 0 and
    255. *)
Theorem hexToRgb_range (hex : string) :
  0 <= TheoryTable.red (TheoryTable.hexToRgb hex) <= 255 /\
  0 <= TheoryTable.green (TheoryTable.hexToRgb hex) <= 255 /\
  0 <= TheoryTable.blue (TheoryTable.hexToRgb hex) <= 255.
Proof.
  unfold TheoryTable.hexToRgb.
  assert (forall o, (forall rgb, o = Some rgb ->
            0 <= TheoryTable.red rgb <= 255 /\ 0 <= TheoryTable.green rgb <= 255 /\
            0 <= TheoryTable.blue rgb <= 255) ->
          let rgb := match o with Some rgb => rgb | None => TheoryTable.mkRgb 0 0 0 end in
          0 <= TheoryTable.red rgb <= 255 /\ 0 <= TheoryTable.green rgb <= 255 /\
          0 <= TheoryTable.blue rgb <= 255) as Hcase.
  { intros [rgb|] Ho; simpl; [by apply Ho|lia]. }
  apply Hcase. intros rgb.
  destruct hex as [|c rest]; [apply hex6_range|].
  destruct (Ascii.eqb c "#"); [|apply hex6_range].
  destruct (TheoryTable.hex6 rest) eqn:E; [|apply hex6_range].
  intros [= <-]. by apply hex6_range in E.
Qed.

(** ** The rows of the line chart *)












(** ** The selections the page can reach *)

Lemma elem_of_getBipartiteNodes getClusterLabel st node :
  node ∈ getBipartiteNodes getClusterLabel st ->
  (node_type node = llm /\
   exists key, key ∈ (llmClusters st).*1 /\ node_id node = "LLM-" +:+ key) \/
  (node_type node = psych /\
   exists key, key ∈ (psychClusters st).*1 /\ node_id node = "Psych-" +:+ key).
Proof.
  unfold getBipartiteNodes.
  intros [Hin|Hin]%elem_of_app;
    apply list_elem_of_fmap in Hin as ([key cluster] & -> & Hin); [left|right];
    (split; [done|]); exists key; (split; [|done]);
    apply list_elem_of_fmap; by exists (key, cluster).
Qed.



(** What every selection of the page satisfies. *)
Lemma ui_reachable_invariant getClusterLabel st s :
  ui_reachable getClusterLabel st s ->
  (forall id, selectedLLMNode s = Some id ->
     exists key, key ∈ (llmClusters st).*1 /\ id = "LLM-" +:+ key) /\
  (forall id, selectedPsychNode s = Some id ->
     exists key, key ∈ (psychClusters st).*1 /\ id = "Psych-" +:+ key) /\
  (forall th, selectedTheory s = Some th ->
     exists row, row ∈ theoryTableData st s /\ theory row = th /\
                 isTopThree row = true).
Proof.
  induction 1 as [|s s' Hreach (Hllm & Hpsych & Htheory) Hstep].
  - by repeat split.
  - destruct Hstep as [s node Hnode Htype|s node Hnode Htype|s id row Hsel Hid Hrow Htop|s].
    + split; [|split; [done|]].
      * intros id. simpl. unfold toggle. case_bool_decide; [done|].
        intros [= <-].
        apply elem_of_getBipartiteNodes in Hnode as [[_ ?]|[? _]]; [done|congruence].
      * exact Htheory.
    + split; [done|]. split; [|done].
      intros id. simpl. unfold toggle. case_bool_decide; [done|].
      intros [= <-].
      apply elem_of_getBipartiteNodes in Hnode as [[? _]|[_ ?]]; [congruence|done].
    + split; [done|]. split; [done|].
      intros th. simpl. unfold toggle. case_bool_decide; [done|].
      intros [= <-]. by exists row.
    + split; [done|]. split; [done|]. exact Htheory.
Qed.

(** Whatever the user clicks, a selected node is the node of a topic of its
    side, so the chart and the table are asked for a key of the data; and a
    theory is selected only while a Psychology node is, and is then the
    theory of a top-three row of the table on display. *)
Theorem ui_reachable_selection
    (getClusterLabel : string -> ClusterKind -> string)
    (st : State) (s : Selection) :
  ui_reachable getClusterLabel st s ->
  (forall id, selectedLLMNode s = Some id ->
     exists key, key ∈ (llmClusters st).*1 /\ id = "LLM-" +:+ key /\
                 getMultiSeriesLineData getClusterLabel st s
                   = Some (seriesLine <$>
                             getMultiSeriesCitationData getClusterLabel st key)) /\
  (forall id, selectedPsychNode s = Some id ->
     exists key, key ∈ (psychClusters st).*1 /\ id = "Psych-" +:+ key /\
                 (key <> "" -> theoryTableData st s = getTheoryTableData st key)) /\
  (forall th, selectedTheory s = Some th ->
     exists id row, selectedPsychNode s = Some id /\
                    row ∈ theoryTableData st s /\ theory row = th /\
                    isTopThree row = true).
Proof.
  intros (Hllm & Hpsych & Htheory)%ui_reachable_invariant. split; [|split].
  - intros id Hid. destruct (Hllm id Hid) as (key & Hkey & ->).
    exists key. split; [done|]. split; [done|].
    unfold getMultiSeriesLineData. by rewrite Hid.
  - intros id Hid. destruct (Hpsych id Hid) as (key & Hkey & ->).
    exists key. split; [done|]. split; [done|].
    unfold theoryTableData, psychKey. rewrite Hid.
    change (String_replace "Psych-" "" <$> Some ("Psych-" +:+ key)) with (Some key).
    cbv beta iota. by intros ->%truthy_true_iff.
  - intros th Hth. destruct (Htheory th Hth) as (row & Hrow & <- & Htop).
    destruct (selectedPsychNode s) as [id|] eqn:Hid.
    + by exists id, row.
    + unfold theoryTableData, psychKey in Hrow. rewrite Hid in Hrow.
      by apply elem_of_nil in Hrow.
Qed.

Lemma ui_reachable_selection_witness :
  exists id row,
    selectedPsychNode
      (onTheoryClick "Schema Theory" (onPsychNodeClick "Psych-Cluster 0" initial))
      = Some id /\
    row ∈ theoryTableData Sample.state
            (onTheoryClick "Schema Theory"
               (onPsychNodeClick "Psych-Cluster 0" initial)) /\
    theory row = "Schema Theory" /\ isTopThree row = true.
Proof.
  assert (ui_reachable Sample.label Sample.state
            (onTheoryClick "Schema Theory"
               (onPsychNodeClick "Psych-Cluster 0" initial))) as Hreach.
  { apply (ui_reachable_step Sample.label Sample.state
             (onPsychNodeClick "Psych-Cluster 0" initial)).
    - apply (ui_reachable_step Sample.label Sample.state initial);
        [apply ui_reachable_initial|].
      apply (ui_psych_click Sample.label Sample.state initial
               (mkNode "Psych-Cluster 0" "Psych Cluster 0" psych 0 2));
        [vm_compute; do 2 right; left|reflexivity].
    - apply (ui_theory_click Sample.label Sample.state
               (onPsychNodeClick "Psych-Cluster 0" initial) "Psych-Cluster 0"
               (mkRow "schemas" "Schema Theory" 10 true));
        [reflexivity|reflexivity|vm_compute; left|reflexivity]. }
  destruct (ui_reachable_selection Sample.label Sample.state _ Hreach)
    as (_ & _ & Htheory).
  apply Htheory. reflexivity.
Defined.



(** ** The shape of an inferred month *)

Lemma is_digit_elem c : is_digit c = true -> c ∈ digit_chars.
Proof.
  destruct c as [[] [] [] [] [] [] [] []]; intros H; try discriminate H;
    unfold digit_chars; repeat (first [left|right]).
Qed.

Lemma year_digits :
  Forall (fun y1 => Forall (fun y2 =>
    Number_toString (2000 + digits2 y1 y2)
      = String "2" (String "0" (String y1 (String y2 EmptyString))))
    digit_chars) digit_chars.
Proof. apply (bool_decide_unpack _). vm_compute. exact I. Qed.

Lemma month_digits :
  Forall (fun m1 => Forall (fun m2 =>
    padStart2 (Number_toString (digits2 m1 m2))
      = String m1 (String m2 EmptyString))
    digit_chars) digit_chars.
Proof. apply (bool_decide_unpack _). vm_compute. exact I. Qed.

Lemma arxiv_match_here_digits s r :
  arxiv_match_here s = Some r ->
  exists y1 y2 m1 m2,
    r = yymm y1 y2 m1 m2 /\
    is_digit y1 = true /\ is_digit y2 = true /\
    is_digit m1 = true /\ is_digit m2 = true.
Proof.
  unfold arxiv_match_here.
  destruct (strip_prefix true "arxiv.org/abs/" s)
    as [[|y1 [|y2 [|m1 [|m2 [|dot [|n1 [|n2 [|n3 [|n4 rest]]]]]]]]]|]; try done.
  match goal with
  | |- (if ?cond then _ else _) = _ -> _ => destruct cond eqn:Hcond
  end; [|done].
  intros [= <-]. exists y1, y2, m1, m2.
  do 8 (apply andb_true_iff in Hcond as [Hcond ?]).
  split; [done|]. by repeat split.
Qed.

Lemma arxiv_match_digits s r :
  arxiv_match s = Some r ->
  exists y1 y2 m1 m2,
    r = yymm y1 y2 m1 m2 /\
    is_digit y1 = true /\ is_digit y2 = true /\
    is_digit m1 = true /\ is_digit m2 = true.
Proof.
  induction s as [|c s IH]; cbn [arxiv_match].
  - destruct (arxiv_match_here "") eqn:E; [|done].
    intros [= <-]. by apply arxiv_match_here_digits in E.
  - destruct (arxiv_match_here (String c s)) eqn:E; [|done].
    intros [= <-]. by apply arxiv_match_here_digits in E.
Qed.

(** A month inferred from an arXiv URL is written [20YY-MM] with the four
    digits of the identifier as they stand in the URL, the month between 01
    and 12: seven code units, the shape of a publication-date bucket. *)
Theorem inferMonthFromArxivUrl_format (url m : string) :
  inferMonthFromArxivUrl (Some url) = Some m ->
  exists y1 y2 m1 m2,
    arxiv_match url = Some (yymm y1 y2 m1 m2) /\
    1 <= digits2 m1 m2 <= 12 /\
    m = String "2" (String "0" (String y1 (String y2
          (String "-" (String m1 (String m2 EmptyString)))))).
Proof.
  intros Hm.
  destruct (arxiv_match url) as [r|] eqn:Hmatch.
  - destruct (arxiv_match_digits _ _ Hmatch)
      as (y1 & y2 & m1 & m2 & -> & Hy1 & Hy2 & Hm1 & Hm2).
    rewrite (inferMonthFromArxivUrl_match _ _ _ _ _ Hmatch) in Hm.
    case_bool_decide as Hmm; [|done]. injection Hm as <-.
    exists y1, y2, m1, m2. split; [done|]. split; [done|].
    unfold monthBucket.
    apply is_digit_elem in Hy1, Hy2, Hm1, Hm2.
    pose proof year_digits as Hy. rewrite Forall_forall in Hy.
    specialize (Hy _ Hy1). rewrite Forall_forall in Hy. rewrite (Hy _ Hy2).
    pose proof month_digits as Hd. rewrite Forall_forall in Hd.
    specialize (Hd _ Hm1). rewrite Forall_forall in Hd. by rewrite (Hd _ Hm2).
  - unfold inferMonthFromArxivUrl in Hm. rewrite Hmatch in Hm.
    by destruct (negb (truthy url)).
Qed.

Lemma inferMonthFromArxivUrl_format_witness :
  exists y1 y2 m1 m2,
    arxiv_match "https://arxiv.org/abs/2310.01234v2" = Some (yymm y1 y2 m1 m2) /\
    1 <= digits2 m1 m2 <= 12 /\
    "2023-10" = String "2" (String "0" (String y1 (String y2
                  (String "-" (String m1 (String m2 EmptyString)))))).
Proof.
  apply (inferMonthFromArxivUrl_format "https://arxiv.org/abs/2310.01234v2" "2023-10").
  vm_compute. reflexivity.
Defined.

(** ** The two revisions of the time series *)

Lemma truthy_substring0 pub :
  (7 <= String.length pub)%nat -> truthy (substring0 7 pub) = true.
Proof. destruct pub; simpl; [lia|done]. Qed.

Lemma countPaper_v1 paperIds monthCounts paper :
  fullyDated paper ->
  HookV1.countPaper paperIds monthCounts paper = countPaper paperIds monthCounts paper.
Proof.
  intros [Hid (pub & Hpub & Hlen)]. unfold HookV1.countPaper, countPaper, inferMonth.
  cbn [mbind option_bind]. rewrite Hpub.
  rewrite bool_decide_eq_true_2 by done. rewrite truthy_substring0 by done.
  assert (truthy pub = true) as -> by (destruct pub; [simpl in Hlen; lia|done]).
  destruct (info_paperId paper) as [pid|]; [|done].
  assert (truthy pid = true) as -> by (apply truthy_true_iff; congruence).
  simpl. by destruct (bool_decide (pid ∈ paperIds)).
Qed.

(** On paper-info records that all have a publication date of at least seven
    code units and no empty ID, the time series of the earlier revision of
    the hook and the one of the latest revision are the same. *)
Theorem getCitationTimeSeries_v1_agrees (st : State) (llmClusterId : option string)
    (papersInfoArray : list PaperInfo) :
  papersInfo st = Some papersInfoArray ->
  Forall fullyDated papersInfoArray ->
  HookV1.getCitationTimeSeries st llmClusterId
    = getCitationTimeSeries st llmClusterId.
Proof.
  intros Hinfo Hdated. unfold HookV1.getCitationTimeSeries, getCitationTimeSeries.
  rewrite Hinfo.
  enough (forall acc : gmap string Z,
    foldl (HookV1.countPaper (seriesPaperIds st llmClusterId)) acc papersInfoArray
    = foldl (countPaper (seriesPaperIds st llmClusterId)) acc papersInfoArray)
    as -> by done.
  clear Hinfo. induction Hdated as [|paper l Hpaper Hl IH]; intros acc; [done|].
  cbn [foldl]. rewrite countPaper_v1 by done. apply IH.
Qed.

Lemma getCitationTimeSeries_v1_agrees_witness :
  HookV1.getCitationTimeSeries
    (loadData Sample.llmTopics Sample.psychTopics Sample.theoryPools Sample.subtopics
       (Some [mkPaperInfo (Some "l1") (Some "2023-10-05") None;
              mkPaperInfo None (Some "2022-01-01") None])
       (Some Sample.papers) (Some Sample.refs)) None
  = getCitationTimeSeries
      (loadData Sample.llmTopics Sample.psychTopics Sample.theoryPools Sample.subtopics
         (Some [mkPaperInfo (Some "l1") (Some "2023-10-05") None;
                mkPaperInfo None (Some "2022-01-01") None])
         (Some Sample.papers) (Some Sample.refs)) None.
Proof.
  apply (getCitationTimeSeries_v1_agrees _ None
           [mkPaperInfo (Some "l1") (Some "2023-10-05") None;
            mkPaperInfo None (Some "2022-01-01") None]).
  - reflexivity.
  - repeat constructor; try discriminate.
    + exists "2023-10-05". split; [reflexivity|simpl; lia].
    + exists "2022-01-01". split; [reflexivity|simpl; lia].
Defined.

(** ** The two orders of the theory table *)

Import TheoryTableSorted.

Lemma showSeparators_lookup rows :
  forall prevSubtopic j row,
  rows !! j = Some row ->
  exists flag,
    showSeparators bySubtopic prevSubtopic rows !! j = Some flag /\
    (flag = true <->
     match j with
     | O => exists prev, prevSubtopic = Some prev /\ prev <> subtopic row
     | S i => exists before, rows !! i = Some before /\
                             subtopic before <> subtopic row
     end).
Proof.
  induction rows as [|row0 rows IH]; intros prevSubtopic j row Hj; [done|].
  destruct j as [|j].
  - injection Hj as ->. cbn [showSeparators]. eexists. split; [done|].
    destruct prevSubtopic as [prev|].
    + rewrite negb_true_iff. split.
      * intros Hne. exists prev. split; [done|].
        intros Heq. apply String.eqb_eq in Heq. congruence.
      * intros (prev' & [= <-] & Hne). apply not_true_is_false.
        by rewrite String.eqb_eq.
    + split; [done|]. by intros (prev & ? & _).
  - cbn [showSeparators]. simpl in Hj.
    destruct (IH (Some (subtopic row0)) j row Hj) as (flag & Hflag & Hiff).
    exists flag. split; [done|]. rewrite Hiff. destruct j as [|j]; simpl.
    + split.
      * intros (prev & [= <-] & Hne). by exists row0.
      * intros (before & [= <-] & Hne). by exists (subtopic row0).
    + done.
Qed.

Lemma StronglySorted_lookup_lt {A : Type} (R : A -> A -> Prop) (l : list A) i j a b :
  StronglySorted R l -> (i < j)%nat -> l !! i = Some a -> l !! j = Some b -> R a b.
Proof.
  intros Hsorted. revert i j. induction Hsorted as [|x l Hl IH Hx]; intros i j Hij Hi Hj;
    [done|].
  destruct j as [|j]; [lia|]. simpl in Hj. destruct i as [|i]; simpl in Hi.
  - injection Hi as ->. eapply Forall_forall in Hx; [exact Hx|].
    by eapply list_elem_of_lookup_2.
  - apply (IH i j); [lia|done..].
Qed.

Lemma getTheoryTableData_sorted st psychClusterId secondaryClusterData
    clusterTheories :
  let clusterKey :=
    "Cluster " +:+ Number_toString (getClusterNumber psychClusterId) in
  get (secondaryClusters st) clusterKey = Some secondaryClusterData ->
  get (theoryPool st) clusterKey = Some clusterTheories ->
  StronglySorted (rowBefore (buildSubtopicOrder secondaryClusterData))
                 (getTheoryTableData st psychClusterId).
Proof.
  intros clusterKey Hsec Hpool.
  rewrite (getTheoryTableData_rows _ _ _ _ Hsec Hpool).
  eapply StronglySorted_mono;
    [|apply (Array_sort_sorted
               (compareRows (buildSubtopicOrder secondaryClusterData)))].
  - intros a b. apply compareRows_rowBefore.
  - intros x y. rewrite !compareRows_rowBefore. unfold rowBefore. lia.
  - intros x y z. rewrite !compareRows_rowBefore. unfold rowBefore. lia.
Qed.

(** When the subtopics of the topic have distinct labels, the table in
    subtopic order draws a separator above a row exactly when the row is the
    first of its subtopic and not the first of the table: every subtopic is
    one block of rows. *)
Theorem separators_first_of_subtopic (st : State) (psychClusterId : string)
    (secondaryClusterData : list (string * SecondaryCluster))
    (clusterTheories : ClusterTheories) (j : nat) (row : TheoryRow) :
  let clusterKey :=
    "Cluster " +:+ Number_toString (getClusterNumber psychClusterId) in
  get (secondaryClusters st) clusterKey = Some secondaryClusterData ->
  get (theoryPool st) clusterKey = Some clusterTheories ->
  NoDup ((fun e : string * SecondaryCluster => sub_topic e.2)
           <$> secondaryClusterData) ->
  getTheoryTableData st psychClusterId !! j = Some row ->
  exists flag,
    separators bySubtopic (getTheoryTableData st psychClusterId) !! j = Some flag /\
    (flag = true <->
     (0 < j)%nat /\
     forall i earlier, (i < j)%nat ->
       getTheoryTableData st psychClusterId !! i = Some earlier ->
       subtopic earlier <> subtopic row).
Proof.
  intros clusterKey Hsec Hpool Hnd Hrow. unfold separators, sortedData.
  pose proof (getTheoryTableData_sorted st psychClusterId _ _ Hsec Hpool)
    as Hsorted.
  assert (Hplace : forall i entry,
            secondaryClusterData !! i = Some entry ->
            buildSubtopicOrder secondaryClusterData !! sub_topic entry.2
              = Some (Z.of_nat i)).
  { intros i entry Hi. unfold buildSubtopicOrder.
    by rewrite (buildSubtopicOrder_lookup_from 0 _ _ i entry Hnd Hi). }
  set (rows := getTheoryTableData st psychClusterId) in *.
  set (order := buildSubtopicOrder secondaryClusterData) in *.
  assert (Hrank : forall r, r ∈ rows ->
            exists i entry, secondaryClusterData !! i = Some entry /\
                            subtopic r = sub_topic entry.2 /\
                            rowRank order r = Z.of_nat i).
  { intros r Hr.
    destruct (proj1 (elem_of_getTheoryTableData _ _ _ _ r Hsec Hpool) Hr)
      as (entry & theoryName & resolved & Hentry & _ & _ & ->).
    apply list_elem_of_lookup_1 in Hentry as [i Hi].
    exists i, entry. split; [done|]. split; [done|].
    unfold rowRank. simpl. by rewrite (Hplace i entry Hi). }
  assert (Hinj : forall a b, a ∈ rows -> b ∈ rows ->
            rowRank order a = rowRank order b -> subtopic a = subtopic b).
  { intros a b (ia & ea & Ha & -> & Hra)%Hrank (ib & eb & Hb & -> & Hrb)%Hrank Heq.
    assert (ia = ib) as -> by lia. congruence. }
  assert (Hle : forall i k a b, (i < k)%nat -> rows !! i = Some a -> rows !! k = Some b ->
            rowRank order a <= rowRank order b).
  { intros i k a b Hik Ha Hb.
    pose proof (StronglySorted_lookup_lt _ _ _ _ _ _ Hsorted Hik Ha Hb) as Hab.
    unfold rowBefore in Hab. lia. }
  destruct (showSeparators_lookup rows None j row Hrow) as (flag & Hflag & Hiff).
  exists flag. split; [done|]. rewrite Hiff. clear Hiff Hflag.
  destruct j as [|j].
  - split; [by intros (prev & ? & _)|]. intros [? _]. lia.
  - split.
    + intros (before & Hbefore & Hne). split; [lia|].
      intros i earlier Hi Hearlier Heq.
      assert (rowRank order before <= rowRank order row)
        by (apply (Hle j (S j)); [lia|done..]).
      assert (rowRank order earlier <= rowRank order before).
      { destruct (decide (i = j)) as [->|]; [|apply (Hle i j); [lia|done..]].
        rewrite Hbefore in Hearlier. injection Hearlier as ->. lia. }
      assert (rowRank order earlier = rowRank order row) by (unfold rowRank; by rewrite Heq).
      apply Hne. apply Hinj; [by eapply list_elem_of_lookup_2..|lia].
    + intros [_ Hall].
      destruct (lookup_lt_is_Some_2 rows j) as [before Hbefore].
      { apply lookup_lt_Some in Hrow. lia. }
      exists before. split; [done|]. apply (Hall j); [lia|done].
Qed.

Lemma separators_first_of_subtopic_witness :
  exists flag,
    separators bySubtopic (getTheoryTableData Sample.state "Cluster 0") !! 2%nat
      = Some flag /\
    (flag = true <->
     (0 < 2)%nat /\
     forall i earlier, (i < 2)%nat ->
       getTheoryTableData Sample.state "Cluster 0" !! i = Some earlier ->
       subtopic earlier <> subtopic (mkRow "others" "B" 10 true)).
Proof.
  apply (separators_first_of_subtopic Sample.state "Cluster 0"
           Sample.subtopics0 Sample.pool0 2 (mkRow "others" "B" 10 true)).
  - reflexivity.
  - reflexivity.
  - vm_compute. repeat (constructor; [set_solver|]). constructor.
  - vm_compute. reflexivity.
Defined.

(** In citation order the table shows the same rows by descending citation
    count, and no separator. *)
Theorem sortedData_byCitations (data : list TheoryRow) :
  sortedData byCitations data ≡ₚ data /\
  StronglySorted (fun a b => row_citations b <= row_citations a)
                 (sortedData byCitations data) /\
  Forall (fun flag => flag = false) (separators byCitations data).
Proof.
  unfold separators, sortedData. split; [apply Array_sort_Permutation|]. split.
  - eapply StronglySorted_mono; [|apply (Array_sort_sorted
       (fun a b => row_citations b - row_citations a))].
    + intros a b. unfold cmp_le. lia.
    + intros a b. lia.
    + intros a b c. lia.
  - generalize (Array_sort (fun a b => row_citations b - row_citations a) data).
    intros rows. generalize (@None string).
    induction rows as [|row rows IH]; intros prev; simpl; [constructor|].
    constructor; [done|apply IH].
Qed.

